(** * go-process-controller: the supervisor engine

    A shallow embedding of package [gpcprocessmgr] (launching, monitoring,
    restarting and shutting down configured processes) together with the parts
    of [gpcconfig], [gpclogging], [os] and [os/exec] that it relies on.

    The Go program keeps its registry in a package-level map from process name
    to a pointer to the runtime record; here the registry is a [gmap] from the
    name to the record and every write goes through the map entry, which is
    what the shared pointer amounts to, since entries are never added or
    removed after start-up.

    Goroutines are kept in a pool; a schedule picks which one resumes next
    and supplies what the operating system answers at that moment (what the
    lookup of an executable finds, whether a start works and with which pid,
    whether a pid still answers the liveness probe, how a process that is
    waited for ends).  A step is the body of a
    launcher, or the visit of one entry by the monitor or by [ShutdownAll],
    or a test of the stop flag by the monitor: the monitor tests the flag
    between two scans only, and a scan or a call of [ShutdownAll] that is
    under way is a goroutine of the pool that knows the entries it still
    has to visit, so that launchers, the scan and the shutdown interleave
    entry by entry.  [gRuntimeDatatMux] is held by [ShutdownAll] during its
    loop and by [launchProcessAndWait] during its body; [launchProcess]
    only waits for it once, at its beginning, and holds nothing while it
    works.  Accordingly a launcher that waits for its process does not run
    while a shutdown is under way, a launcher that does not wait is held up
    by a shutdown only if it was started after the shutdown took the lock,
    and a second call of [ShutdownAll] waits for the first.  Within the
    body of a launcher and within a visit the statements are not
    interleaved with those of other goroutines.  Sleeping (start delay, the
    100 ms pause of the monitor) and the wait group of [main] are left to
    the schedule.  A nil pointer dereference ends the program: the world is
    marked [panicked] and no step changes it any more. *)

From Stdlib Require Import ZArith List Ascii String Bool Lia DecimalString.
From stdpp Require Import base gmap strings list fin_maps.

Local Open Scope Z_scope.

(** ** The Go runtime and the operating system, as far as the engine uses them *)

Module golang.

(** Range of a [uint32] and its wrap-around. *)
Definition uint32 (z : Z) : Prop := 0 ≤ z < 2 ^ 32.
Definition wrap32 (z : Z) : Z := z `mod` 2 ^ 32.

(** [error] values: the engine only tells [*exec.ExitError] from the rest. *)
Inductive GoError :=
| ExitError (exitCode : Z)
| OtherError (op : string).

Inductive Signal := SIGTERM | SIGKILL.

(** [os.Process]. *)
Record osProcess := { Pid : Z }.

(** [exec.Cmd]; a nil pointer field is [None].  Files are handles into the
    table of files of the world. *)
Record Cmd := {
  Path : string;
  Args : list string;
  Stdin : option nat;
  Stdout : option nat;
  Stderr : option nat;
  SysProcAttr : option bool;      (* nil, or &SysProcAttr{HideWindow: b} *)
  ctxTimeout : option Z;          (* deadline of CommandContext, in ns *)
  Process : option osProcess;
  ProcessState : option Z;        (* exit code once waited for *)
  lookPathErr : option GoError    (* error of the lookup of the executable *)
}.

(** [os.File], with the number of [Close] calls it has received. *)
Record File := { fowner : string; isOpen : bool; closeCalls : nat }.

(** How a started process comes to its end while [Cmd.Run] waits for it. *)
Inductive Ending :=
| ExitsByItself (exitCode : Z)
| KilledAtDeadline.

(** What the operating system answers during one step. *)
Record OS := {
  os_Create : string → bool;                       (* os.Create of a log file works *)
  os_LookPath : string → string * bool;            (* exec.LookPath: path found, or an error *)
  os_StartProcess : string → list string → option Z; (* new pid, or failure *)
  os_ending : Z → Ending;
  os_OpenProcess : Z → bool;
  os_Release : Z → option GoError;
  os_Signal : Z → Signal → option GoError
}.

(** [filepath.Base(name) == name] on Windows: the name is a single
    backslash, or it is not empty and has neither a separator nor a drive
    letter in front. *)
Definition isPathSeparator (c : ascii) : bool :=
  bool_decide (c = "/"%char) || bool_decide (c = ascii_of_nat 92).

Fixpoint hasSeparator (s : string) : bool :=
  match s with
  | EmptyString => false
  | String c s => isPathSeparator c || hasSeparator s
  end.

Definition isLetter (c : ascii) : bool :=
  let n := nat_of_ascii c in
  ((97 <=? n)%nat && (n <=? 122)%nat) || ((65 <=? n)%nat && (n <=? 90)%nat).

Definition hasDrive (s : string) : bool :=
  match s with
  | String c (String colon _) => isLetter c && bool_decide (colon = ":"%char)
  | _ => false
  end.

Definition isFileName (name : string) : bool :=
  bool_decide (name = String (ascii_of_nat 92) EmptyString)
  || (negb (bool_decide (name = EmptyString)) && negb (hasSeparator name)
      && negb (hasDrive name)).

Definition set_Path (p : string) (c : Cmd) : Cmd :=
  {| Path := p; Args := Args c; Stdin := Stdin c; Stdout := Stdout c;
     Stderr := Stderr c; SysProcAttr := SysProcAttr c;
     ctxTimeout := ctxTimeout c; Process := Process c;
     ProcessState := ProcessState c; lookPathErr := lookPathErr c |}.

Definition set_lookPathErr (e : option GoError) (c : Cmd) : Cmd :=
  {| Path := Path c; Args := Args c; Stdin := Stdin c; Stdout := Stdout c;
     Stderr := Stderr c; SysProcAttr := SysProcAttr c;
     ctxTimeout := ctxTimeout c; Process := Process c;
     ProcessState := ProcessState c; lookPathErr := e |}.

(** The lookup that [exec.Command] makes for a name without directory
    part: a path that [LookPath] returns replaces the name in [Path]; an
    error of [LookPath] (an [*exec.Error]) is kept in the command, and
    [Start] returns it. *)
Definition resolve (os : OS) (name : string) (c : Cmd) : Cmd :=
  if isFileName name then
    let '(lp, failed) := os_LookPath os name in
    let c := if bool_decide (lp = EmptyString) then c else set_Path lp c in
    if failed
    then set_lookPathErr (Some (OtherError "exec: executable file not found")) c
    else c
  else c.

(** [exec.Command(name, arg...)]: argv starts with the name, [Path] is the
    name or what the lookup finds for it. *)
Definition exec_Command (os : OS) (name : string) (arg : list string) : Cmd :=
  resolve os name
    {| Path := name; Args := name :: arg; Stdin := None; Stdout := None;
       Stderr := None; SysProcAttr := None; ctxTimeout := None;
       Process := None; ProcessState := None; lookPathErr := None |}.

(** [exec.CommandContext(ctx, name, arg...)] for a context with a timeout:
    [Command], with the context kept in the command. *)
Definition exec_CommandContext (os : OS) (timeoutDur : Z) (name : string)
    (arg : list string) : Cmd :=
  resolve os name
    {| Path := name; Args := name :: arg; Stdin := None; Stdout := None;
       Stderr := None; SysProcAttr := None; ctxTimeout := Some timeoutDur;
       Process := None; ProcessState := None; lookPathErr := None |}.

Definition set_Process (p : option osProcess) (c : Cmd) : Cmd :=
  {| Path := Path c; Args := Args c; Stdin := Stdin c; Stdout := Stdout c;
     Stderr := Stderr c; SysProcAttr := SysProcAttr c;
     ctxTimeout := ctxTimeout c; Process := p;
     ProcessState := ProcessState c; lookPathErr := lookPathErr c |}.

Definition set_ProcessState (st : option Z) (c : Cmd) : Cmd :=
  {| Path := Path c; Args := Args c; Stdin := Stdin c; Stdout := Stdout c;
     Stderr := Stderr c; SysProcAttr := SysProcAttr c;
     ctxTimeout := ctxTimeout c; Process := Process c;
     ProcessState := st; lookPathErr := lookPathErr c |}.

Definition set_streams (i o e : option nat) (c : Cmd) : Cmd :=
  {| Path := Path c; Args := Args c; Stdin := i; Stdout := o;
     Stderr := e; SysProcAttr := SysProcAttr c;
     ctxTimeout := ctxTimeout c; Process := Process c;
     ProcessState := ProcessState c; lookPathErr := lookPathErr c |}.

Definition set_SysProcAttr (a : option bool) (c : Cmd) : Cmd :=
  {| Path := Path c; Args := Args c; Stdin := Stdin c; Stdout := Stdout c;
     Stderr := Stderr c; SysProcAttr := a;
     ctxTimeout := ctxTimeout c; Process := Process c;
     ProcessState := ProcessState c; lookPathErr := lookPathErr c |}.

(** [Cmd.Start]: an error of the lookup is returned at once; [Process] is
    assigned only when the process was created; on failure it stays nil. *)
Definition Cmd_Start (os : OS) (c : Cmd) : Cmd * option GoError :=
  match lookPathErr c with
  | Some e => (c, Some e)
  | None =>
      match os_StartProcess os (Path c) (Args c) with
      | Some newpid => (set_Process (Some {| Pid := newpid |}) c, None)
      | None => (c, Some (OtherError "exec"))
      end
  end.

(** [Cmd.Wait]: a process that does not end with success, by itself or
    because the deadline killed it (exit code 1 on Windows), gives an
    [*exec.ExitError]. *)
Definition Cmd_Wait (os : OS) (c : Cmd) : Cmd * option GoError :=
  match Process c with
  | None => (c, Some (OtherError "exec: not started"))
  | Some p =>
      match os_ending os (Pid p) with
      | ExitsByItself code =>
          (set_ProcessState (Some code) c,
           if code =? 0 then None else Some (ExitError code))
      | KilledAtDeadline =>
          (set_ProcessState (Some 1) c, Some (ExitError 1))
      end
  end.

(** [Cmd.Run]: [Start], then [Wait]. *)
Definition Cmd_Run (os : OS) (c : Cmd) : Cmd * option GoError :=
  match Cmd_Start os c with
  | (c1, Some e) => (c1, Some e)
  | (c1, None) => Cmd_Wait os c1
  end.

(** [strconv.Itoa]. *)
Definition Itoa (z : Z) : string := NilZero.string_of_int (Z.to_int z).

(** [time.ParseDuration] of ["<n>s"]: nanoseconds, refused beyond int64. *)
Definition ParseDuration_seconds (n : Z) : option Z :=
  if n * 1000000000 <=? 2 ^ 63 - 1 then Some (n * 1000000000) else None.

(** [(os.File).Close]: closes the handle; every call is counted (a call on a
    file already closed only returns an error). *)
Definition File_Close (h : nat) (fs : list File) : list File :=
  alter (λ f, {| fowner := fowner f; isOpen := false;
                 closeCalls := S (closeCalls f) |}) h fs.

End golang.

(** ** Package gpcconfig *)

Module gpcconfig.

Record ProcessConfig := {
  Name : string;
  StartPath : string;           (* the launchers read it as [Path] *)
  StartArgs : list string;
  StartDelayS : Z;
  MaxRestarts : Z;
  WaitForExitTimeoutS : Z;
  HideWindow : bool;
  StopPath : string;
  StopArgs : list string
}.

Record LoggingConfig := {
  LogsFolder : string;
  LogFileSizeMB : Z;
  LogDebugEnabled : bool
}.

Record ConfigData := {
  Logging : LoggingConfig;
  Tasks : list ProcessConfig
}.

(** The numeric fields are [uint32]. *)
Definition wf_config (c : ProcessConfig) : Prop :=
  golang.uint32 (StartDelayS c) ∧ golang.uint32 (MaxRestarts c) ∧
  golang.uint32 (WaitForExitTimeoutS c).

Definition wf_configData (d : ConfigData) : Prop :=
  Forall wf_config (Tasks d).

End gpcconfig.

(** ** Package gpclogging *)

Module gpclogging.
Import golang.

(** [GetLogFileForProcess]: [os.Create] of a file named after the executable
    and the clock; a new open file, or an error.  The handle is the position
    of the file in the table. *)
Definition GetLogFileForProcess (os : OS) (execName : string) (fs : list File)
    : option nat * list File :=
  if os_Create os execName
  then (Some (length fs),
        fs ++ [{| fowner := execName; isOpen := true; closeCalls := 0 |}])
  else (None, fs).

(** *** The logger's own files: configuration, rotation and purging

    The package variables [gConf] and [gLogger] are passed to the functions
    and returned by them; [gProgname] is an argument.  What the file system
    answers, and the order in which [sort.Sort] leaves the names, come from
    an environment, and a call of [logger.log] lists the requests it makes.
    The text of an entry is not built here: [genLogPrefix] and the
    package-level [log] rest on a buffer type that is not part of the
    sources at hand. *)

(** Range of an [int64], and of an [int] on the 64-bit target, with its
    wrap-around; complement of a [uint32]. *)
Definition int64 (z : Z) : Prop := - 2 ^ 63 ≤ z < 2 ^ 63.
Definition wrap64 (z : Z) : Z := (z + 2 ^ 63) `mod` 2 ^ 64 - 2 ^ 63.
Definition not32 (z : Z) : Z := Z.lxor z (2 ^ 32 - 1).

Definition maxInt64 : Z := Z.shiftr (2 ^ 64 - 1) 1.
Definition logCreatedTimeLen : nat := 24.
Definition logFilenameMinLen : nat := 29.

Definition logFlagLogDebug : Z := Z.shiftl 1 0.
Definition logFlagLogFuncName : Z := Z.shiftl 1 1.
Definition logFlagLogFilenameLineNum : Z := Z.shiftl 1 2.
Definition logFlagLogToConsole : Z := Z.shiftl 1 3.

Definition DefFilenamePrefix : string := "%P".

Definition isNil {A : Type} (p : option A) : bool :=
  match p with None => true | Some _ => false end.

(** [logger]: the open file is known by its name. *)
Record logger := {
  file : option string;
  level : Z;
  day : Z;
  size : Z
}.

Record config := {
  logPath : string;
  pathPrefix : string;
  logflags : Z;
  maxfiles : Z;
  curfiles : Z;
  nfilesToDel : Z;
  maxsize : Z
}.

Definition set_logPath (v : string) (conf : config) : config :=
  {| logPath := v; pathPrefix := pathPrefix conf; logflags := logflags conf;
     maxfiles := maxfiles conf; curfiles := curfiles conf;
     nfilesToDel := nfilesToDel conf; maxsize := maxsize conf |}.
Definition set_pathPrefix (v : string) (conf : config) : config :=
  {| logPath := logPath conf; pathPrefix := v; logflags := logflags conf;
     maxfiles := maxfiles conf; curfiles := curfiles conf;
     nfilesToDel := nfilesToDel conf; maxsize := maxsize conf |}.
Definition set_logflags (v : Z) (conf : config) : config :=
  {| logPath := logPath conf; pathPrefix := pathPrefix conf; logflags := v;
     maxfiles := maxfiles conf; curfiles := curfiles conf;
     nfilesToDel := nfilesToDel conf; maxsize := maxsize conf |}.
Definition set_maxfiles (v : Z) (conf : config) : config :=
  {| logPath := logPath conf; pathPrefix := pathPrefix conf; logflags := logflags conf;
     maxfiles := v; curfiles := curfiles conf;
     nfilesToDel := nfilesToDel conf; maxsize := maxsize conf |}.
Definition set_curfiles (v : Z) (conf : config) : config :=
  {| logPath := logPath conf; pathPrefix := pathPrefix conf; logflags := logflags conf;
     maxfiles := maxfiles conf; curfiles := v;
     nfilesToDel := nfilesToDel conf; maxsize := maxsize conf |}.
Definition set_nfilesToDel (v : Z) (conf : config) : config :=
  {| logPath := logPath conf; pathPrefix := pathPrefix conf; logflags := logflags conf;
     maxfiles := maxfiles conf; curfiles := curfiles conf;
     nfilesToDel := v; maxsize := maxsize conf |}.
Definition set_maxsize (v : Z) (conf : config) : config :=
  {| logPath := logPath conf; pathPrefix := pathPrefix conf; logflags := logflags conf;
     maxfiles := maxfiles conf; curfiles := curfiles conf;
     nfilesToDel := nfilesToDel conf; maxsize := v |}.

(** The value [gConf] is declared with. *)
Definition gConf : config :=
  {| logPath := "./log/"; pathPrefix := EmptyString;
     logflags := logFlagLogFilenameLineNum; maxfiles := 400; curfiles := 0;
     nfilesToDel := 10; maxsize := 100 * 1024 * 1024 |}.

(** What the file system and [sort.Sort] answer during one call. *)
Record Env := {
  env_MkdirAll : string → option GoError;
  env_Open : string → option GoError;
  env_Readdirnames : string → list string * option GoError;
  env_Sort : (string → string → bool) → list string → list string;
  env_RemoveAll : string → option GoError;
  env_OpenFile : string → option GoError;
  env_Write : string → list Byte.byte → Z
}.

(** [time.Time], as far as [Date] and [Clock] show it. *)
Record Time := {
  Year : Z; Month : Z; Day : Z; Hour : Z; Minute : Z; Second : Z
}.

(** [config.setFlags]. *)
Definition setFlags (flag : Z) (on : bool) (conf : config) : config :=
  if on
  then set_logflags (Z.lor (logflags conf) flag) conf
  else set_logflags (Z.land (logflags conf) (not32 flag)) conf.

Definition logDebug (conf : config) : bool :=
  negb (Z.land (logflags conf) logFlagLogDebug =? 0).
Definition logFuncName (conf : config) : bool :=
  negb (Z.land (logflags conf) logFlagLogFuncName =? 0).
Definition logFilenameLineNum (conf : config) : bool :=
  negb (Z.land (logflags conf) logFlagLogFilenameLineNum =? 0).
Definition logToConsole (conf : config) : bool :=
  negb (Z.land (logflags conf) logFlagLogToConsole =? 0).

Definition SetLogFunctionName (on : bool) (conf : config) : config :=
  setFlags logFlagLogFuncName on conf.
Definition SetLogFilenameLineNum (on : bool) (conf : config) : config :=
  setFlags logFlagLogFilenameLineNum on conf.
Definition SetLogToConsole (on : bool) (conf : config) : config :=
  setFlags logFlagLogToConsole on conf.

(** [config.setMaxSize], of a [uint32]. *)
Definition setMaxSize (maxsize : Z) (conf : config) : config :=
  if 0 <? maxsize
  then set_maxsize (wrap64 (wrap64 (maxsize * 1024) * 1024)) conf
  else set_maxsize (maxInt64 - 1024 * 1024 * 1024 * 1024 * 1024) conf.

(** [strings.Replace(s, old, new, -1)] for a non-empty [old]: the
    occurrences of [old] are replaced from the left, without overlap.
    [skip] counts the bytes of an occurrence still to be passed over. *)
Fixpoint Replace_from (skip : nat) (s old new : string) : string :=
  match s with
  | EmptyString => EmptyString
  | String c rest =>
      match skip with
      | S k => Replace_from k rest old new
      | O =>
          if String.prefix old s
          then new +:+ Replace_from (String.length old - 1) rest old new
          else String c (Replace_from 0 rest old new)
      end
  end.

Definition strings_Replace (s old new : string) : string := Replace_from 0 s old new.

(** [config.setFilenamePrefix]. *)
Definition setFilenamePrefix (gProgname filenamePrefix : string) (conf : config)
    : config :=
  let conf := set_pathPrefix (logPath conf) conf in
  if (0 <? String.length filenamePrefix)%nat
  then
    let filenamePrefix := strings_Replace filenamePrefix "%P" gProgname in
    set_pathPrefix (pathPrefix conf +:+ filenamePrefix +:+ ".") conf
  else conf.

(** The package's [init], [gProgname] being the base name of the program. *)
Definition init (gProgname : string) : config :=
  setFilenamePrefix gProgname DefFilenamePrefix gConf.

(** [getLogfilenames]: the names in the directory, with the error of
    opening or of reading it. *)
Definition getLogfilenames (env : Env) (dir : string) : list string * option GoError :=
  match env_Open env dir with
  | None => env_Readdirnames env dir
  | Some err => ([], Some err)
  end.

(** [SetFilenamePrefix]. *)
Definition SetFilenamePrefix (env : Env) (gProgname logfilenamePrefix : string)
    (conf : config) : option GoError * config :=
  let conf := setFilenamePrefix gProgname logfilenamePrefix conf in
  let '(files, err) := getLogfilenames env (logPath conf) in
  match err with
  | None => (None, set_curfiles (Z.of_nat (length files)) conf)
  | Some e => (Some e, conf)
  end.

(** [Init]. *)
Definition Init (env : Env) (gProgname logpath : string) (maxfiles nfilesToDel : Z)
    (maxsize : Z) (logDebug : bool) (conf : config) : option GoError * config :=
  match env_MkdirAll env logpath with
  | Some err => (Some err, conf)
  | None =>
      if (maxfiles <=? 0) || (100000 <? maxfiles)
      then (Some (OtherError
                    ("maxfiles must be greater than 0 and less than or equal to 100000: "
                     +:+ Itoa maxfiles)), conf)
      else if (nfilesToDel <=? 0) || (maxfiles <? nfilesToDel)
      then (Some (OtherError
                    ("nfilesToDel must be greater than 0 and less than or equal to maxfiles! toDel="
                     +:+ Itoa nfilesToDel +:+ " maxfiles=" +:+ Itoa maxfiles)), conf)
      else
        let conf := set_logPath (logpath +:+ "/") conf in
        let conf := setFlags logFlagLogDebug logDebug conf in
        let conf := set_maxfiles maxfiles conf in
        let conf := set_nfilesToDel nfilesToDel conf in
        let conf := setMaxSize maxsize conf in
        SetFilenamePrefix env gProgname DefFilenamePrefix conf
  end.

(** [byCreatedTime.Less] for [s1 = a[i]] and [s2 = a[j]]. *)
Definition byCreatedTime_Less (s1 s2 : string) : bool :=
  if (String.length s1 <? logFilenameMinLen)%nat then true
  else if (String.length s2 <? logFilenameMinLen)%nat then false
  else String.ltb
         (substring (String.length s1 - logCreatedTimeLen) logCreatedTimeLen s1)
         (substring (String.length s2 - logCreatedTimeLen) logCreatedTimeLen s2).

(** What a call of [logger.log] asks of the file system, oldest first. *)
Inductive LogEvent :=
| LvRemoveAll (name : string) (err : option GoError)
| LvOpenFile (name : string) (err : option GoError)
| LvClose (f : option string)
| LvWrite (f : option string) (data : list Byte.byte)
| LvErrlog (to : option string) (err : GoError) (originLog : list Byte.byte).

(** [logger.errlog]: the error, then the entry if there is one, go to the
    open file, or to standard error when there is none; the size of the
    logger does not count them.  The prefix that [genLogPrefix] puts before
    the error is left out. *)
Definition errlog (l : logger) (originLog : list Byte.byte) (err : GoError) : LogEvent :=
  LvErrlog (file l) err originLog.

(** How a part of a function ends: with a panic, with a return from the
    function, or by going on to what follows. *)
Inductive Flow (A : Type) : Type :=
| Panics
| Returns (a : A)
| GoesOn (a : A).
Arguments Panics {A}.
Arguments Returns {A} a.
Arguments GoesOn {A} a.

(** The body of the purge loop of [logger.log] for index [i]. *)
Definition removeOldest (env : Env) (l : logger) (files : list string)
    (st : option (config * list LogEvent)) (i : nat)
    : option (config * list LogEvent) :=
  match st with
  | None => None
  | Some (conf, evs) =>
      match files !! i with
      | None => None
      | Some f =>
          match env_RemoveAll env (logPath conf +:+ f) with
          | None =>
              Some (set_curfiles (wrap64 (curfiles conf - 1)) conf,
                    evs ++ [LvRemoveAll (logPath conf +:+ f) None])
          | Some err =>
              Some (conf,
                    evs ++ [LvRemoveAll (logPath conf +:+ f) (Some err); errlog l [] err])
          end
      end
  end.

(** The purge of [logger.log], done when the number of files has reached
    its limit. *)
Definition purge (env : Env) (l : logger) (data : list Byte.byte) (conf : config)
    : Flow (config * list LogEvent) :=
  if maxfiles conf <=? curfiles conf then
    let '(files, err) := getLogfilenames env (logPath conf) in
    match err with
    | Some e => Returns (conf, [errlog l data e])
    | None =>
        let conf := set_curfiles (Z.of_nat (length files)) conf in
        if maxfiles conf <=? curfiles conf then
          let files := env_Sort env byCreatedTime_Less files in
          let nfiles := wrap64 (wrap64 (curfiles conf - maxfiles conf) + nfilesToDel conf) in
          let nfiles := if curfiles conf <? nfiles then curfiles conf else nfiles in
          match foldl (removeOldest env l files) (Some (conf, []))
                  (seq 0 (Z.to_nat nfiles)) with
          | None => Panics
          | Some st => GoesOn st
          end
        else GoesOn (conf, [])
    end
  else GoesOn (conf, []).

(** [%02d]. *)
Definition pad2 (z : Z) : string :=
  if (0 <=? z) && (z <? 10) then "0" +:+ Itoa z else Itoa z.

(** The name of the file opened at time [t]. *)
Definition logFilename (conf : config) (t : Time) : string :=
  pathPrefix conf +:+ Itoa (Year t) +:+ pad2 (Month t) +:+ pad2 (Day t)
  +:+ pad2 (Hour t) +:+ pad2 (Minute t) +:+ pad2 (Second t) +:+ ".log".

(** The end of [logger.log]: the entry is written and counted. *)
Definition writeEntry (env : Env) (data : list Byte.byte) (conf : config) (l : logger)
    (evs : list LogEvent) : config * logger * list LogEvent :=
  let n := match file l with Some f => env_Write env f data | None => 0 end in
  (conf,
   {| file := file l; level := level l; day := day l; size := wrap64 (size l + n) |},
   evs ++ [LvWrite (file l) data]).

(** [logger.log]; [None] is a panic. *)
Definition logger_log (env : Env) (t : Time) (data : list Byte.byte)
    (conf : config) (l : logger) : option (config * logger * list LogEvent) :=
  if (maxsize conf <=? size l) || negb (day l =? Day t) || isNil (file l)
  then
    match purge env l data conf with
    | Panics => None
    | Returns (conf, evs) => Some (conf, l, evs)
    | GoesOn (conf, evs) =>
        let filename := logFilename conf t in
        match env_OpenFile env filename with
        | Some err =>
            Some (conf, l, evs ++ [LvOpenFile filename (Some err); errlog l data err])
        | None =>
            let conf := set_curfiles (wrap64 (curfiles conf + 1)) conf in
            let evs := evs ++ [LvOpenFile filename None; LvClose (file l)] in
            let l := {| file := Some filename; level := level l; day := Day t;
                        size := 0 |} in
            Some (writeEntry env data conf l evs)
        end
    end
  else Some (writeEntry env data conf l []).

End gpclogging.

(** ** Package gpcprocessmgr: runtime records *)

Module gpcprocessmgr.
Import golang gpcconfig.

Record ProcStatus := {
  pid : Z;
  active : bool;
  error : bool;
  timeout : bool;
  done : bool;
  restartCount : Z
}.

(** [GPCProcRuntimeData]: [procCmd] and [procLog] are pointers, nil is
    [None]; [procLog] is a handle into the table of files. *)
Record GPCProcRuntimeData := {
  procConfig : ProcessConfig;
  procCmd : option Cmd;
  procLog : option nat;
  procStatus : ProcStatus
}.

Definition NewProcRuntimeData (configData : ProcessConfig) : GPCProcRuntimeData :=
  {| procCmd := None;
     procConfig := configData;
     procLog := None;
     procStatus := {| pid := 0; active := false; error := false;
                      timeout := false; done := false; restartCount := 0 |} |}.

(** Field assignments. *)
Definition set_pid (v : Z) (s : ProcStatus) : ProcStatus :=
  {| pid := v; active := active s; error := error s; timeout := timeout s;
     done := done s; restartCount := restartCount s |}.
Definition set_active (v : bool) (s : ProcStatus) : ProcStatus :=
  {| pid := pid s; active := v; error := error s; timeout := timeout s;
     done := done s; restartCount := restartCount s |}.
Definition set_error (v : bool) (s : ProcStatus) : ProcStatus :=
  {| pid := pid s; active := active s; error := v; timeout := timeout s;
     done := done s; restartCount := restartCount s |}.
Definition set_timeout (v : bool) (s : ProcStatus) : ProcStatus :=
  {| pid := pid s; active := active s; error := error s; timeout := v;
     done := done s; restartCount := restartCount s |}.
Definition set_done (v : bool) (s : ProcStatus) : ProcStatus :=
  {| pid := pid s; active := active s; error := error s; timeout := timeout s;
     done := v; restartCount := restartCount s |}.
Definition set_restartCount (v : Z) (s : ProcStatus) : ProcStatus :=
  {| pid := pid s; active := active s; error := error s; timeout := timeout s;
     done := done s; restartCount := v |}.

Definition with_status (f : ProcStatus → ProcStatus) (rd : GPCProcRuntimeData)
    : GPCProcRuntimeData :=
  {| procConfig := procConfig rd; procCmd := procCmd rd; procLog := procLog rd;
     procStatus := f (procStatus rd) |}.
Definition set_procCmd (c : option Cmd) (rd : GPCProcRuntimeData)
    : GPCProcRuntimeData :=
  {| procConfig := procConfig rd; procCmd := c; procLog := procLog rd;
     procStatus := procStatus rd |}.
Definition set_procLog (l : option nat) (rd : GPCProcRuntimeData)
    : GPCProcRuntimeData :=
  {| procConfig := procConfig rd; procCmd := procCmd rd; procLog := l;
     procStatus := procStatus rd |}.

(** ** The world: package variables, files, goroutines, and what was asked of
    the operating system *)

Inductive Goroutine :=
| GoMonitor                               (* monitorProcesses, at its loop test *)
| GoLaunch (procName : string)            (* start delay; launchProcess *)
| GoLaunchAndWait (procName : string)     (* start delay; launchProcessAndWait *)
| GoRestart (procName : string)           (* restartCount++; launchProcess *)
| GoMonitorScan (todo : list string)      (* monitorProcesses, inside a scan *)
| GoShutdown (todo : list string).        (* ShutdownAll, inside its loop *)

(** Requests made to the operating system and the exit warning of the
    monitor, newest first in [trace]. *)
Inductive Event :=
| EvLaunch (procName : string) (path : string) (argv : list string) (started : option Z)
| EvWarnExited (procName : string) (pid : Z)
| EvCreate (execName : string) (handle : option nat)
| EvClose (handle : nat)
| EvRelease (pid : Z) (res : option GoError)
| EvSignal (pid : Z) (sig : Signal) (res : option GoError)
| EvRun (path : string) (argv : list string) (err : option GoError).

Record World := {
  gProcRuntimeData : gmap string GPCProcRuntimeData;
  gStopMon : bool;
  files : list File;
  goroutines : list Goroutine;
  trace : list Event;
  panicked : bool
}.

Definition set_registry (m : gmap string GPCProcRuntimeData) (w : World) : World :=
  {| gProcRuntimeData := m; gStopMon := gStopMon w; files := files w;
     goroutines := goroutines w; trace := trace w; panicked := panicked w |}.
Definition set_gStopMon (b : bool) (w : World) : World :=
  {| gProcRuntimeData := gProcRuntimeData w; gStopMon := b; files := files w;
     goroutines := goroutines w; trace := trace w; panicked := panicked w |}.
Definition set_files (fs : list File) (w : World) : World :=
  {| gProcRuntimeData := gProcRuntimeData w; gStopMon := gStopMon w; files := fs;
     goroutines := goroutines w; trace := trace w; panicked := panicked w |}.
Definition set_goroutines (gs : list Goroutine) (w : World) : World :=
  {| gProcRuntimeData := gProcRuntimeData w; gStopMon := gStopMon w; files := files w;
     goroutines := gs; trace := trace w; panicked := panicked w |}.
Definition emit (e : Event) (w : World) : World :=
  {| gProcRuntimeData := gProcRuntimeData w; gStopMon := gStopMon w; files := files w;
     goroutines := goroutines w; trace := e :: trace w; panicked := panicked w |}.

(** A nil pointer dereference: the runtime panics and the program is gone. *)
Definition panic (w : World) : World :=
  {| gProcRuntimeData := gProcRuntimeData w; gStopMon := gStopMon w; files := files w;
     goroutines := goroutines w; trace := trace w; panicked := true |}.

(** [go func() { ... }()]. *)
Definition spawn (g : Goroutine) (w : World) : World :=
  set_goroutines (goroutines w ++ [g]) w.

(** Assignment through [gProcRuntimeData[procName]]. *)
Definition store (procName : string) (rd : GPCProcRuntimeData) (w : World) : World :=
  set_registry (<[procName := rd]> (gProcRuntimeData w)) w.

(** ** Package gpcprocessmgr: the engine *)

(** [p.Release()] on the [Process] field of a command; the field is nil when
    the command never started. The answer of the system is dropped. *)
Definition Process_Release (os : OS) (p : option osProcess) (w : World) : World :=
  match p with
  | None => panic w
  | Some p => emit (EvRelease (Pid p) (os_Release os (Pid p))) w
  end.

(** [if procLog != nil { procLog.Close() }]. *)
Definition closeLog (procLog : option nat) (w : World) : World :=
  match procLog with
  | Some h => emit (EvClose h) (set_files (File_Close h (files w)) w)
  | None => w
  end.

(** [checkProcessRunning]: the process counts as running when
    [syscall.OpenProcess] gives a handle for [uint32(pid)]. *)
Definition checkProcessRunning (os : OS) (pid : Z) : option GoError :=
  if os_OpenProcess os (wrap32 pid) then None
  else Some (OtherError "OpenProcess").

(** [doProcessSettings]: no stdin; stdout and stderr go to a fresh log file,
    which is kept in [procLog] for closing later, unless the file cannot be
    created; the window is hidden or not as configured. *)
Definition doProcessSettings (os : OS) (proc : GPCProcRuntimeData) (w : World)
    : GPCProcRuntimeData * World :=
  match procCmd proc with
  | None => (proc, panic w)
  | Some cmd =>
      let cmd := set_streams None (Stdout cmd) (Stderr cmd) cmd in
      let '(logOut, fs) :=
        gpclogging.GetLogFileForProcess os (Name (procConfig proc)) (files w) in
      let w := emit (EvCreate (Name (procConfig proc)) logOut) (set_files fs w) in
      let '(cmd, proc) :=
        match logOut with
        | None => (cmd, proc)
        | Some outWriter =>
            (set_streams (Stdin cmd) (Some outWriter) (Some outWriter) cmd,
             set_procLog (Some outWriter) proc)
        end in
      let cmd :=
        if HideWindow (procConfig proc)
        then set_SysProcAttr (Some true) cmd
        else set_SysProcAttr (Some false) cmd in
      (set_procCmd (Some cmd) proc, w)
  end.

(** [launchProcess]: the command is made from the path of the task alone,
    started, and not waited for.  The error flag is set when the start
    fails, pid and [active] when it works; [Release] is called on the
    [Process] field in either case. *)
Definition launchProcess (os : OS) (procName : string) (w : World) : World :=
  match gProcRuntimeData w !! procName with
  | None => panic w
  | Some rd =>
      let rd := set_procCmd (Some (exec_Command os (StartPath (procConfig rd)) [])) rd in
      let '(rd, w) := doProcessSettings os rd w in
      match procCmd rd with
      | None => panic (store procName rd w)
      | Some cmd =>
          let '(cmd, err) := Cmd_Start os cmd in
          let rd := set_procCmd (Some cmd) rd in
          let w := emit (EvLaunch procName (Path cmd) (Args cmd) (Pid <$> Process cmd)) w in
          let '(rd, w) :=
            match err with
            | Some _ => (with_status (set_error true) rd, w)
            | None =>
                match Process cmd with
                | None => (rd, panic w)
                | Some p =>
                    (with_status (set_active true)
                       (with_status (set_pid (Pid p)) rd), w)
                end
            end in
          let w := store procName rd w in
          if panicked w then w else Process_Release os (Process cmd) w
      end
  end.

(** [launchProcessAndWait]: the command is made from the path of the task
    alone, with a context that ends after the wait timeout, and run to its
    end.  [active] is set whatever [Run] returns; an [*exec.ExitError] sets
    [timeout] and [done], another error sets the error flag, no error sets
    [done]. *)
Definition launchProcessAndWait (os : OS) (procName : string) (w : World) : World :=
  match gProcRuntimeData w !! procName with
  | None => panic w
  | Some rd =>
      match ParseDuration_seconds (WaitForExitTimeoutS (procConfig rd)) with
      | None => store procName (with_status (set_error true) rd) w
      | Some timeoutDur =>
          let rd :=
            set_procCmd
              (Some (exec_CommandContext os timeoutDur (StartPath (procConfig rd)) []))
              rd in
          let '(rd, w) := doProcessSettings os rd w in
          match procCmd rd with
          | None => panic (store procName rd w)
          | Some cmd =>
              let '(cmd, err) := Cmd_Run os cmd in
              let rd := set_procCmd (Some cmd) rd in
              let w := emit (EvLaunch procName (Path cmd) (Args cmd) (Pid <$> Process cmd)) w in
              let rd := with_status (set_active true) rd in
              let rd :=
                match err with
                | Some (ExitError _) =>
                    with_status (set_done true) (with_status (set_timeout true) rd)
                | Some _ => with_status (set_error true) rd
                | None => with_status (set_done true) rd
                end in
              store procName rd w
          end
      end
  end.

(** The goroutine started by the monitor for a restart. *)
Definition restartProcess (os : OS) (procName : string) (w : World) : World :=
  match gProcRuntimeData w !! procName with
  | None => panic w
  | Some rd =>
      let rd :=
        with_status (λ s, set_restartCount (wrap32 (restartCount s + 1)) s) rd in
      launchProcess os procName (store procName rd w)
  end.

(** The body of the inner loop of [monitorProcesses], for one entry. *)
Definition monitorVisit (os : OS) (procName : string) (w : World) : World :=
  match gProcRuntimeData w !! procName with
  | None => w
  | Some runtimeData =>
      if (WaitForExitTimeoutS (procConfig runtimeData) <? 1)
         && bool_decide (procCmd runtimeData ≠ None)
         && active (procStatus runtimeData)
      then
        match checkProcessRunning os (pid (procStatus runtimeData)) with
        | None => w
        | Some _ =>
            let w := emit (EvWarnExited procName (pid (procStatus runtimeData))) w in
            let runtimeData := with_status (set_active false) runtimeData in
            let w := closeLog (procLog runtimeData) w in
            if 0 <? MaxRestarts (procConfig runtimeData) then
              if restartCount (procStatus runtimeData)
                   <? MaxRestarts (procConfig runtimeData)
              then spawn (GoRestart procName) (store procName runtimeData w)
              else store procName (with_status (set_error true) runtimeData) w
            else store procName runtimeData w
        end
      else w
  end.

(** The names of the registry, in the order in which a [range] visits them
    (Go leaves the order open; no entry depends on another one). *)
Definition rangeKeys (w : World) : list string :=
  (map_to_list (gProcRuntimeData w)).*1.

(** One turn of the outer loop of [monitorProcesses] when nothing else runs
    in between: leave when the stop flag is up, else scan every entry and
    come back after the pause. *)
Definition monitorProcesses (os : OS) (w : World) : World :=
  if gStopMon w then w
  else spawn GoMonitor
         (foldl (λ w procName, monitorVisit os procName w) w (rangeKeys w)).

(** [killProcess]: [Release], SIGTERM and SIGKILL on the process of the
    command, their answers dropped, then a run of
    [taskkill /T /F /PID <pid>], whose error is returned. *)
Definition killProcess (os : OS) (proc : option Cmd) (w : World)
    : option GoError * World :=
  match proc with
  | None => (None, panic w)
  | Some c =>
      let w := Process_Release os (Process c) w in
      match Process c with
      | None => (None, w)
      | Some p =>
          let w := emit (EvSignal (Pid p) SIGTERM (os_Signal os (Pid p) SIGTERM)) w in
          let w := emit (EvSignal (Pid p) SIGKILL (os_Signal os (Pid p) SIGKILL)) w in
          let kill := exec_Command os "taskkill" ["/T"; "/F"; "/PID"; Itoa (Pid p)] in
          let '(kill, err) := Cmd_Run os kill in
          (err, emit (EvRun (Path kill) (Args kill) err) w)
      end
  end.

(** The body of the loop of [ShutdownAll], for one entry. *)
Definition shutdownVisit (os : OS) (procName : string) (w : World) : World :=
  match gProcRuntimeData w !! procName with
  | None => w
  | Some runtimeData =>
      let w :=
        match checkProcessRunning os (pid (procStatus runtimeData)) with
        | Some _ => w
        | None => snd (killProcess os (procCmd runtimeData) w)
        end in
      if panicked w then w
      else
        let w := store procName (with_status (set_active false) runtimeData) w in
        closeLog (procLog runtimeData) w
  end.

(** [ShutdownAll] when nothing else runs in between: the stop flag is
    raised, then every entry is visited. *)
Definition ShutdownAll (os : OS) (w : World) : World :=
  let w := set_gStopMon true w in
  foldl (λ w procName, if panicked w then w else shutdownVisit os procName w)
    w (rangeKeys w).

(** [StartProcessesFromConfig]: the registry is rebuilt from the tasks (a
    later task of the same name replaces an earlier one), the monitor is
    started, and every entry gets the goroutine of its launcher. *)
Definition StartProcessesFromConfig (configData : ConfigData) : World :=
  let reg :=
    foldl (λ m c, <[Name c := NewProcRuntimeData c]> m) ∅ (Tasks configData) in
  {| gProcRuntimeData := reg;
     gStopMon := false;
     files := [];
     goroutines :=
       GoMonitor ::
       ((λ kv : string * GPCProcRuntimeData,
           if 0 <? WaitForExitTimeoutS (procConfig kv.2)
           then GoLaunchAndWait kv.1 else GoLaunch kv.1)
          <$> map_to_list reg);
     trace := [];
     panicked := false |}.

(** ** Schedules *)

Inductive Step :=
| Resume (i : nat)          (* the i-th goroutine of the pool runs *)
| ShutdownRequest.          (* the signal handler calls ShutdownAll *)

(** [gRuntimeDatatMux] is held: a call of [ShutdownAll] is inside its loop. *)
Definition isShutdown (g : Goroutine) : bool :=
  match g with GoShutdown _ => true | _ => false end.

Definition locked (gs : list Goroutine) : bool := existsb isShutdown gs.

(** What the [i]-th goroutine of the pool does when it is resumed.  The
    monitor leaves when it finds the stop flag up, else it begins a scan of
    the entries the registry has; a scan visits its next entry, and goes
    back to the test of the flag when none is left.  A launcher runs its
    body, unless it has to wait for the lock: [launchProcessAndWait] when a
    shutdown is under way, [launchProcess] (also at a restart) when a
    shutdown is under way that was in the pool before it, the pool being in
    the order of arrival.  (At a restart the count is incremented with the
    body; between the increment and the body no other goroutine reads the
    count, the record being inactive.)  A shutdown visits its next entry
    and stays where it is in the pool, and leaves when no entry is left. *)
Definition runGoroutine (os : OS) (i : nat) (g : Goroutine) (w : World) : World :=
  let rest := set_goroutines (delete i (goroutines w)) w in
  match g with
  | GoMonitor =>
      if gStopMon w then rest else spawn (GoMonitorScan (rangeKeys w)) rest
  | GoMonitorScan [] => spawn GoMonitor rest
  | GoMonitorScan (procName :: todo) =>
      spawn (GoMonitorScan todo) (monitorVisit os procName rest)
  | GoLaunch procName =>
      if locked (take i (goroutines w)) then w else launchProcess os procName rest
  | GoRestart procName =>
      if locked (take i (goroutines w)) then w else restartProcess os procName rest
  | GoLaunchAndWait procName =>
      if locked (goroutines w) then w else launchProcessAndWait os procName rest
  | GoShutdown [] => rest
  | GoShutdown (procName :: todo) =>
      let w := shutdownVisit os procName w in
      set_goroutines (<[i := GoShutdown todo]> (goroutines w)) w
  end.

(** One step of the program: a goroutine of the pool is resumed, or
    [ShutdownAll] is called: it raises the stop flag and enters its loop
    over the entries the registry has, unless another call is inside its
    loop, for which it has to wait (the schedule has the request again when
    the lock is free).  Nothing happens after a panic. *)
Definition step (os : OS) (st : Step) (w : World) : World :=
  if panicked w then w
  else
    match st with
    | Resume i =>
        match goroutines w !! i with
        | None => w
        | Some g => runGoroutine os i g w
        end
    | ShutdownRequest =>
        let w := set_gStopMon true w in
        if locked (goroutines w) then w
        else spawn (GoShutdown (rangeKeys w)) w
    end.

(** A run: the steps of a schedule, each with the answers of the system. *)
Definition run (sched : list (OS * Step)) (w : World) : World :=
  foldl (λ w a, step a.1 a.2 w) w sched.

End gpcprocessmgr.

Import golang gpcconfig gpcprocessmgr.

(** ** Observations on a run *)

Fixpoint countEv (p : Event → bool) (tr : list Event) : nat :=
  match tr with
  | [] => 0
  | e :: tr => ((if p e then 1 else 0) + countEv p tr)%nat
  end.

Definition isLaunchOf (n : string) (e : Event) : bool :=
  match e with
  | EvLaunch m _ _ _ => bool_decide (m = n)
  | _ => false
  end.

Definition isExitOf (n : string) (e : Event) : bool :=
  match e with
  | EvWarnExited m _ => bool_decide (m = n)
  | _ => false
  end.

(** Launch attempts of a process, and exits of it that the monitor detected. *)
Definition launches (n : string) (w : World) : nat := countEv (isLaunchOf n) (trace w).
Definition exits (n : string) (w : World) : nat := countEv (isExitOf n) (trace w).

(** Kill requests: signals and runs of taskkill. *)
Definition isKillRequest (e : Event) : bool :=
  match e with
  | EvSignal _ _ _ => true
  | EvRun _ _ _ => true
  | _ => false
  end.

(** ** Scenarios *)

(** The tasks written by [WriteDefaultConfigFile]. *)
Definition p1 : ProcessConfig :=
  {| Name := "Notepad"; StartPath := "notepad.exe";
     StartArgs := ["notepad.exe"; "myfile.txt"]; StartDelayS := 0;
     MaxRestarts := 3; WaitForExitTimeoutS := 0; HideWindow := false;
     StopPath := EmptyString; StopArgs := [EmptyString; EmptyString] |}.

Definition p2 : ProcessConfig :=
  {| Name := "Paint"; StartPath := "mspaint.exe";
     StartArgs := ["mspaint.exe"; EmptyString]; StartDelayS := 5;
     MaxRestarts := 0; WaitForExitTimeoutS := 0; HideWindow := true;
     StopPath := EmptyString; StopArgs := [EmptyString; EmptyString] |}.

Definition tDefaultConf : ConfigData :=
  {| Logging := {| LogsFolder := "./logs"; LogFileSizeMB := 20;
                   LogDebugEnabled := true |};
     Tasks := [p1; p2] |}.

(** A process that exits whenever it is launched, restarted at most twice,
    and a process that is run with a timeout of two seconds. *)
Definition taskA : ProcessConfig :=
  {| Name := "A"; StartPath := "a.exe"; StartArgs := ["a.exe"; "-x"];
     StartDelayS := 0; MaxRestarts := 2; WaitForExitTimeoutS := 0;
     HideWindow := false; StopPath := EmptyString; StopArgs := [] |}.

Definition taskB : ProcessConfig :=
  {| Name := "B"; StartPath := "b.exe"; StartArgs := ["b.exe"; "--once"];
     StartDelayS := 0; MaxRestarts := 0; WaitForExitTimeoutS := 2;
     HideWindow := true; StopPath := EmptyString; StopArgs := [] |}.

Definition confOf (tasks : list ProcessConfig) : ConfigData :=
  {| Logging := {| LogsFolder := "./logs"; LogFileSizeMB := 20;
                   LogDebugEnabled := false |};
     Tasks := tasks |}.

(** An operating system in which log files can be created, an executable
    is found under its name (in the working directory), a start gives
    [newpid] (or fails), every probed process is [alive] or not, a process
    that is waited for ends as [ending] says, and signals are refused (as
    Windows does after [Release]). *)
Definition osWith (newpid : option Z) (alive : bool) (ending : Ending) : OS :=
  {| os_Create := λ _, true;
     os_LookPath := λ name, (name, false);
     os_StartProcess := λ _ _, newpid;
     os_ending := λ _, ending;
     os_OpenProcess := λ _, alive;
     os_Release := λ _, None;
     os_Signal := λ _ _, Some (OtherError "os: process already released") |}.

(** ** Invariants of a run *)

#[global] Instance Goroutine_eq_dec : EqDecision Goroutine.
Proof. solve_decision. Defined.

(** Occurrences of a goroutine in the pool. *)
Fixpoint cntGo (g : Goroutine) (gs : list Goroutine) : nat :=
  match gs with
  | [] => 0
  | x :: gs => ((if decide (x = g) then 1 else 0) + cntGo g gs)%nat
  end.

(** Goroutines of the pool that are about to launch the process [n]; a
    launcher is in the pool until its body has run. *)
Definition pendingFor (n : string) (gs : list Goroutine) : nat :=
  (cntGo (GoLaunch n) gs + cntGo (GoLaunchAndWait n) gs + cntGo (GoRestart n) gs)%nat.

(** The log sink of a record, if it has one, is closed. *)
Definition sinkClosed (rd : GPCProcRuntimeData) (w : World) : Prop :=
  ∀ h, procLog rd = Some h → ∃ f, files w !! h = Some f ∧ isOpen f = false.

(** The sinks of process [n] that are open. *)
Definition openSinks (n : string) (w : World) : list File :=
  filter (λ f, fowner f = n ∧ isOpen f = true) (files w).

(** What holds of the entry [n ↦ rd] of the registry throughout a run. *)
Record RecInv (n : string) (rd : GPCProcRuntimeData) (w : World) : Prop := {
  inv_name : Name (procConfig rd) = n;
  inv_wf : wf_config (procConfig rd);
  inv_rc : 0 ≤ restartCount (procStatus rd) ≤ MaxRestarts (procConfig rd);
  inv_pend : (pendingFor n (goroutines w) ≤ 1)%nat;
  inv_idle :
    (1 ≤ pendingFor n (goroutines w))%nat →
    active (procStatus rd) = false ∧ error (procStatus rd) = false ∧
    sinkClosed rd w;
  inv_init :
    (1 ≤ cntGo (GoLaunch n) (goroutines w))%nat →
    WaitForExitTimeoutS (procConfig rd) < 1 ∧ launches n w = 0%nat ∧
    pid (procStatus rd) = 0;
  inv_restart :
    (1 ≤ cntGo (GoRestart n) (goroutines w))%nat →
    WaitForExitTimeoutS (procConfig rd) < 1 ∧
    restartCount (procStatus rd) < MaxRestarts (procConfig rd);
  inv_wait :
    (1 ≤ cntGo (GoLaunchAndWait n) (goroutines w))%nat →
    1 ≤ WaitForExitTimeoutS (procConfig rd);
  inv_pid :
    WaitForExitTimeoutS (procConfig rd) < 1 →
    active (procStatus rd) = true →
    error (procStatus rd) = false ∧
    ∃ cmd p, procCmd rd = Some cmd ∧ Process cmd = Some p ∧
             pid (procStatus rd) = Pid p;
  inv_launches :
    WaitForExitTimeoutS (procConfig rd) < 1 →
    Z.of_nat (launches n w) + Z.of_nat (cntGo (GoLaunch n) (goroutines w))
    = restartCount (procStatus rd) + 1;
  inv_exits :
    WaitForExitTimeoutS (procConfig rd) < 1 →
    (exits n w + (if active (procStatus rd) then 1 else 0) ≤ launches n w)%nat;
  inv_budget :
    WaitForExitTimeoutS (procConfig rd) < 1 →
    0 < MaxRestarts (procConfig rd) →
    Z.of_nat (exits n w) = MaxRestarts (procConfig rd) + 1 →
    error (procStatus rd) = true;
  inv_waitmode :
    1 ≤ WaitForExitTimeoutS (procConfig rd) →
    pid (procStatus rd) = 0 ∧ restartCount (procStatus rd) = 0;
  inv_log :
    ∀ h, procLog rd = Some h → ∃ f, files w !! h = Some f ∧ fowner f = n
}.

(** Every open file is the current sink of the record of its owner. *)
Definition FilesInv (w : World) : Prop :=
  ∀ h f, files w !! h = Some f → isOpen f = true →
         ∃ rd, gProcRuntimeData w !! fowner f = Some rd ∧ procLog rd = Some h.

Definition Inv (w : World) : Prop :=
  (∀ n rd, gProcRuntimeData w !! n = Some rd → RecInv n rd w) ∧ FilesInv w.

(** How a launch changes the sink of a record: a new open file becomes the
    sink when the log file could be created, nothing changes otherwise. *)
Definition LogChange (created : bool) (rd rd' : GPCProcRuntimeData)
    (fs fs' : list File) : Prop :=
  if created
  then fs' = fs ++ [{| fowner := Name (procConfig rd); isOpen := true;
                       closeCalls := 0 |}] ∧
       procLog rd' = Some (length fs)
  else fs' = fs ∧ procLog rd' = procLog rd.

(** How a step on the record of [n] changes the files: nothing; or a new
    open sink replaces a closed one; or the sink is closed. *)
Definition FileStep (n : string) (rd rd' : GPCProcRuntimeData) (w w' : World) : Prop :=
  (files w' = files w ∧ procLog rd' = procLog rd) ∨
  (files w' = files w ++ [{| fowner := n; isOpen := true; closeCalls := 0 |}] ∧
   procLog rd' = Some (length (files w)) ∧ sinkClosed rd w) ∨
  (∃ h, procLog rd = Some h ∧ procLog rd' = Some h ∧
        files w' = File_Close h (files w)).

(** Files stay where they are, keep their owner, and stay closed once closed. *)
Definition FilesMono (w w' : World) : Prop :=
  ∀ h f, files w !! h = Some f →
         ∃ f', files w' !! h = Some f' ∧ fowner f' = fowner f ∧
               (isOpen f = false → isOpen f' = false).

(** The goroutines, launches and detected exits of [m] are the same. *)
Definition SameFor (m : string) (w w' : World) : Prop :=
  cntGo (GoLaunch m) (goroutines w') = cntGo (GoLaunch m) (goroutines w) ∧
  cntGo (GoLaunchAndWait m) (goroutines w') = cntGo (GoLaunchAndWait m) (goroutines w) ∧
  cntGo (GoRestart m) (goroutines w') = cntGo (GoRestart m) (goroutines w) ∧
  launches m w' = launches m w ∧ exits m w' = exits m w.

(** ** What the functions of the engine leave behind *)

(** The path in the command that the launchers make for the path of a
    task, and the pid of the process that [Start] creates for it. *)
Definition pathOf (os : OS) (path : string) : string :=
  Path (exec_Command os path []).
Definition startOf (os : OS) (path : string) : option Z :=
  Pid <$> Process (Cmd_Start os (exec_Command os path [])).1.

(** The status that [launchProcessAndWait] leaves, by what [Run] met. *)
Definition statusAfterRun (os : OS) (path : string) (s : ProcStatus) : ProcStatus :=
  match startOf os path with
  | None => set_error true (set_active true s)
  | Some newpid =>
      match os_ending os newpid with
      | ExitsByItself code =>
          if code =? 0 then set_done true (set_active true s)
          else set_done true (set_timeout true (set_active true s))
      | KilledAtDeadline => set_done true (set_timeout true (set_active true s))
      end
  end.

(** The record and the goroutine that the monitor leaves when it finds the
    process of [rd] gone. *)
Definition afterExit (rd : GPCProcRuntimeData) : GPCProcRuntimeData :=
  if 0 <? MaxRestarts (procConfig rd) then
    if restartCount (procStatus rd) <? MaxRestarts (procConfig rd)
    then with_status (set_active false) rd
    else with_status (set_error true) (with_status (set_active false) rd)
  else with_status (set_active false) rd.

Definition restartAfterExit (n : string) (rd : GPCProcRuntimeData) : list Goroutine :=
  if (0 <? MaxRestarts (procConfig rd))
     && (restartCount (procStatus rd) <? MaxRestarts (procConfig rd))
  then [GoRestart n] else [].

(** What [Close] leaves in the trace. *)
Definition closeEvents (l : option nat) : list Event :=
  match l with Some h => [EvClose h] | None => [] end.
Definition closeFiles (l : option nat) (fs : list File) : list File :=
  match l with Some h => File_Close h fs | None => fs end.

(** The requests of [killProcess] on a started process, newest first. *)
Definition killEvents (os : OS) (p : Z) : list Event :=
  let kill := exec_Command os "taskkill" ["/T"; "/F"; "/PID"; Itoa p] in
  [EvRun (Path kill) (Args kill) (Cmd_Run os kill).2;
   EvSignal p SIGKILL (os_Signal os p SIGKILL);
   EvSignal p SIGTERM (os_Signal os p SIGTERM);
   EvRelease p (os_Release os p)].

(** The world after [ShutdownAll] has dealt with the entry [n ↦ rd]. *)
Definition afterShutdownVisit (n : string) (rd : GPCProcRuntimeData)
    (ev : list Event) (w : World) : World :=
  {| gProcRuntimeData := <[n := with_status (set_active false) rd]> (gProcRuntimeData w);
     gStopMon := gStopMon w;
     files := closeFiles (procLog rd) (files w);
     goroutines := goroutines w;
     trace := closeEvents (procLog rd) ++ ev ++ trace w;
     panicked := false |}.

(** The goroutine that start-up creates for an entry of the registry. *)
Definition launcherOf (kv : string * GPCProcRuntimeData) : Goroutine :=
  if 0 <? WaitForExitTimeoutS (procConfig kv.2)
  then GoLaunchAndWait kv.1 else GoLaunch kv.1.

(** [w'] comes after [w]: the trace has only grown, and every entry of the
    registry is still there with the same configuration and a restart count
    that is not smaller. *)
Definition Extends (w w' : World) : Prop :=
  (∃ ev, trace w' = ev ++ trace w) ∧
  ∀ n rd, gProcRuntimeData w !! n = Some rd →
          ∃ rd', gProcRuntimeData w' !! n = Some rd' ∧
                 procConfig rd' = procConfig rd ∧
                 restartCount (procStatus rd) ≤ restartCount (procStatus rd').
(** A run in which process B is run until its deadline and process A exits
    after every launch until its restarts are used up: the launch, then
    three times a scan of the monitor that finds it gone, with a restart
    after the first two.  A scan is the test of the stop flag, the visits of
    A and of B, and the return to the test; the restart that the visit of A
    starts comes into the pool before the scan goes on. *)
Definition gone : OS := osWith None false (ExitsByItself 0).
Definition starts (newpid : Z) : OS := osWith (Some newpid) true (ExitsByItself 0).

Definition scanWithRestart : list (OS * Step) :=
  [(gone, Resume 0%nat); (gone, Resume 0%nat); (gone, Resume 1%nat);
   (gone, Resume 1%nat)].

Definition scanWithoutRestart : list (OS * Step) :=
  [(gone, Resume 0%nat); (gone, Resume 0%nat); (gone, Resume 0%nat);
   (gone, Resume 0%nat)].

Definition schedA_first_exit : list (OS * Step) :=
  [(osWith (Some 7) true KilledAtDeadline, Resume 2%nat);
   (starts 100, Resume 1%nat)] ++ scanWithRestart.

Definition schedA_exhausted : list (OS * Step) :=
  schedA_first_exit ++
  [(starts 101, Resume 0%nat)] ++ scanWithRestart ++
  [(starts 102, Resume 0%nat)] ++ scanWithoutRestart.
(** The record of [n], if there is one, is inactive and its sink is closed. *)
Definition settled (n : string) (w : World) : Prop :=
  ∀ rd, gProcRuntimeData w !! n = Some rd →
        active (procStatus rd) = false ∧ sinkClosed rd w.
(** ** Statements of the design document that the engine does not meet as
    they are worded *)

(** An active record holds the pid of its launched process, whatever the
    kind of launch. *)
Definition active_has_pid_as_worded : Prop :=
  ∀ (configData : ConfigData) (sched : list (OS * Step)) (n : string)
    (rd : GPCProcRuntimeData),
    wf_configData configData →
    gProcRuntimeData (run sched (StartProcessesFromConfig configData)) !! n = Some rd →
    active (procStatus rd) = true →
    ∃ cmd p, procCmd rd = Some cmd ∧ Process cmd = Some p ∧
             pid (procStatus rd) = Pid p.

(** A process has at most one open sink, and no sink receives more than one
    [Close]. *)
Definition sinks_closed_once_as_worded : Prop :=
  ∀ (configData : ConfigData) (sched : list (OS * Step)) (n : string)
    (h : nat) (f : File),
    wf_configData configData →
    let w := run sched (StartProcessesFromConfig configData) in
    (length (openSinks n w) ≤ 1)%nat ∧
    (files w !! h = Some f → (closeCalls f ≤ 1)%nat).

(** A second [ShutdownAll] makes no kill request, all records being
    inactive after the first. *)
Definition shutdown_twice_as_worded : Prop :=
  ∀ (configData : ConfigData) (sched : list (OS * Step)) (os1 os2 : OS),
    wf_configData configData →
    let w := run sched (StartProcessesFromConfig configData) in
    let w1 := ShutdownAll os1 w in
    panicked w = false → panicked w1 = false →
    (∀ n rd, gProcRuntimeData w1 !! n = Some rd → active (procStatus rd) = false) ∧
    countEv isKillRequest (trace (ShutdownAll os2 w1)) = countEv isKillRequest (trace w1) ∧
    panicked (ShutdownAll os2 w1) = false.

(** Paint is launched and found gone by the monitor in its first scan, the
    scan visiting Notepad, whose launcher has not run yet, before Paint. *)
Definition schedPaint_exit : list (OS * Step) :=
  [(starts 200, Resume 2%nat); (gone, Resume 0%nat); (gone, Resume 1%nat);
   (gone, Resume 1%nat); (gone, Resume 1%nat)].

(** Then the supervisor is told to shut down, and [ShutdownAll] visits
    Notepad and Paint and returns. *)
Definition schedPaint_exit_shutdown : list (OS * Step) :=
  schedPaint_exit ++
  [(gone, ShutdownRequest); (gone, Resume 2%nat); (gone, Resume 2%nat);
   (gone, Resume 2%nat)].

(** Paint is launched; the monitor has begun a scan and visited Notepad when
    the supervisor is told to shut down, and [ShutdownAll] has visited
    Notepad: the scan and the shutdown both have Paint as their next entry. *)
Definition schedPaint_scan_and_shutdown : list (OS * Step) :=
  [(starts 200, Resume 2%nat); (gone, Resume 0%nat); (gone, Resume 1%nat);
   (gone, ShutdownRequest); (gone, Resume 2%nat)].

(** The process with pid 200 is alive and stays so: signals are refused and
    taskkill ends with exit code 128. *)
Definition stubborn : OS :=
  {| os_Create := λ _, true;
     os_LookPath := λ name, (name, false);
     os_StartProcess := λ _ _, Some 9;
     os_ending := λ _, ExitsByItself 128;
     os_OpenProcess := λ p, p =? 200;
     os_Release := λ _, None;
     os_Signal := λ _ _, Some (OtherError "os: process already released") |}.

(** The launchers that do not wait for their process. *)
Definition isFireAndForget (g : Goroutine) : bool :=
  match g with
  | GoLaunch _ | GoRestart _ => true
  | _ => false
  end.

(** A call of [ShutdownAll] is under way and has the entries [todo] still
    to visit: it is the only one, every launcher of the pool that does not
    wait for its process came after the call took the lock, and every
    record that the call has visited is inactive. *)
Definition ShuttingDown (todo : list string) (w : World) : Prop :=
  ∃ pre post,
    goroutines w = pre ++ GoShutdown todo :: post ∧
    Forall (λ g, isFireAndForget g = false ∧ isShutdown g = false) pre ∧
    Forall (λ g, isShutdown g = false) post ∧
    (panicked w = false →
     ∀ n rd, gProcRuntimeData w !! n = Some rd →
             n ∈ todo ∨ active (procStatus rd) = false).

(** No record gets active between [w] and [w']. *)
Definition ActiveDown (w w' : World) : Prop :=
  ∀ n rd', gProcRuntimeData w' !! n = Some rd' →
           ∃ rd, gProcRuntimeData w !! n = Some rd ∧
                 (active (procStatus rd) = false → active (procStatus rd') = false).

(** Notepad and Paint are launched; then the supervisor is told to shut
    down and [ShutdownAll] visits both; it returns, and the supervisor is
    told to shut down again. *)
Definition schedBoth_started : list (OS * Step) :=
  [(starts 200, Resume 2%nat); (starts 201, Resume 1%nat)].
Definition schedBoth_visited : list (OS * Step) :=
  [(stubborn, Resume 1%nat); (stubborn, Resume 1%nat)].
Definition schedBoth_again : list (OS * Step) :=
  [(gone, Resume 1%nat); (gone, ShutdownRequest)].

(** The supervisor is told to shut down before any process is launched;
    [ShutdownAll] visits Notepad, the launcher of Notepad, which was in the
    pool before the call took the lock, runs, and [ShutdownAll] visits
    Paint. *)
Definition schedNotepad_launched_in_shutdown : list (OS * Step) :=
  [(gone, ShutdownRequest); (gone, Resume 3%nat); (starts 201, Resume 1%nat);
   (gone, Resume 2%nat)].

(** The record of Notepad in these runs once [ShutdownAll] has visited it:
    launched with pid 201 and the second log file, and inactive. *)
Definition notepad_visited : GPCProcRuntimeData :=
  {| procConfig := p1;
     procCmd :=
       Some {| Path := "notepad.exe"; Args := ["notepad.exe"]; Stdin := None;
               Stdout := Some 1%nat; Stderr := Some 1%nat;
               SysProcAttr := Some false; ctxTimeout := None;
               Process := Some {| Pid := 201 |}; ProcessState := None;
               lookPathErr := None |};
     procLog := Some 1%nat;
     procStatus := {| pid := 201; active := false; error := false;
                      timeout := false; done := false; restartCount := 0 |} |}.
(** ** What a step is made of *)

(** The goroutines that launch a process. *)
Definition isLauncher (g : Goroutine) : bool :=
  match g with
  | GoLaunch _ | GoLaunchAndWait _ | GoRestart _ => true
  | _ => false
  end.

(** The monitor, at its loop test or inside a scan. *)
Definition isMonitor (g : Goroutine) : bool :=
  match g with
  | GoMonitor | GoMonitorScan _ => true
  | _ => false
  end.

(** Changes that touch no record, no file and no event: the monitor or a
    shutdown leaves the pool, the monitor comes back to it, a shutdown goes
    on to its next entry, the stop flag is raised, a shutdown enters its
    loop, a launcher whose name is not in the registry panics. *)
Inductive Silent : World → World → Prop :=
| Silent_leaves w i g :
    goroutines w !! i = Some g → isLauncher g = false →
    Silent w (set_goroutines (delete i (goroutines w)) w)
| Silent_monitor_back w g :
    isMonitor g = true → Silent w (spawn g w)
| Silent_shutdown_on w i todo todo' :
    goroutines w !! i = Some (GoShutdown todo) →
    Silent w (set_goroutines (<[i := GoShutdown todo']> (goroutines w)) w)
| Silent_stop w : Silent w (set_gStopMon true w)
| Silent_shutdown_begins w todo :
    gStopMon w = true → Silent w (spawn (GoShutdown todo) w)
| Silent_absent w i g n :
    goroutines w !! i = Some g →
    g = GoLaunch n ∨ g = GoLaunchAndWait n ∨ g = GoRestart n →
    gProcRuntimeData w !! n = None →
    Silent w (panic (set_goroutines (delete i (goroutines w)) w)).

(** The parts of a step: a silent change, the body of a launcher (at a
    restart with the count just incremented), or the visit of an entry by
    the monitor or by a shutdown. *)
Inductive Move (os : OS) : World → World → Prop :=
| Move_silent w w' : Silent w w' → Move os w w'
| Move_launch w i g n rd rd1 :
    panicked w = false →
    goroutines w !! i = Some g →
    gProcRuntimeData w !! n = Some rd →
    (g = GoLaunch n ∧ rd1 = rd) ∨
    (g = GoRestart n ∧
     rd1 = with_status (λ s, set_restartCount (wrap32 (restartCount s + 1)) s) rd) →
    Move os w (launchProcess os n
                 (store n rd1 (set_goroutines (delete i (goroutines w)) w)))
| Move_launchWait w i n rd :
    panicked w = false →
    goroutines w !! i = Some (GoLaunchAndWait n) →
    gProcRuntimeData w !! n = Some rd →
    Move os w (launchProcessAndWait os n
                 (set_goroutines (delete i (goroutines w)) w))
| Move_monitorVisit w n :
    panicked w = false → Move os w (monitorVisit os n w)
| Move_shutdownVisit w n :
    panicked w = false → locked (goroutines w) = true →
    Move os w (shutdownVisit os n w).

Inductive Moves (os : OS) : World → World → Prop :=
| Moves_none w : Moves os w w
| Moves_more w1 w2 w3 : Move os w1 w2 → Moves os w2 w3 → Moves os w1 w3.


(** ** Further properties of the engine *)

(** [w'] keeps what [w] has: the same names in the registry, each with the
    same configuration, every flag among [error], [done] and [timeout] that
    was set, and the stop flag if it was up. *)
Definition Keeps (w w' : World) : Prop :=
  dom (gProcRuntimeData w') = dom (gProcRuntimeData w) ∧
  (gStopMon w = true → gStopMon w' = true) ∧
  ∀ n rd, gProcRuntimeData w !! n = Some rd →
          ∃ rd', gProcRuntimeData w' !! n = Some rd' ∧
                 procConfig rd' = procConfig rd ∧
                 (error (procStatus rd) = true → error (procStatus rd') = true) ∧
                 (done (procStatus rd) = true → done (procStatus rd') = true) ∧
                 (timeout (procStatus rd) = true → timeout (procStatus rd') = true).



(** Every process with a wait timeout has been launched once or is still to
    be launched once, and the monitor has never reported it gone. *)
Definition WaitOnce (w : World) : Prop :=
  ∀ n rd, gProcRuntimeData w !! n = Some rd →
          1 ≤ WaitForExitTimeoutS (procConfig rd) →
          (launches n w + cntGo (GoLaunchAndWait n) (goroutines w))%nat = 1%nat ∧
          exits n w = 0%nat.

(** The command of a record has a started process. *)
Definition hasProcess (rd : GPCProcRuntimeData) : bool :=
  match procCmd rd with
  | Some c => bool_decide (Process c ≠ None)
  | None => false
  end.

(** [w'] differs from [w] in a record only by its [active] flag. *)
Definition OnlyActiveChanged (w w' : World) : Prop :=
  ∀ n rd, gProcRuntimeData w !! n = Some rd →
          ∃ rd', gProcRuntimeData w' !! n = Some rd' ∧
                 procConfig rd' = procConfig rd ∧ procCmd rd' = procCmd rd ∧
                 procLog rd' = procLog rd ∧
                 set_active (active (procStatus rd)) (procStatus rd') = procStatus rd.

(** A second task named A, and a run in which process B has been run and
    process A launched, found gone and told to shut down before its restart. *)
Definition taskA2 : ProcessConfig :=
  {| Name := "A"; StartPath := "a2.exe"; StartArgs := []; StartDelayS := 3;
     MaxRestarts := 1; WaitForExitTimeoutS := 0; HideWindow := true;
     StopPath := EmptyString; StopArgs := [] |}.

Definition schedA_exit_then_shutdown : list (OS * Step) :=
  schedA_first_exit ++ [(gone, ShutdownRequest)].



(** The command of a record is as the launchers build it from the
    configuration: the path of the task as the only argument, no input, one
    sink for output and errors, which is the log of the record when there
    is one, the window setting of the task, and a deadline only from the
    wait timeout. *)
Definition CmdShape (rd : GPCProcRuntimeData) : Prop :=
  ∀ cmd, procCmd rd = Some cmd →
    Args cmd = [StartPath (procConfig rd)] ∧
    Stdin cmd = None ∧
    Stderr cmd = Stdout cmd ∧
    (Stdout cmd = None ∨ Stdout cmd = procLog rd) ∧
    SysProcAttr cmd = Some (HideWindow (procConfig rd)) ∧
    (ctxTimeout cmd = None ∨
     ctxTimeout cmd = Some (WaitForExitTimeoutS (procConfig rd) * 1000000000)).


(** A run in which the monitor begins a scan, process B is run to its end
    and waited for, and the scan visits A, whose launcher has not run
    yet. *)
Definition schedB_waited : list (OS * Step) :=
  [(starts 100, Resume 0%nat); (starts 200, Resume 1%nat); (gone, Resume 1%nat)].

(** ** Further properties of the logger: what a call leaves *)

(** [conf'] differs from [conf] in the number of files only. *)
Definition SameSettings (conf conf' : gpclogging.config) : Prop :=
  gpclogging.set_curfiles (gpclogging.curfiles conf) conf' = conf.

(** The event hands the entry, or some entry, to a file or to standard
    error. *)
Definition carriesEntry (e : gpclogging.LogEvent) : bool :=
  match e with
  | gpclogging.LvWrite _ _ => true
  | gpclogging.LvErrlog _ _ (_ :: _) => true
  | _ => false
  end.

(** The requests that remove the names [fs] from the directory of [conf]. *)
Definition removals (conf : gpclogging.config) (fs : list string)
    : list gpclogging.LogEvent :=
  (λ f, gpclogging.LvRemoveAll (gpclogging.logPath conf +:+ f) None) <$> fs.

(** ** Scenarios of the logger *)

(** A file system in which everything works, whose directories hold
    [names], with a [sort.Sort] that leaves the names in the order given. *)
Definition calmEnv (names : list string) : gpclogging.Env :=
  {| gpclogging.env_MkdirAll := λ _, None;
     gpclogging.env_Open := λ _, None;
     gpclogging.env_Readdirnames := λ _, (names, None);
     gpclogging.env_Sort := λ _ l, l;
     gpclogging.env_RemoveAll := λ _, None;
     gpclogging.env_OpenFile := λ _, None;
     gpclogging.env_Write := λ _ data, Z.of_nat (length data) |}.

(** The directory after some time of use: the log of a process and two files
    of the logger. *)
Definition usedNames : list string :=
  ["Notepad_20200101120001.log"; "gpc.20200101120000.log"; "gpc.20200102080000.log"].

(** The configuration after the [Init] call of [main] for the default
    configuration file. *)
Definition mainConf : gpclogging.config :=
  (gpclogging.Init (calmEnv usedNames) "gpc" "./logs" 2 1 20 true (gpclogging.init "gpc")).2.

Definition noon : gpclogging.Time :=
  {| gpclogging.Year := 2020; gpclogging.Month := 1; gpclogging.Day := 3;
     gpclogging.Hour := 12; gpclogging.Minute := 0; gpclogging.Second := 5 |}.

(** A logger that has not written yet. *)
Definition freshLogger : gpclogging.logger :=
  {| gpclogging.file := None; gpclogging.level := 0; gpclogging.day := 0;
     gpclogging.size := 0 |}.

(** * Properties *)

(** The numeric fields of a given configuration are in range. *)
Ltac wf_by_computation :=
  unfold wf_configData, wf_config, uint32; cbn; repeat constructor; cbn; lia.

(** ** Counting events and goroutines *)

Lemma countEv_app (p : Event → bool) (l1 l2 : list Event) :
  countEv p (l1 ++ l2) = (countEv p l1 + countEv p l2)%nat.
Proof. induction l1 as [|e l1 IH]; simpl; [done|]. rewrite IH. lia. Qed.

Lemma cntGo_app (g : Goroutine) (l1 l2 : list Goroutine) :
  cntGo g (l1 ++ l2) = (cntGo g l1 + cntGo g l2)%nat.
Proof. induction l1 as [|x l1 IH]; simpl; [done|]. rewrite IH. lia. Qed.

Lemma cntGo_delete (g x : Goroutine) (gs : list Goroutine) (i : nat) :
  gs !! i = Some x →
  cntGo g gs = ((if decide (x = g) then 1 else 0) + cntGo g (delete i gs))%nat.
Proof.
  revert i. induction gs as [|y gs IH]; intros [|i] H; simpl in *; try done.
  - by inversion H.
  - rewrite (IH i H). lia.
Qed.

Lemma cntGo_delete_ne (g x : Goroutine) (gs : list Goroutine) (i : nat) :
  gs !! i = Some x → x ≠ g → cntGo g (delete i gs) = cntGo g gs.
Proof. intros H Hne. rewrite (cntGo_delete g x gs i H). by rewrite decide_False. Qed.

Lemma cntGo_delete_eq (g : Goroutine) (gs : list Goroutine) (i : nat) :
  gs !! i = Some g → cntGo g gs = S (cntGo g (delete i gs)).
Proof. intros H. rewrite (cntGo_delete g g gs i H). by rewrite decide_True. Qed.

Lemma cntGo_snoc (g x : Goroutine) (gs : list Goroutine) :
  cntGo g (gs ++ [x]) = (cntGo g gs + (if decide (x = g) then 1 else 0))%nat.
Proof. rewrite cntGo_app. simpl. lia. Qed.

(** ** Files *)

Lemma File_Close_lookup (h : nat) (fs : list File) (f : File) :
  fs !! h = Some f →
  File_Close h fs !! h =
    Some {| fowner := fowner f; isOpen := false; closeCalls := S (closeCalls f) |}.
Proof. intros H. unfold File_Close. by rewrite list_lookup_alter_eq, H. Qed.

Lemma File_Close_lookup_ne (h k : nat) (fs : list File) :
  h ≠ k → File_Close h fs !! k = fs !! k.
Proof. intros H. unfold File_Close. by rewrite list_lookup_alter_ne. Qed.

Lemma File_Close_inv (h k : nat) (fs : list File) (f' : File) :
  File_Close h fs !! k = Some f' →
  ∃ f, fs !! k = Some f ∧ fowner f' = fowner f ∧
       (isOpen f' = true → isOpen f = true ∧ k ≠ h).
Proof.
  intros H. destruct (decide (h = k)) as [->|Hne].
  - destruct (fs !! k) as [f|] eqn:E.
    + rewrite (File_Close_lookup _ _ _ E) in H. inversion H; subst; simpl.
      exists f. split; [done|]. split; [done|]. intros; discriminate.
    + unfold File_Close in H. rewrite list_lookup_alter_eq, E in H. done.
  - rewrite File_Close_lookup_ne in H by done. exists f'. auto.
Qed.

Lemma File_Close_closes (h k : nat) (fs : list File) (f : File) :
  fs !! k = Some f →
  ∃ f', File_Close h fs !! k = Some f' ∧ fowner f' = fowner f ∧
        (isOpen f = false → isOpen f' = false) ∧ (k = h → isOpen f' = false).
Proof.
  intros H. destruct (decide (h = k)) as [->|Hne].
  - rewrite (File_Close_lookup _ _ _ H). eexists; split; [done|]. simpl. auto.
  - rewrite File_Close_lookup_ne by done. exists f. repeat split; auto. congruence.
Qed.

(** ** What the launchers do to the world *)

(** The command that [exec.Command] makes, but for the path that the
    lookup finds and the error that it leaves. *)
Lemma exec_Command_is (os : OS) (name : string) (arg : list string) :
  ∃ lp le,
    exec_Command os name arg =
      {| Path := lp; Args := name :: arg; Stdin := None; Stdout := None;
         Stderr := None; SysProcAttr := None; ctxTimeout := None;
         Process := None; ProcessState := None;
         lookPathErr := OtherError <$> le |} ∧
    ∀ timeoutDur,
      exec_CommandContext os timeoutDur name arg =
        {| Path := lp; Args := name :: arg; Stdin := None; Stdout := None;
           Stderr := None; SysProcAttr := None; ctxTimeout := Some timeoutDur;
           Process := None; ProcessState := None;
           lookPathErr := OtherError <$> le |}.
Proof.
  unfold exec_Command, exec_CommandContext, resolve.
  destruct (isFileName name); [|by eexists _, None].
  destruct (os_LookPath os name) as [lp failed].
  destruct (bool_decide (lp = EmptyString)), failed;
    (by eexists _, None) || (by eexists _, (Some _)).
Qed.

(** [Path] is the name only when no lookup is made or nothing is found. *)
Lemma exec_Command_Path (os : OS) (name : string) (arg : list string) :
  Path (exec_Command os name arg)
  = if isFileName name && negb (bool_decide ((os_LookPath os name).1 = EmptyString))
    then (os_LookPath os name).1 else name.
Proof.
  unfold exec_Command, resolve. destruct (isFileName name); [|done].
  destruct (os_LookPath os name) as [lp failed]. cbn.
  by destruct (bool_decide (lp = EmptyString)), failed.
Qed.

Lemma launchProcess_spec (os : OS) (n : string) (w : World) (rd : GPCProcRuntimeData) :
  gProcRuntimeData w !! n = Some rd →
  let path := StartPath (procConfig rd) in
  ∃ rd' fs' ev,
    launchProcess os n w =
      {| gProcRuntimeData := <[n := rd']> (gProcRuntimeData w);
         gStopMon := gStopMon w; files := fs'; goroutines := goroutines w;
         trace := ev ++ EvLaunch n (pathOf os path) [path] (startOf os path)
                          :: EvCreate (Name (procConfig rd))
                               (if os_Create os (Name (procConfig rd))
                                then Some (length (files w)) else None)
                          :: trace w;
         panicked := match startOf os path with Some _ => panicked w | None => true end |} ∧
    procConfig rd' = procConfig rd ∧
    LogChange (os_Create os (Name (procConfig rd))) rd rd' (files w) fs' ∧
    (∀ m, countEv (isLaunchOf m) ev = 0%nat ∧ countEv (isExitOf m) ev = 0%nat) ∧
    match startOf os path with
    | Some newpid =>
        procStatus rd' = set_active true (set_pid newpid (procStatus rd)) ∧
        ∃ cmd, procCmd rd' = Some cmd ∧ Process cmd = Some {| Pid := newpid |}
    | None =>
        procStatus rd' = set_error true (procStatus rd) ∧
        ∃ cmd, procCmd rd' = Some cmd ∧ Process cmd = None
    end.
Proof.
  intros Hrd path. unfold launchProcess, doProcessSettings,
    gpclogging.GetLogFileForProcess, LogChange, pathOf, startOf.
  rewrite Hrd. cbn. fold path.
  destruct (exec_Command_is os path []) as (lp & le & -> & _).
  destruct (os_Create os (Name (procConfig rd))); cbn;
    destruct (HideWindow (procConfig rd)); cbn;
    unfold Cmd_Start; cbn; destruct le as [e|]; cbn;
    try (destruct (os_StartProcess os lp [path]) as [newpid|]; cbn).
  all: unfold store, emit, set_files, set_registry, panic, Process_Release; cbn.
  all: destruct (panicked w) eqn:Hp; cbn.
  all: unfold store, emit, set_files, set_registry, panic, Process_Release; cbn.
  all: rewrite ?Hp.
  all: try (eexists _, _, [EvRelease _ _]; cbn;
            split; [reflexivity|]; cbn; eauto 10).
  all: try (eexists _, _, []; cbn;
            split; [reflexivity|]; cbn; eauto 10).
Qed.

Lemma ParseDuration_seconds_uint32 (n : Z) :
  uint32 n → ParseDuration_seconds n = Some (n * 1000000000).
Proof.
  unfold uint32, ParseDuration_seconds. intros H.
  destruct (Z.leb_spec (n * 1000000000) (2 ^ 63 - 1)); [done|lia].
Qed.

Lemma launchProcessAndWait_spec (os : OS) (n : string) (w : World)
    (rd : GPCProcRuntimeData) :
  gProcRuntimeData w !! n = Some rd →
  uint32 (WaitForExitTimeoutS (procConfig rd)) →
  let path := StartPath (procConfig rd) in
  ∃ rd' fs',
    launchProcessAndWait os n w =
      {| gProcRuntimeData := <[n := rd']> (gProcRuntimeData w);
         gStopMon := gStopMon w; files := fs'; goroutines := goroutines w;
         trace := EvLaunch n (pathOf os path) [path] (startOf os path)
                  :: EvCreate (Name (procConfig rd))
                       (if os_Create os (Name (procConfig rd))
                        then Some (length (files w)) else None)
                  :: trace w;
         panicked := panicked w |} ∧
    procConfig rd' = procConfig rd ∧
    LogChange (os_Create os (Name (procConfig rd))) rd rd' (files w) fs' ∧
    procStatus rd' = statusAfterRun os path (procStatus rd).
Proof.
  intros Hrd Hu path. unfold launchProcessAndWait, doProcessSettings,
    gpclogging.GetLogFileForProcess, LogChange, statusAfterRun, pathOf, startOf.
  rewrite Hrd, (ParseDuration_seconds_uint32 _ Hu). cbn. fold path.
  destruct (exec_Command_is os path []) as (lp & le & -> & ->).
  destruct (os_Create os (Name (procConfig rd))); cbn;
    destruct (HideWindow (procConfig rd)); cbn;
    unfold Cmd_Run, Cmd_Start, Cmd_Wait; cbn; destruct le as [e|]; cbn;
    try (destruct (os_StartProcess os lp [path]) as [newpid|]; cbn).
  all: try (destruct (os_ending os newpid) as [code|]; cbn;
            [destruct (code =? 0); cbn|]).
  all: unfold store, emit, set_files, set_registry; cbn.
  all: eexists _, _; split; [reflexivity|]; cbn; eauto.
Qed.

Lemma closeLog_spec (l : option nat) (w : World) :
  closeLog l w =
    {| gProcRuntimeData := gProcRuntimeData w; gStopMon := gStopMon w;
       files := closeFiles l (files w); goroutines := goroutines w;
       trace := closeEvents l ++ trace w; panicked := panicked w |}.
Proof. destruct l, w; reflexivity. Qed.

Lemma monitorVisit_spec (os : OS) (n : string) (w : World) (rd : GPCProcRuntimeData) :
  gProcRuntimeData w !! n = Some rd →
  monitorVisit os n w = w ∨
  (WaitForExitTimeoutS (procConfig rd) < 1 ∧ procCmd rd ≠ None ∧
   active (procStatus rd) = true ∧
   checkProcessRunning os (pid (procStatus rd)) ≠ None ∧
   monitorVisit os n w =
     {| gProcRuntimeData := <[n := afterExit rd]> (gProcRuntimeData w);
        gStopMon := gStopMon w;
        files := closeFiles (procLog rd) (files w);
        goroutines := goroutines w ++ restartAfterExit n rd;
        trace := closeEvents (procLog rd)
                 ++ EvWarnExited n (pid (procStatus rd)) :: trace w;
        panicked := panicked w |}).
Proof.
  intros Hrd. unfold monitorVisit. rewrite Hrd.
  destruct (Z.ltb_spec (WaitForExitTimeoutS (procConfig rd)) 1); cbn; [|by left].
  case_bool_decide; cbn; [|by left].
  destruct (active (procStatus rd)) eqn:Ha; cbn; [|by left].
  destruct (checkProcessRunning os (pid (procStatus rd))) eqn:Hc; [|by left].
  right. repeat (split; [done|]).
  unfold afterExit, restartAfterExit. cbn.
  destruct (0 <? MaxRestarts (procConfig rd)); cbn;
    [destruct (restartCount (procStatus rd) <? MaxRestarts (procConfig rd)); cbn|].
  all: rewrite ?closeLog_spec; unfold spawn, store, set_registry, set_goroutines, emit; cbn.
  all: rewrite ?closeLog_spec; cbn; rewrite ?app_nil_r; reflexivity.
Qed.

Lemma Cmd_Run_request (os : OS) (c : Cmd) :
  Path (Cmd_Run os c).1 = Path c ∧ Args (Cmd_Run os c).1 = Args c.
Proof.
  unfold Cmd_Run, Cmd_Start, Cmd_Wait.
  destruct (lookPathErr c); [done|].
  destruct (os_StartProcess os (Path c) (Args c)); cbn; [|done].
  destruct (os_ending os z); done.
Qed.

Lemma killProcess_started (os : OS) (c : Cmd) (p : osProcess) (w : World) :
  Process c = Some p →
  killProcess os (Some c) w =
    ((Cmd_Run os (exec_Command os "taskkill" ["/T"; "/F"; "/PID"; Itoa (Pid p)])).2,
     {| gProcRuntimeData := gProcRuntimeData w; gStopMon := gStopMon w;
        files := files w; goroutines := goroutines w;
        trace := killEvents os (Pid p) ++ trace w; panicked := panicked w |}).
Proof.
  intros Hp. unfold killProcess, killEvents. rewrite Hp. cbn [Process_Release].
  set (kill := exec_Command _ _ _).
  destruct (Cmd_Run_request os kill) as [HP HA].
  destruct (Cmd_Run os kill) as [k err]. cbn in *. rewrite HP, HA. reflexivity.
Qed.

Lemma shutdownVisit_spec (os : OS) (n : string) (w : World) (rd : GPCProcRuntimeData) :
  gProcRuntimeData w !! n = Some rd →
  panicked w = false →
  shutdownVisit os n w =
    match checkProcessRunning os (pid (procStatus rd)) with
    | Some _ => afterShutdownVisit n rd [] w
    | None =>
        match procCmd rd with
        | Some c =>
            match Process c with
            | Some p => afterShutdownVisit n rd (killEvents os (Pid p)) w
            | None => panic w
            end
        | None => panic w
        end
    end.
Proof.
  intros Hrd Hp. unfold shutdownVisit. rewrite Hrd.
  destruct (checkProcessRunning os (pid (procStatus rd))).
  - rewrite Hp, closeLog_spec. unfold afterShutdownVisit. cbn. by rewrite Hp.
  - destruct (procCmd rd) as [c|]; [|done].
    destruct (Process c) as [p|] eqn:HP.
    + rewrite (killProcess_started _ _ _ _ HP). cbn. rewrite Hp, closeLog_spec.
      reflexivity.
    + unfold killProcess. rewrite HP. reflexivity.
Qed.

Lemma killEvents_no_launch (os : OS) (p : Z) (m : string) :
  countEv (isLaunchOf m) (killEvents os p) = 0%nat ∧
  countEv (isExitOf m) (killEvents os p) = 0%nat.
Proof. done. Qed.

Lemma closeEvents_no_launch (l : option nat) (m : string) :
  countEv (isLaunchOf m) (closeEvents l) = 0%nat ∧
  countEv (isExitOf m) (closeEvents l) = 0%nat.
Proof. by destruct l. Qed.

(** ** Preservation of the invariants *)

Lemma FilesMono_refl (w w' : World) : files w' = files w → FilesMono w w'.
Proof. intros E h f H. rewrite E. eauto. Qed.

Lemma FilesMono_snoc (w w' : World) (f0 : File) :
  files w' = files w ++ [f0] → FilesMono w w'.
Proof.
  intros E h f H. rewrite E. exists f. split; [|done].
  by apply lookup_app_l_Some.
Qed.

Lemma FilesMono_close (w w' : World) (l : option nat) :
  files w' = closeFiles l (files w) → FilesMono w w'.
Proof.
  intros E h f H. rewrite E. destruct l as [h0|]; simpl; [|eauto].
  destruct (File_Close_closes h0 h _ _ H) as (f' & ? & ? & ? & ?). eauto.
Qed.

Lemma FileStep_mono (n : string) (rd rd' : GPCProcRuntimeData) (w w' : World) :
  FileStep n rd rd' w w' → FilesMono w w'.
Proof.
  intros [[E _]|[[E _]|(h & _ & _ & E)]].
  - by apply FilesMono_refl.
  - by eapply FilesMono_snoc.
  - by apply (FilesMono_close w w' (Some h)).
Qed.

Lemma RecInv_frame (m : string) (rd : GPCProcRuntimeData) (w w' : World) :
  RecInv m rd w → SameFor m w w' → FilesMono w w' → RecInv m rd w'.
Proof.
  intros I (E1 & E2 & E3 & E4 & E5) HF.
  destruct I as [I1 I2 I3 I4 I5 I6 I7 I8 I9 I10 I11 I12 I13 I14].
  constructor; unfold pendingFor in *; rewrite ?E1, ?E2, ?E3, ?E4, ?E5; try done.
  - intros H. destruct (I5 H) as (? & ? & Hs). repeat split; try done.
    intros h Hh. destruct (Hs h Hh) as (f & Hf & Hc).
    destruct (HF h f Hf) as (f' & ? & ? & Hc'). eauto.
  - intros h Hh. destruct (I14 h Hh) as (f & Hf & Ho).
    destruct (HF h f Hf) as (f' & ? & ? & _). exists f'. split; congruence.
Qed.

Lemma Inv_update (n : string) (rd rd' : GPCProcRuntimeData) (w w' : World) :
  Inv w →
  gProcRuntimeData w !! n = Some rd →
  gProcRuntimeData w' = <[n := rd']> (gProcRuntimeData w) →
  RecInv n rd' w' →
  FileStep n rd rd' w w' →
  (∀ m, m ≠ n → SameFor m w w') →
  Inv w'.
Proof.
  intros [HR HFi] Hrd Hreg Hn HFS Hsame. split.
  - intros m rdm. rewrite Hreg, lookup_insert. case_decide as Hd.
    + intros [= <-]. by subst.
    + intros Hm. eapply RecInv_frame; eauto using FileStep_mono.
  - intros h f Hf Ho. rewrite Hreg.
    assert (Hname : ∀ k g, files w !! k = Some g → isOpen g = true → fowner g = n →
                           procLog rd = Some k).
    { intros k g Hg Hog Hown. destruct (HFi k g Hg Hog) as (rd0 & H0 & Hl).
      rewrite Hown, Hrd in H0. by inversion H0; subst. }
    assert (Hold : ∀ g, files w !! h = Some g → isOpen g = true →
                        fowner g = fowner f →
                        (fowner g = n → procLog rd' = Some h) →
                        ∃ rd0, <[n:=rd']> (gProcRuntimeData w) !! fowner f = Some rd0 ∧
                               procLog rd0 = Some h).
    { intros g Hg Hog Hown Hcur. rewrite <- Hown, lookup_insert. case_decide as Hd.
      - exists rd'. split; [done|]. by apply Hcur.
      - destruct (HFi h g Hg Hog) as (rd0 & H0 & Hl). eauto. }
    destruct HFS as [[E El]|[(E & El & Hcl)|(h0 & Hl & Hl' & E)]]; rewrite E in Hf.
    + apply (Hold f Hf Ho eq_refl). intros Hown. rewrite El. eauto.
    + apply lookup_app_Some in Hf as [Hf|[Hlen Hf]].
      * apply (Hold f Hf Ho eq_refl). intros Hown.
        pose proof (Hname _ _ Hf Ho Hown) as Hk.
        destruct (Hcl h Hk) as (f1 & Hf1 & Hc1). congruence.
      * destruct (h - length (files w))%nat as [|k] eqn:Ek; simpl in Hf; [|done].
        inversion Hf; subst f; simpl. rewrite lookup_insert_eq.
        exists rd'. split; [done|]. rewrite El. f_equal. lia.
    + destruct (File_Close_inv _ _ _ _ Hf) as (g & Hg & Hown & Hopen).
      destruct (Hopen Ho) as [Hog Hne].
      apply (Hold g Hg Hog (eq_sym Hown)). intros Hgn.
      pose proof (Hname _ _ Hg Hog Hgn). congruence.
Qed.

Lemma wrap32_small (z : Z) : 0 ≤ z < 2 ^ 32 → wrap32 z = z.
Proof. intros H. unfold wrap32. by apply Z.mod_small. Qed.

Lemma pending_delete (n : string) (g : Goroutine) (gs : list Goroutine) (i : nat) :
  gs !! i = Some g →
  g = GoLaunch n ∨ g = GoLaunchAndWait n ∨ g = GoRestart n →
  pendingFor n gs = S (pendingFor n (delete i gs)) ∧
  (cntGo g gs = S (cntGo g (delete i gs))).
Proof.
  intros Hi Hg. unfold pendingFor.
  rewrite (cntGo_delete (GoLaunch n) g gs i Hi),
          (cntGo_delete (GoLaunchAndWait n) g gs i Hi),
          (cntGo_delete (GoRestart n) g gs i Hi),
          (cntGo_delete g g gs i Hi).
  destruct Hg as [-> | [-> | ->]]; repeat case_decide; try congruence; lia.
Qed.

Lemma SameFor_delete (m n : string) (g : Goroutine) (w w' : World) (i : nat) :
  goroutines w !! i = Some g →
  (g = GoMonitor ∨ g = GoLaunch n ∨ g = GoLaunchAndWait n ∨ g = GoRestart n) →
  m ≠ n →
  goroutines w' = delete i (goroutines w) →
  launches m w' = launches m w → exits m w' = exits m w →
  SameFor m w w'.
Proof.
  intros Hi Hg Hne E El Ee. unfold SameFor. rewrite E, El, Ee.
  rewrite !(cntGo_delete_ne _ g _ i Hi); [done|..];
    destruct Hg as [->|[-> | [-> | ->]]]; congruence.
Qed.

Lemma launch_core_inv (os : OS) (n : string) (w : World) (i : nat)
    (g : Goroutine) (rd rd1 : GPCProcRuntimeData) :
  Inv w →
  goroutines w !! i = Some g →
  gProcRuntimeData w !! n = Some rd →
  (g = GoLaunch n ∧ rd1 = rd) ∨
  (g = GoRestart n ∧
   rd1 = with_status (λ s, set_restartCount (wrap32 (restartCount s + 1)) s) rd) →
  Inv (launchProcess os n (store n rd1 (set_goroutines (delete i (goroutines w)) w))).
Proof.
  intros HI Hi Hrd Hg.
  pose proof (proj1 HI n rd Hrd) as I.
  destruct I as [I1 I2 I3 I4 I5 I6 I7 I8 I9 I10 I11 I12 I13 I14].
  assert (Hk : g = GoLaunch n ∨ g = GoLaunchAndWait n ∨ g = GoRestart n)
    by (destruct Hg as [[-> _]|[-> _]]; auto).
  destruct (pending_delete n g _ i Hi Hk) as [Hpd Hcd].
  destruct I5 as (Hact & Herr & Hsink); [lia|].
  set (w1 := store n rd1 (set_goroutines (delete i (goroutines w)) w)).
  assert (Hrd1 : gProcRuntimeData w1 !! n = Some rd1) by apply lookup_insert_eq.
  assert (Hcfg : procConfig rd1 = procConfig rd) by (destruct Hg as [[_ ->]|[_ ->]]; done).
  assert (Hlog1 : procLog rd1 = procLog rd) by (destruct Hg as [[_ ->]|[_ ->]]; done).
  destruct (launchProcess_spec os n w1 rd1 Hrd1)
    as (rd' & fs' & ev & Heq & Hc' & HL & Hev & Hst).
  rewrite Hcfg in Heq, HL, Hst.
  set (path := StartPath (procConfig rd)) in *.
  assert (HlaunchN : launches n (launchProcess os n w1) = S (launches n w)).
  { rewrite Heq. unfold launches. cbn. rewrite countEv_app. cbn.
    rewrite (proj1 (Hev n)). by rewrite bool_decide_eq_true_2. }
  assert (HexitsM : ∀ m, exits m (launchProcess os n w1) = exits m w).
  { intros m. rewrite Heq. unfold exits. cbn. rewrite countEv_app. cbn.
    by rewrite (proj2 (Hev m)). }
  assert (HlaunchM : ∀ m, m ≠ n → launches m (launchProcess os n w1) = launches m w).
  { intros m Hm. rewrite Heq. unfold launches. cbn. rewrite countEv_app. cbn.
    rewrite (proj1 (Hev m)). rewrite bool_decide_eq_false_2; [done|congruence]. }
  assert (Hgs : goroutines (launchProcess os n w1) = delete i (goroutines w))
    by (rewrite Heq; done).
  assert (Hfs : files (launchProcess os n w1) = fs') by (rewrite Heq; done).
  assert (HFS : FileStep n rd rd' w (launchProcess os n w1)).
  { unfold FileStep. rewrite Hfs. unfold LogChange in HL.
    rewrite ?Hcfg, ?I1, ?Hlog1 in HL. change (files w1) with (files w) in HL.
    destruct (os_Create os n); destruct HL as [E1 E2];
      [right; left | left]; repeat split; auto. }
  apply (Inv_update n rd rd' w _ HI Hrd).
  - rewrite Heq. cbn. apply insert_insert_eq.
  - assert (Hwait : WaitForExitTimeoutS (procConfig rd) < 1).
    { destruct Hg as [[-> _]|[-> _]]; [apply I6|apply I7]; lia. }
    assert (Hrc1 : restartCount (procStatus rd1) + 1
                   = Z.of_nat (launches n w) + 1
                     + Z.of_nat (cntGo (GoLaunch n) (delete i (goroutines w)))
                   ∧ 0 ≤ restartCount (procStatus rd1) ≤ MaxRestarts (procConfig rd)).
    { specialize (I10 Hwait). destruct Hg as [[-> ->]|[-> ->]].
      - rewrite Hcd in I10. lia.
      - destruct I7 as [_ Hlt]; [lia|]. cbn.
        rewrite wrap32_small by (destruct I2 as (_ & [? ?] & _); unfold uint32 in *; lia).
        unfold pendingFor in *.
        assert (cntGo (GoLaunch n) (delete i (goroutines w))
                = cntGo (GoLaunch n) (goroutines w)) as ->
          by (by apply (cntGo_delete_ne _ (GoRestart n))).
        lia. }
    assert (Hs1 : active (procStatus rd1) = false ∧ error (procStatus rd1) = false
                  ∧ pid (procStatus rd1) = pid (procStatus rd)).
    { destruct Hg as [[_ ->]|[_ ->]]; done. }
    destruct Hs1 as (Ha1 & He1 & Hp1).
    assert (Hstat : restartCount (procStatus rd') = restartCount (procStatus rd1) ∧
                    (active (procStatus rd') = true →
                     error (procStatus rd') = false ∧
                     ∃ cmd p, procCmd rd' = Some cmd ∧ Process cmd = Some p ∧
                              pid (procStatus rd') = Pid p)).
    { destruct (startOf os path) as [newpid|];
        destruct Hst as (-> & cmd & Hcmd & Hproc); cbn; split; try done.
      - intros _. split; [done|]. exists cmd, {| Pid := newpid |}. done.
      - rewrite Ha1. done. }
    destruct Hstat as (Hrc' & Hact').
    unfold pendingFor in *.
    constructor; rewrite ?Hc', ?Hcfg, ?Hgs, ?HlaunchN, ?HexitsM, ?Hrc';
      unfold pendingFor; try done; try lia.
    + intros _. rewrite Hact in I11. specialize (I11 Hwait).
      destruct (active (procStatus rd')); lia.
    + intros h Hh.
      destruct HFS as [[E El]|[(E & El & _)|(h0 & Hl & Hl' & E)]]; rewrite E.
      * apply I14. congruence.
      * rewrite El in Hh. inversion Hh; subst h.
        eexists. split; [rewrite lookup_app_r by lia; by rewrite Nat.sub_diag|].
        reflexivity.
      * rewrite Hl' in Hh. inversion Hh; subst h0.
        destruct (I14 h Hl) as (f & Hf & Ho).
        destruct (File_Close_closes h h _ _ Hf) as (f' & ? & ? & _). exists f'.
        split; congruence.
  - exact HFS.
  - intros m Hm. eapply (SameFor_delete m n g); eauto.
    all: destruct Hg as [[-> _]|[-> _]]; auto.
Qed.

Lemma statusAfterRun_keeps (os : OS) (path : string) (s : ProcStatus) :
  pid (statusAfterRun os path s) = pid s ∧
  restartCount (statusAfterRun os path s) = restartCount s ∧
  active (statusAfterRun os path s) = true.
Proof.
  unfold statusAfterRun. destruct (startOf os path) as [p|]; [|done].
  destruct (os_ending os p) as [code|]; [|done]. by destruct (code =? 0).
Qed.

Lemma Inv_same (w w' : World) :
  Inv w →
  gProcRuntimeData w' = gProcRuntimeData w →
  files w' = files w →
  (∀ m, is_Some (gProcRuntimeData w !! m) → SameFor m w w') →
  Inv w'.
Proof.
  intros [HR HF] Er Ef Hs. split.
  - intros m rd. rewrite Er. intros Hm.
    eapply RecInv_frame; eauto using FilesMono_refl.
  - intros h f. rewrite Ef, Er. apply HF.
Qed.

Lemma SameFor_refl (m : string) (w w' : World) :
  goroutines w' = goroutines w → trace w' = trace w → SameFor m w w'.
Proof. intros Eg Et. unfold SameFor, launches, exits. by rewrite Eg, Et. Qed.

Lemma Inv_panic (w : World) : Inv w → Inv (panic w).
Proof. intros H. eapply Inv_same; eauto. intros. by apply SameFor_refl. Qed.

Lemma launchWait_inv (os : OS) (n : string) (w : World) (i : nat)
    (rd : GPCProcRuntimeData) :
  Inv w →
  goroutines w !! i = Some (GoLaunchAndWait n) →
  gProcRuntimeData w !! n = Some rd →
  Inv (launchProcessAndWait os n (set_goroutines (delete i (goroutines w)) w)).
Proof.
  intros HI Hi Hrd.
  pose proof (proj1 HI n rd Hrd) as I.
  destruct I as [I1 I2 I3 I4 I5 I6 I7 I8 I9 I10 I11 I12 I13 I14].
  destruct (pending_delete n _ _ i Hi) as [Hpd Hcd]; [auto|].
  destruct I5 as (Hact & Herr & Hsink); [lia|].
  set (w1 := set_goroutines (delete i (goroutines w)) w).
  assert (Hwait : 1 ≤ WaitForExitTimeoutS (procConfig rd)) by (apply I8; lia).
  destruct (launchProcessAndWait_spec os n w1 rd Hrd)
    as (rd' & fs' & Heq & Hc' & HL & Hst); [apply I2|].
  set (path := StartPath (procConfig rd)) in *.
  destruct (statusAfterRun_keeps os path (procStatus rd)) as (Hp & Hr & Ha).
  rewrite <- Hst in Hp, Hr, Ha.
  assert (HexitsM : ∀ m, exits m (launchProcessAndWait os n w1) = exits m w)
    by (intros m; rewrite Heq; done).
  assert (HlaunchM : ∀ m, m ≠ n →
            launches m (launchProcessAndWait os n w1) = launches m w).
  { intros m Hm. rewrite Heq. unfold launches. cbn.
    rewrite bool_decide_eq_false_2; [done|congruence]. }
  assert (Hgs : goroutines (launchProcessAndWait os n w1) = delete i (goroutines w))
    by (rewrite Heq; done).
  assert (Hfs : files (launchProcessAndWait os n w1) = fs') by (rewrite Heq; done).
  assert (HFS : FileStep n rd rd' w (launchProcessAndWait os n w1)).
  { unfold FileStep. rewrite Hfs. unfold LogChange in HL.
    rewrite ?I1 in HL. change (files w1) with (files w) in HL.
    destruct (os_Create os n); destruct HL as [E1 E2];
      [right; left | left]; repeat split; auto. }
  apply (Inv_update n rd rd' w _ HI Hrd).
  - rewrite Heq. done.
  - unfold pendingFor in *.
    constructor; rewrite ?Hc', ?Hgs, ?HexitsM, ?Hp, ?Hr;
      unfold pendingFor; try done; try lia.
    intros h Hh.
    destruct HFS as [[E El]|[(E & El & _)|(h0 & Hl & Hl' & E)]]; rewrite E.
    + apply I14. congruence.
    + rewrite El in Hh. inversion Hh; subst h.
      eexists. split; [rewrite lookup_app_r by lia; by rewrite Nat.sub_diag|].
      reflexivity.
    + rewrite Hl' in Hh. inversion Hh; subst h0.
      destruct (I14 h Hl) as (f & Hf & Ho).
      destruct (File_Close_closes h h _ _ Hf) as (f' & ? & ? & _). exists f'.
      split; congruence.
  - exact HFS.
  - intros m Hm. eapply (SameFor_delete m n (GoLaunchAndWait n)); eauto.
Qed.

Lemma closeFiles_FileStep (n : string) (rd rd' : GPCProcRuntimeData) (w w' : World) :
  procLog rd' = procLog rd →
  files w' = closeFiles (procLog rd) (files w) →
  FileStep n rd rd' w w'.
Proof.
  intros El Ef. unfold FileStep. destruct (procLog rd) as [h|] eqn:E; simpl in Ef.
  - right; right. exists h. by rewrite El.
  - left. by rewrite El.
Qed.

Lemma closeFiles_closed (n : string) (rd rd' : GPCProcRuntimeData) (w w' : World) :
  procLog rd' = procLog rd →
  files w' = closeFiles (procLog rd) (files w) →
  (∀ h, procLog rd = Some h → ∃ f, files w !! h = Some f ∧ fowner f = n) →
  sinkClosed rd' w' ∧
  (∀ h, procLog rd' = Some h → ∃ f, files w' !! h = Some f ∧ fowner f = n).
Proof.
  intros El Ef HL. unfold sinkClosed. rewrite El, Ef.
  split; intros h Hh; destruct (HL h Hh) as (f & Hf & Ho); rewrite Hh; simpl;
    destruct (File_Close_closes h h _ _ Hf) as (f' & ? & ? & ? & ?);
    exists f'; split; auto; congruence.
Qed.

Lemma afterExit_fields (rd : GPCProcRuntimeData) :
  procConfig (afterExit rd) = procConfig rd ∧
  procLog (afterExit rd) = procLog rd ∧
  procCmd (afterExit rd) = procCmd rd ∧
  active (procStatus (afterExit rd)) = false ∧
  pid (procStatus (afterExit rd)) = pid (procStatus rd) ∧
  restartCount (procStatus (afterExit rd)) = restartCount (procStatus rd) ∧
  (error (procStatus rd) = true → error (procStatus (afterExit rd)) = true) ∧
  (0 < MaxRestarts (procConfig rd) →
   MaxRestarts (procConfig rd) ≤ restartCount (procStatus rd) →
   error (procStatus (afterExit rd)) = true) ∧
  (restartAfterExit (Name (procConfig rd)) rd ≠ [] →
   error (procStatus (afterExit rd)) = error (procStatus rd) ∧
   restartCount (procStatus rd) < MaxRestarts (procConfig rd)).
Proof.
  unfold afterExit, restartAfterExit.
  destruct (Z.ltb_spec 0 (MaxRestarts (procConfig rd)));
    destruct (Z.ltb_spec (restartCount (procStatus rd)) (MaxRestarts (procConfig rd)));
    cbn; repeat split; auto; try lia; try done.
Qed.

Lemma restartAfterExit_count (n : string) (rd : GPCProcRuntimeData) (g : Goroutine) :
  cntGo g (restartAfterExit n rd) =
    if decide (g = GoRestart n) then length (restartAfterExit n rd) else 0%nat.
Proof.
  unfold restartAfterExit.
  destruct (_ && _); cbn; repeat case_decide; try congruence; lia.
Qed.

Lemma restartAfterExit_length (n : string) (rd : GPCProcRuntimeData) :
  (length (restartAfterExit n rd) ≤ 1)%nat ∧
  (1 ≤ length (restartAfterExit n rd) → restartAfterExit n rd ≠ [])%nat.
Proof. unfold restartAfterExit. destruct (_ && _); cbn; split; auto; lia. Qed.

Lemma restartAfterExit_name (n n' : string) (rd : GPCProcRuntimeData) :
  restartAfterExit n rd ≠ [] → restartAfterExit n' rd ≠ [].
Proof. unfold restartAfterExit. by destruct (_ && _). Qed.

Lemma monitorVisit_inv (os : OS) (n : string) (w : World) :
  Inv w → Inv (monitorVisit os n w).
Proof.
  intros HI. destruct (gProcRuntimeData w !! n) as [rd|] eqn:Hrd;
    [|by unfold monitorVisit; rewrite Hrd].
  destruct (monitorVisit_spec os n w rd Hrd) as [->|(Hwait & Hcmd & Hact & Hprobe & Heq)];
    [done|].
  pose proof (proj1 HI n rd Hrd) as I.
  destruct I as [I1 I2 I3 I4 I5 I6 I7 I8 I9 I10 I11 I12 I13 I14].
  assert (Hp0 : pendingFor n (goroutines w) = 0%nat).
  { destruct (pendingFor n (goroutines w)) eqn:E; [done|].
    destruct I5 as (Hf & _); [lia|congruence]. }
  destruct (I9 Hwait Hact) as (Herr & _).
  destruct (afterExit_fields rd) as (Fc & Fl & Fcmd & Fa & Fp & Fr & Fe & Fb & Fs).
  rewrite I1 in Fs.
  set (w' := monitorVisit os n w) in *.
  assert (Hgs : goroutines w' = goroutines w ++ restartAfterExit n rd) by (by rewrite Heq).
  assert (Hl : ∀ m, launches m w' = launches m w).
  { intros m. rewrite Heq. unfold launches. cbn. rewrite countEv_app.
    by rewrite (proj1 (closeEvents_no_launch _ m)). }
  assert (He : exits n w' = S (exits n w)).
  { rewrite Heq. unfold exits. cbn. rewrite countEv_app.
    rewrite (proj2 (closeEvents_no_launch _ n)). cbn.
    by rewrite bool_decide_eq_true_2. }
  assert (HeM : ∀ m, m ≠ n → exits m w' = exits m w).
  { intros m Hm. rewrite Heq. unfold exits. cbn. rewrite countEv_app.
    rewrite (proj2 (closeEvents_no_launch _ m)). cbn.
    rewrite bool_decide_eq_false_2; [done|congruence]. }
  assert (Hf : files w' = closeFiles (procLog rd) (files w)) by (by rewrite Heq).
  destruct (closeFiles_closed n rd (afterExit rd) w w' Fl Hf I14) as [Hclosed Hlog].
  destruct (restartAfterExit_length n rd) as [Hlen Hne].
  apply (Inv_update n rd (afterExit rd) w w' HI Hrd).
  - by rewrite Heq.
  - unfold pendingFor in *.
    constructor; rewrite ?Fc, ?Hgs, ?Hl, ?He, ?Fr, ?Fa, ?Fp; unfold pendingFor;
      rewrite ?cntGo_app, ?restartAfterExit_count; repeat case_decide;
      try congruence; try done; try lia.
    + intros Hpend. split; [done|]. split; [|done].
      destruct Fs as [-> _]; [apply Hne; lia|done].
    + intros Hpend. split; [done|]. apply Fs, Hne. lia.
    + specialize (I11 Hwait). rewrite Hact in I11. lia.
    + intros _ Hmax Hex. apply Fb; [done|].
      specialize (I11 Hwait). specialize (I10 Hwait). rewrite Hact in I11. lia.
  - by apply closeFiles_FileStep.
  - intros m Hm. unfold SameFor. rewrite Hgs, Hl, (HeM m Hm), !cntGo_app,
      !restartAfterExit_count.
    repeat case_decide; try congruence; lia.
Qed.

Lemma shutdownVisit_inv (os : OS) (n : string) (w : World) :
  Inv w → panicked w = false → Inv (shutdownVisit os n w).
Proof.
  intros HI Hp. destruct (gProcRuntimeData w !! n) as [rd|] eqn:Hrd;
    [|by unfold shutdownVisit; rewrite Hrd].
  rewrite (shutdownVisit_spec os n w rd Hrd Hp).
  assert (Hcore : ∀ ev, (∀ m, countEv (isLaunchOf m) ev = 0%nat ∧
                              countEv (isExitOf m) ev = 0%nat) →
                        Inv (afterShutdownVisit n rd ev w)).
  { intros ev Hev.
    pose proof (proj1 HI n rd Hrd) as I.
    destruct I as [I1 I2 I3 I4 I5 I6 I7 I8 I9 I10 I11 I12 I13 I14].
    set (rd' := with_status (set_active false) rd).
    set (w' := afterShutdownVisit n rd ev w).
    assert (Hl : ∀ m, launches m w' = launches m w).
    { intros m. unfold launches. cbn. rewrite !countEv_app.
      by rewrite (proj1 (closeEvents_no_launch _ m)), (proj1 (Hev m)). }
    assert (He : ∀ m, exits m w' = exits m w).
    { intros m. unfold exits. cbn. rewrite !countEv_app.
      by rewrite (proj2 (closeEvents_no_launch _ m)), (proj2 (Hev m)). }
    destruct (closeFiles_closed n rd rd' w w' eq_refl eq_refl I14) as [Hclosed Hlog].
    apply (Inv_update n rd rd' w w' HI Hrd); [done| |by apply closeFiles_FileStep|].
    - constructor; rewrite ?Hl, ?He; try done.
      + intros Hpend. destruct (I5 Hpend) as (? & ? & ?). done.
      + cbn. intros Hw. specialize (I11 Hw).
        destruct (active (procStatus rd)); lia.
    - intros m _. unfold SameFor. by rewrite Hl, He. }
  destruct (checkProcessRunning os (pid (procStatus rd))).
  - by apply Hcore.
  - destruct (procCmd rd) as [c|]; [|by apply Inv_panic].
    destruct (Process c) as [p|]; [|by apply Inv_panic].
    apply Hcore. intros m. apply killEvents_no_launch.
Qed.

Lemma shutdownVisit_registry (os : OS) (n : string) (w : World) :
  dom (gProcRuntimeData (shutdownVisit os n w)) = dom (gProcRuntimeData w).
Proof.
  unfold shutdownVisit. destruct (gProcRuntimeData w !! n) as [rd|] eqn:Hrd; [|done].
  assert (Hk : ∀ w0, gProcRuntimeData w0 = gProcRuntimeData w →
               dom (gProcRuntimeData
                      (if panicked w0 then w0
                       else closeLog (procLog rd)
                              (store n (with_status (set_active false) rd) w0)))
               = dom (gProcRuntimeData w)).
  { intros w0 E. destruct (panicked w0); [by rewrite E|].
    rewrite closeLog_spec. cbn. rewrite E, dom_insert_L.
    apply elem_of_dom_2 in Hrd. apply set_eq. intros x.
    rewrite elem_of_union, elem_of_singleton.
    split; [intros [-> | Hx]; done | intros Hx; by right]. }
  apply Hk. destruct (checkProcessRunning os _); [done|].
  unfold killProcess. destruct (procCmd rd) as [c|]; [|done].
  destruct (Process c) as [p|]; [|done]. cbn.
  by destruct (Cmd_Run os _).
Qed.

Lemma foldl_inv {A : Type} (P : World → Prop) (f : World → A → World)
    (l : list A) (w : World) :
  (∀ w a, P w → P (f w a)) → P w → P (foldl f w l).
Proof. intros Hf. revert w. induction l as [|a l IH]; simpl; auto. Qed.

Lemma ShutdownAll_inv (os : OS) (w : World) : Inv w → Inv (ShutdownAll os w).
Proof.
  intros HI. unfold ShutdownAll. apply (foldl_inv Inv).
  - intros w0 a H0. destruct (panicked w0) eqn:Hp; [done|].
    by apply shutdownVisit_inv.
  - eapply Inv_same; eauto. intros. by apply SameFor_refl.
Qed.

Lemma cntGo_insert (g x y : Goroutine) (gs : list Goroutine) (i : nat) :
  gs !! i = Some x → x ≠ g → y ≠ g → cntGo g (<[i := y]> gs) = cntGo g gs.
Proof.
  revert i. induction gs as [|z gs IH]; intros [|i] H Hx Hy; simpl in *; try done.
  - inversion H; subst z. by rewrite !decide_False.
  - by rewrite (IH i H).
Qed.

Lemma locked_lookup (gs : list Goroutine) (i : nat) (todo : list string) :
  gs !! i = Some (GoShutdown todo) → locked gs = true.
Proof.
  intros H. apply existsb_exists. exists (GoShutdown todo).
  split; [|done]. apply list_elem_of_In. by eapply list_elem_of_lookup_2.
Qed.

Lemma shutdownVisit_goroutines (os : OS) (n : string) (w : World) :
  goroutines (shutdownVisit os n w) = goroutines w.
Proof.
  unfold shutdownVisit. destruct (gProcRuntimeData w !! n) as [rd|]; [|done].
  set (w1 := match checkProcessRunning os (pid (procStatus rd)) with
             | Some _ => w
             | None => (killProcess os (procCmd rd) w).2
             end).
  assert (H1 : goroutines w1 = goroutines w).
  { unfold w1, killProcess, Process_Release.
    destruct (checkProcessRunning os _); [done|].
    destruct (procCmd rd) as [c|]; [|done]. destruct (Process c); [|done].
    by destruct (Cmd_Run os _). }
  destruct (panicked w1); [done|]. rewrite closeLog_spec. done.
Qed.

Lemma SameFor_pool (m : string) (w w' : World) :
  trace w' = trace w →
  (∀ g, isLauncher g = true →
        cntGo g (goroutines w') = cntGo g (goroutines w)) →
  SameFor m w w'.
Proof.
  intros Et Hg. unfold SameFor, launches, exits. rewrite Et, !Hg; done.
Qed.

Lemma SameFor_absent (m n : string) (g : Goroutine) (w w' : World) (i : nat) :
  goroutines w !! i = Some g →
  (g = GoLaunch n ∨ g = GoLaunchAndWait n ∨ g = GoRestart n) →
  gProcRuntimeData w !! n = None →
  is_Some (gProcRuntimeData w !! m) →
  goroutines w' = delete i (goroutines w) →
  trace w' = trace w →
  SameFor m w w'.
Proof.
  intros Hi Hg Hn [rd Hm] Eg Et.
  apply (SameFor_delete m n g w w' i Hi); [tauto|congruence|done|..].
  - unfold launches. by rewrite Et.
  - unfold exits. by rewrite Et.
Qed.

Lemma Silent_sameFor (m : string) (w w' : World) :
  Silent w w' → is_Some (gProcRuntimeData w !! m) → SameFor m w w'.
Proof.
  intros Hs Hm. destruct Hs as [w i g Hi Hg|w g Hg|w i todo todo' Hi| |w todo Hf
                              |w i g n Hi Hg Hn].
  - apply SameFor_pool; [done|]. intros g' Hg'. cbn.
    apply (cntGo_delete_ne _ g _ i Hi). intros ->. congruence.
  - apply SameFor_pool; [done|]. intros g' Hg'. cbn.
    rewrite cntGo_snoc, decide_False; [lia|]. intros ->. by destruct g'.
  - apply SameFor_pool; [done|]. intros g' Hg'. cbn.
    apply (cntGo_insert _ _ _ _ _ Hi); intros <-; done.
  - by apply SameFor_refl.
  - apply SameFor_pool; [done|]. intros g' Hg'. cbn.
    rewrite cntGo_snoc, decide_False; [lia|]. intros <-. done.
  - by apply (SameFor_absent m n g w _ i).
Qed.

Lemma Silent_inv (w w' : World) : Inv w → Silent w w' → Inv w'.
Proof.
  intros HI Hs. apply (Inv_same w w' HI); [by destruct Hs..|].
  intros m Hm. by apply Silent_sameFor.
Qed.

Lemma move_inv (os : OS) (w w' : World) : Inv w → Move os w w' → Inv w'.
Proof.
  intros HI HM.
  destruct HM as [w0 w1 Hs|w0 i g n rd rd1 Hp Hi Hrd Hg|w0 i n rd Hp Hi Hrd|w0 n Hp
                 |w0 n Hp Hl].
  - by apply (Silent_inv w0).
  - by apply (launch_core_inv os n w0 i g rd rd1).
  - by apply (launchWait_inv os n w0 i rd).
  - by apply monitorVisit_inv.
  - by apply shutdownVisit_inv.
Qed.

Lemma Moves_one (os : OS) (w w' : World) : Move os w w' → Moves os w w'.
Proof. intros H. eapply Moves_more; [exact H|apply Moves_none]. Qed.

Lemma Moves_app (os : OS) (w1 w2 w3 : World) :
  Moves os w1 w2 → Moves os w2 w3 → Moves os w1 w3.
Proof.
  induction 1 as [|a b c Hab Hbc IH]; [done|]. intros H3.
  eapply Moves_more; [exact Hab|by apply IH].
Qed.

(** Every step is a short sequence of moves. *)
Lemma step_moves (os : OS) (st : Step) (w : World) : Moves os w (step os st w).
Proof.
  unfold step. destruct (panicked w) eqn:Hp; [apply Moves_none|].
  destruct st as [i|].
  - destruct (goroutines w !! i) as [g|] eqn:Hi; [|apply Moves_none].
    unfold runGoroutine.
    set (w1 := set_goroutines (delete i (goroutines w)) w).
    assert (Hl : ∀ g0, g0 = g → isLauncher g0 = false → Moves os w w1).
    { intros g0 -> Hg. apply Moves_one, Move_silent. by apply (Silent_leaves w i g). }
    destruct g as [|n|n|n|[|k todo]|[|k todo]].
    + destruct (gStopMon w); [by eapply Hl|].
      eapply Moves_app; [by eapply Hl|].
      apply Moves_one, Move_silent. by apply Silent_monitor_back.
    + destruct (locked (take i (goroutines w))); [apply Moves_none|].
      destruct (gProcRuntimeData w !! n) as [rd|] eqn:Hrd.
      * replace w1 with (store n rd w1)
          by (unfold store, set_registry, w1; cbn; by rewrite insert_id).
        apply Moves_one. apply (Move_launch os w i (GoLaunch n) n rd rd); auto.
      * unfold launchProcess. change (gProcRuntimeData w1) with (gProcRuntimeData w).
        rewrite Hrd. apply Moves_one, Move_silent.
        apply (Silent_absent w i (GoLaunch n) n); auto.
    + destruct (locked (goroutines w)); [apply Moves_none|].
      destruct (gProcRuntimeData w !! n) as [rd|] eqn:Hrd.
      * apply Moves_one. by apply (Move_launchWait os w i n rd).
      * unfold launchProcessAndWait.
        change (gProcRuntimeData w1) with (gProcRuntimeData w).
        rewrite Hrd. apply Moves_one, Move_silent.
        apply (Silent_absent w i (GoLaunchAndWait n) n); auto.
    + destruct (locked (take i (goroutines w))); [apply Moves_none|].
      unfold restartProcess. change (gProcRuntimeData w1) with (gProcRuntimeData w).
      destruct (gProcRuntimeData w !! n) as [rd|] eqn:Hrd.
      * apply Moves_one. apply (Move_launch os w i (GoRestart n) n rd); auto.
      * apply Moves_one, Move_silent.
        apply (Silent_absent w i (GoRestart n) n); auto.
    + eapply Moves_app; [by eapply Hl|].
      apply Moves_one, Move_silent. by apply Silent_monitor_back.
    + eapply Moves_app; [by eapply Hl|].
      eapply Moves_more; [by apply (Move_monitorVisit os w1 k)|].
      apply Moves_one, Move_silent. by apply Silent_monitor_back.
    + by eapply Hl.
    + eapply Moves_more.
      * apply (Move_shutdownVisit os w k); [done|by eapply locked_lookup].
      * apply Moves_one, Move_silent.
        apply (Silent_shutdown_on _ i (k :: todo)).
        by rewrite shutdownVisit_goroutines.
  - eapply Moves_more; [apply Move_silent, Silent_stop|].
    cbn [goroutines set_gStopMon].
    destruct (locked (goroutines w)); [apply Moves_none|].
    apply Moves_one, Move_silent. by apply Silent_shutdown_begins.
Qed.

Lemma moves_inv (os : OS) (w w' : World) : Inv w → Moves os w w' → Inv w'.
Proof.
  intros HI HM. induction HM as [|a b c Hab Hbc IH]; [done|].
  apply IH. by apply (move_inv os a).
Qed.

Lemma step_inv (os : OS) (st : Step) (w : World) : Inv w → Inv (step os st w).
Proof. intros HI. apply (moves_inv os w); [done|apply step_moves]. Qed.

Lemma run_inv (sched : list (OS * Step)) (w : World) : Inv w → Inv (run sched w).
Proof. unfold run. apply foldl_inv. intros w0 a. apply step_inv. Qed.

Lemma run_app (s1 s2 : list (OS * Step)) (w : World) :
  run (s1 ++ s2) w = run s2 (run s1 w).
Proof. unfold run. apply foldl_app. Qed.

(** ** The world after start-up *)

Lemma registry_built (tasks : list ProcessConfig)
    (m0 : gmap string GPCProcRuntimeData) (n : string) (rd : GPCProcRuntimeData) :
  foldl (λ m c, <[Name c := NewProcRuntimeData c]> m) m0 tasks !! n = Some rd →
  (∃ c, c ∈ tasks ∧ Name c = n ∧ rd = NewProcRuntimeData c) ∨ m0 !! n = Some rd.
Proof.
  revert m0. induction tasks as [|c tasks IH]; intros m0 H; simpl in *; [by right|].
  destruct (IH _ H) as [(c' & Hin & Hn & Hr)|H0].
  - left. exists c'. split; [by right|done].
  - rewrite lookup_insert in H0. case_decide as Hd.
    + inversion H0. left. exists c. split; [by left|done].
    + by right.
Qed.

Lemma launcherOf_cases (k : string) (v : GPCProcRuntimeData) :
  (launcherOf (k, v) = GoLaunchAndWait k ∧
   (0 <? WaitForExitTimeoutS (procConfig v)) = true) ∨
  (launcherOf (k, v) = GoLaunch k ∧
   (0 <? WaitForExitTimeoutS (procConfig v)) = false).
Proof. unfold launcherOf. cbn. destruct (0 <? _); auto. Qed.

Lemma pool_counts (l : list (string * GPCProcRuntimeData)) (n : string) :
  NoDup l.*1 →
  cntGo (GoRestart n) (launcherOf <$> l) = 0%nat ∧
  (n ∉ l.*1 → cntGo (GoLaunch n) (launcherOf <$> l) = 0%nat ∧
               cntGo (GoLaunchAndWait n) (launcherOf <$> l) = 0%nat) ∧
  (∀ rd, (n, rd) ∈ l →
     if 0 <? WaitForExitTimeoutS (procConfig rd)
     then cntGo (GoLaunch n) (launcherOf <$> l) = 0%nat ∧
          cntGo (GoLaunchAndWait n) (launcherOf <$> l) = 1%nat
     else cntGo (GoLaunch n) (launcherOf <$> l) = 1%nat ∧
          cntGo (GoLaunchAndWait n) (launcherOf <$> l) = 0%nat).
Proof.
  induction l as [|[k v] l IH]; intros Hnd.
  - repeat split; try done. intros rd H. by apply elem_of_nil in H.
  - rewrite fmap_cons in Hnd. apply NoDup_cons in Hnd as [Hk Hnd].
    destruct (IH Hnd) as (IHr & IHn & IHi).
    rewrite !fmap_cons. cbn [cntGo fst].
    split; [|split].
    + rewrite IHr. destruct (launcherOf_cases k v) as [[-> _]|[-> _]];
        case_decide; try congruence; done.
    + intros Hn. apply not_elem_of_cons in Hn as [Hne Hn].
      destruct (IHn Hn) as [-> ->].
      destruct (launcherOf_cases k v) as [[-> _]|[-> _]];
        repeat case_decide; try congruence; done.
    + intros rd Hin. apply elem_of_cons in Hin as [Heq|Hin].
      * inversion Heq; subst k v. destruct (IHn Hk) as [-> ->].
        destruct (launcherOf_cases n rd) as [[-> ->]|[-> ->]];
          repeat case_decide; try congruence; done.
      * assert (Hne : n ≠ k).
        { intros ->. apply Hk. apply list_elem_of_fmap. by exists (k, rd). }
        specialize (IHi rd Hin).
        destruct (launcherOf_cases k v) as [[-> _]|[-> _]];
          destruct (0 <? WaitForExitTimeoutS (procConfig rd));
          repeat case_decide; try congruence; destruct IHi as [-> ->]; done.
Qed.

Lemma StartProcessesFromConfig_inv (configData : ConfigData) :
  wf_configData configData → Inv (StartProcessesFromConfig configData).
Proof.
  intros Hwf. split; [|intros h f H; cbn in H; by rewrite lookup_nil in H].
  intros n rd Hrd.
  set (reg := gProcRuntimeData (StartProcessesFromConfig configData)) in *.
  destruct (registry_built _ _ _ _ Hrd) as [(c & Hin & Hn & ->)|H0];
    [|by rewrite lookup_empty in H0].
  assert (Hc : wf_config c).
  { unfold wf_configData in Hwf. rewrite Forall_forall in Hwf. by apply Hwf. }
  destruct (pool_counts (map_to_list reg) n (NoDup_fst_map_to_list reg))
    as (Hr & _ & Hi).
  specialize (Hi (NewProcRuntimeData c)).
  rewrite elem_of_map_to_list in Hi. specialize (Hi Hrd).
  change (procConfig (NewProcRuntimeData c)) with c in Hi.
  set (w0 := StartProcessesFromConfig configData) in *.
  assert (Hgs : ∀ g, g ≠ GoMonitor →
                     cntGo g (goroutines w0) = cntGo g (launcherOf <$> map_to_list reg)).
  { intros g Hg. change (goroutines w0)
      with (GoMonitor :: (launcherOf <$> map_to_list reg)).
    cbn [cntGo]. by rewrite decide_False. }
  assert (Hl : launches n w0 = 0%nat) by done.
  assert (He : exits n w0 = 0%nat) by done.
  destruct Hc as (Hd & [? ?] & [? ?]).
  constructor; unfold pendingFor; rewrite ?Hgs, ?Hl, ?He, ?Hr by done;
    change (procConfig (NewProcRuntimeData c)) with c;
    change (procStatus (NewProcRuntimeData c))
      with {| pid := 0; active := false; error := false; timeout := false;
              done := false; restartCount := 0 |};
    cbn [pid active error timeout restartCount];
    destruct (Z.ltb_spec 0 (WaitForExitTimeoutS c)); destruct Hi as [E1 E2];
    rewrite ?E1, ?E2; try done; try lia.
  all: repeat split; try done; try lia.
Qed.


(** ** Runs only add to the trace and never lower a restart count *)

Lemma Extends_refl (w w' : World) :
  trace w' = trace w → gProcRuntimeData w' = gProcRuntimeData w → Extends w w'.
Proof.
  intros Et Er. split; [exists []; by rewrite Et|].
  intros n rd H. exists rd. rewrite Er. repeat split; [done|lia].
Qed.

Lemma Extends_trans (w1 w2 w3 : World) :
  Extends w1 w2 → Extends w2 w3 → Extends w1 w3.
Proof.
  intros [[e1 E1] H1] [[e2 E2] H2]. split.
  - exists (e2 ++ e1). by rewrite E2, E1, app_assoc.
  - intros n rd Hn. destruct (H1 n rd Hn) as (rd2 & Hn2 & Hc2 & Hr2).
    destruct (H2 n rd2 Hn2) as (rd3 & Hn3 & Hc3 & Hr3).
    exists rd3. repeat split; [done|congruence|lia].
Qed.

Lemma Extends_update (n : string) (rd rd' : GPCProcRuntimeData) (w w' : World)
    (ev : list Event) :
  gProcRuntimeData w !! n = Some rd →
  gProcRuntimeData w' = <[n := rd']> (gProcRuntimeData w) →
  trace w' = ev ++ trace w →
  procConfig rd' = procConfig rd →
  restartCount (procStatus rd) ≤ restartCount (procStatus rd') →
  Extends w w'.
Proof.
  intros Hrd Er Et Hc Hr. split; [by exists ev|].
  intros m rdm Hm. rewrite Er, lookup_insert. case_decide as Hd.
  - subst m. rewrite Hrd in Hm. inversion Hm; subst rdm. by exists rd'.
  - exists rdm. repeat split; [done|lia].
Qed.

Lemma launch_core_extends (os : OS) (n : string) (w : World) (i : nat)
    (g : Goroutine) (rd rd1 : GPCProcRuntimeData) :
  Inv w →
  goroutines w !! i = Some g →
  gProcRuntimeData w !! n = Some rd →
  (g = GoLaunch n ∧ rd1 = rd) ∨
  (g = GoRestart n ∧
   rd1 = with_status (λ s, set_restartCount (wrap32 (restartCount s + 1)) s) rd) →
  Extends w (launchProcess os n (store n rd1 (set_goroutines (delete i (goroutines w)) w))).
Proof.
  intros HI Hi Hrd Hg.
  pose proof (proj1 HI n rd Hrd) as I.
  set (w1 := store n rd1 (set_goroutines (delete i (goroutines w)) w)).
  assert (Hrd1 : gProcRuntimeData w1 !! n = Some rd1) by apply lookup_insert_eq.
  destruct (launchProcess_spec os n w1 rd1 Hrd1)
    as (rd' & fs' & ev & Heq & Hc' & HL & Hev & Hst).
  assert (Hrc : restartCount (procStatus rd') = restartCount (procStatus rd1)).
  { destruct (startOf os _); by destruct Hst as [-> _]. }
  eapply (Extends_update n rd rd' w _ (ev ++ [_; _])); [done| | | |].
  - rewrite Heq. cbn. apply insert_insert_eq.
  - rewrite Heq. cbn. by rewrite <- app_assoc.
  - rewrite Hc'. by destruct Hg as [[_ ->]|[_ ->]].
  - rewrite Hrc. destruct Hg as [[_ ->]|[-> ->]]; [lia|]. cbn.
    destruct (pending_delete n (GoRestart n) _ i Hi) as [Hpd _]; [auto|].
    destruct (inv_restart _ _ _ I) as [_ Hlt].
    { unfold pendingFor in Hpd.
      rewrite (cntGo_delete_eq _ _ i Hi). lia. }
    pose proof (inv_rc _ _ _ I). destruct (inv_wf _ _ _ I) as (_ & [? ?] & _).
    rewrite wrap32_small; lia.
Qed.

Lemma launchWait_extends (os : OS) (n : string) (w : World) (i : nat)
    (rd : GPCProcRuntimeData) :
  Inv w →
  gProcRuntimeData w !! n = Some rd →
  Extends w (launchProcessAndWait os n (set_goroutines (delete i (goroutines w)) w)).
Proof.
  intros HI Hrd.
  pose proof (proj1 HI n rd Hrd) as I.
  set (w1 := set_goroutines (delete i (goroutines w)) w).
  destruct (launchProcessAndWait_spec os n w1 rd Hrd)
    as (rd' & fs' & Heq & Hc' & HL & Hst); [apply (inv_wf _ _ _ I)|].
  destruct (statusAfterRun_keeps os (StartPath (procConfig rd)) (procStatus rd))
    as (_ & Hr & _).
  eapply (Extends_update n rd rd' w _ [_; _]); [done| | |done|].
  - by rewrite Heq.
  - by rewrite Heq.
  - rewrite Hst, Hr. lia.
Qed.

Lemma monitorVisit_extends (os : OS) (n : string) (w : World) :
  Extends w (monitorVisit os n w).
Proof.
  destruct (gProcRuntimeData w !! n) as [rd|] eqn:Hrd;
    [|unfold monitorVisit; rewrite Hrd; by apply Extends_refl].
  destruct (monitorVisit_spec os n w rd Hrd) as [->|(_ & _ & _ & _ & Heq)];
    [by apply Extends_refl|].
  destruct (afterExit_fields rd) as (Fc & _ & _ & _ & _ & Fr & _).
  eapply (Extends_update n rd (afterExit rd) w _ (_ ++ [_])); [done| | |done|].
  - by rewrite Heq.
  - rewrite Heq. cbn. by rewrite <- app_assoc.
  - rewrite Fr. lia.
Qed.

Lemma shutdownVisit_extends (os : OS) (n : string) (w : World) :
  panicked w = false → Extends w (shutdownVisit os n w).
Proof.
  intros Hp. destruct (gProcRuntimeData w !! n) as [rd|] eqn:Hrd;
    [|unfold shutdownVisit; rewrite Hrd; by apply Extends_refl].
  rewrite (shutdownVisit_spec os n w rd Hrd Hp).
  assert (Hcore : ∀ ev, Extends w (afterShutdownVisit n rd ev w)).
  { intros ev. eapply (Extends_update n rd _ w); [done|done| |done|cbn; lia].
    cbn. by rewrite app_assoc. }
  destruct (checkProcessRunning os _); [done|].
  destruct (procCmd rd) as [c|]; [|by apply Extends_refl].
  destruct (Process c); [done|by apply Extends_refl].
Qed.

Lemma foldl_inv_extends {A : Type} (f : World → A → World) (l : list A) (w : World) :
  (∀ w a, Inv w → Inv (f w a) ∧ Extends w (f w a)) →
  Inv w → Inv (foldl f w l) ∧ Extends w (foldl f w l).
Proof.
  intros Hf. revert w. induction l as [|a l IH]; intros w HI; simpl.
  - split; [done|by apply Extends_refl].
  - destruct (Hf w a HI) as [H1 H2]. destruct (IH _ H1) as [H3 H4].
    split; [done|]. by eapply Extends_trans.
Qed.

Lemma move_extends (os : OS) (w w' : World) : Inv w → Move os w w' → Extends w w'.
Proof.
  intros HI HM.
  destruct HM as [w0 w1 Hs|w0 i g n rd rd1 Hp Hi Hrd Hg|w0 i n rd Hp Hi Hrd|w0 n Hp
                 |w0 n Hp Hl].
  - by apply Extends_refl; destruct Hs.
  - by apply (launch_core_extends os n w0 i g rd rd1).
  - by apply (launchWait_extends os n w0 i rd).
  - apply monitorVisit_extends.
  - by apply shutdownVisit_extends.
Qed.

Lemma moves_extends (os : OS) (w w' : World) : Inv w → Moves os w w' → Extends w w'.
Proof.
  intros HI HM. induction HM as [|a b c Hab Hbc IH]; [by apply Extends_refl|].
  eapply Extends_trans; [by apply (move_extends os a)|].
  apply IH. by apply (move_inv os a).
Qed.

Lemma step_extends (os : OS) (st : Step) (w : World) :
  Inv w → Extends w (step os st w).
Proof. intros HI. apply (moves_extends os w); [done|apply step_moves]. Qed.

Lemma run_extends (sched : list (OS * Step)) (w : World) :
  Inv w → Extends w (run sched w).
Proof.
  intros HI. unfold run. apply foldl_inv_extends; [|done].
  intros w0 a H0. split; [by apply step_inv|by apply step_extends].
Qed.

Lemma countEv_le_app (p : Event → bool) (ev tr : list Event) :
  (countEv p tr ≤ countEv p (ev ++ tr))%nat.
Proof. rewrite countEv_app. lia. Qed.

(** ** Shutdown *)

Lemma shutdownVisit_settles (os : OS) (k : string) (w : World) :
  Inv w → panicked w = false → panicked (shutdownVisit os k w) = false →
  settled k (shutdownVisit os k w) ∧
  ∀ n, settled n w → settled n (shutdownVisit os k w).
Proof.
  intros HI Hp Hp'.
  destruct (gProcRuntimeData w !! k) as [rd|] eqn:Hrd.
  - rewrite (shutdownVisit_spec os k w rd Hrd Hp) in *.
    assert (Hcore : ∀ ev,
      settled k (afterShutdownVisit k rd ev w) ∧
      ∀ n, settled n w → settled n (afterShutdownVisit k rd ev w)).
    { intros ev.
      destruct (closeFiles_closed k rd (with_status (set_active false) rd) w
                  (afterShutdownVisit k rd ev w) eq_refl eq_refl
                  (inv_log _ _ _ (proj1 HI k rd Hrd))) as [Hc _].
      assert (Hk : settled k (afterShutdownVisit k rd ev w)).
      { intros rd'. cbn. rewrite lookup_insert_eq. intros [= <-]. done. }
      split; [done|]. intros n Hn. destruct (decide (n = k)) as [->|Hne]; [done|].
      intros rd'. cbn. rewrite lookup_insert_ne by done. intros Hrd'.
      destruct (Hn rd' Hrd') as [Ha Hs]. split; [done|].
      intros h Hh. destruct (Hs h Hh) as (f & Hf & Hcl).
      destruct (FilesMono_close w (afterShutdownVisit k rd ev w) (procLog rd) eq_refl
                  h f Hf) as (f' & ? & ? & ?). eauto. }
    destruct (checkProcessRunning os _); [apply Hcore|].
    destruct (procCmd rd) as [c|]; [|done].
    destruct (Process c); [apply Hcore|done].
  - unfold shutdownVisit. rewrite Hrd. split; [|done].
    intros rd. by rewrite Hrd.
Qed.

Lemma shutdown_loop_panicked (os : OS) (ks : list string) (w : World) :
  panicked w = true →
  foldl (λ w procName, if panicked w then w else shutdownVisit os procName w) w ks = w.
Proof. intros Hp. induction ks as [|k ks IH]; simpl; [done|]. by rewrite Hp. Qed.

Lemma inactive_record (rd : GPCProcRuntimeData) :
  active (procStatus rd) = false → with_status (set_active false) rd = rd.
Proof. destruct rd as [c cmd l [p a e t d r]]. cbn. by intros ->. Qed.

Lemma closeEvents_no_kill (l : option nat) : countEv isKillRequest (closeEvents l) = 0%nat.
Proof. by destruct l. Qed.

(** ** A call of ShutdownAll among the other goroutines *)

Lemma monitorVisit_flags (os : OS) (n : string) (w : World) :
  gStopMon (monitorVisit os n w) = gStopMon w ∧
  panicked (monitorVisit os n w) = panicked w.
Proof.
  destruct (gProcRuntimeData w !! n) as [rd|] eqn:Hrd;
    [|by unfold monitorVisit; rewrite Hrd].
  destruct (monitorVisit_spec os n w rd Hrd) as [->|(_ & _ & _ & _ & ->)]; done.
Qed.


Lemma app_cons_cases {A : Type} (pre post l1 l2 : list A) (G g : A) :
  pre ++ G :: post = l1 ++ g :: l2 →
  (∃ m, pre = l1 ++ g :: m ∧ l2 = m ++ G :: post) ∨
  (pre = l1 ∧ G = g ∧ post = l2) ∨
  (∃ m, l1 = pre ++ G :: m ∧ post = m ++ g :: l2).
Proof.
  revert l1. induction pre as [|a pre IH]; intros [|y l1] H; simpl in *;
    inversion H; subst.
  - right. left. done.
  - right. right. by exists l1.
  - left. by exists pre.
  - destruct (IH l1 H2) as [(m & -> & ->)|[(-> & -> & ->)|(m & -> & ->)]].
    + left. by exists m.
    + right. left. done.
    + right. right. by exists m.
Qed.

Lemma locked_app (l1 l2 : list Goroutine) : locked (l1 ++ l2) = locked l1 || locked l2.
Proof. apply existsb_app. Qed.

Lemma locked_none (l : list Goroutine) :
  Forall (λ g, isShutdown g = false) l → locked l = false.
Proof.
  induction 1 as [|g l Hg _ IH]; [done|]. unfold locked in *. cbn. by rewrite Hg, IH.
Qed.

Lemma locked_none_inv (l : list Goroutine) :
  locked l = false → Forall (λ g, isShutdown g = false) l.
Proof.
  induction l as [|g l IH]; [constructor|]. unfold locked in *. cbn. intros H.
  apply orb_false_iff in H as [Hg Hl]. constructor; auto.
Qed.

Lemma step_panicked (os : OS) (st : Step) (w : World) :
  panicked w = true → step os st w = w.
Proof. intros H. unfold step. by rewrite H. Qed.

Lemma run_panicked (sched : list (OS * Step)) (w : World) :
  panicked w = true → run sched w = w.
Proof.
  induction sched as [|a sched IH]; [done|]. intros H.
  change (run (a :: sched) w) with (run sched (step a.1 a.2 w)).
  rewrite (step_panicked _ _ _ H). by apply IH.
Qed.

Lemma ActiveDown_refl (w w' : World) :
  gProcRuntimeData w' = gProcRuntimeData w → ActiveDown w w'.
Proof. intros E n rd Hrd. rewrite E in Hrd. eauto. Qed.

Lemma monitorVisit_down (os : OS) (k : string) (w : World) :
  ∃ ex, goroutines (monitorVisit os k w) = goroutines w ++ ex ∧
        Forall (λ g, isShutdown g = false) ex ∧
        panicked (monitorVisit os k w) = panicked w ∧
        ActiveDown w (monitorVisit os k w).
Proof.
  destruct (gProcRuntimeData w !! k) as [rd|] eqn:Hrd.
  - destruct (monitorVisit_spec os k w rd Hrd) as [->|(_ & _ & _ & _ & ->)].
    + exists []. rewrite app_nil_r. repeat split; [constructor|by apply ActiveDown_refl].
    + exists (restartAfterExit k rd). cbn. split; [done|]. split; [|split; [done|]].
      * unfold restartAfterExit. destruct (_ && _); repeat constructor.
      * intros n rd'. cbn. destruct (decide (n = k)) as [->|Hne].
        -- rewrite lookup_insert_eq. intros [= <-]. exists rd. split; [done|].
           intros _. by destruct (afterExit_fields rd) as (_ & _ & _ & ? & _).
        -- rewrite lookup_insert_ne by done. eauto.
  - unfold monitorVisit. rewrite Hrd. exists []. rewrite app_nil_r.
    repeat split; [constructor|by apply ActiveDown_refl].
Qed.

(** What the monitor does in a step: it leaves its place in the pool, new
    goroutines come to the end of the pool, and no record gets active. *)
Lemma runGoroutine_monitor (os : OS) (i : nat) (g : Goroutine) (w : World) :
  isMonitor g = true →
  ∃ ex, goroutines (runGoroutine os i g w) = delete i (goroutines w) ++ ex ∧
        Forall (λ g, isShutdown g = false) ex ∧
        panicked (runGoroutine os i g w) = panicked w ∧
        ActiveDown w (runGoroutine os i g w).
Proof.
  intros Hg. unfold runGoroutine.
  set (rest := set_goroutines (delete i (goroutines w)) w).
  destruct g as [| | | |[|k todo]|]; try done.
  - destruct (gStopMon w).
    + exists []. rewrite app_nil_r. repeat split; [constructor|by apply ActiveDown_refl].
    + eexists [_]. repeat split; [by repeat constructor|by apply ActiveDown_refl].
  - eexists [_]. repeat split; [by repeat constructor|by apply ActiveDown_refl].
  - destruct (monitorVisit_down os k rest) as (ex & Hgs & Hex & Hp & Hd).
    exists (ex ++ [GoMonitorScan todo]). unfold spawn. cbn [goroutines set_goroutines].
    rewrite Hgs. cbn. rewrite <- app_assoc. repeat split.
    + apply Forall_app. split; [done|by repeat constructor].
    + by rewrite Hp.
    + done.
Qed.

(** What a launcher does to the pool when it is not held up: it leaves. *)
Lemma runGoroutine_launcher (os : OS) (i : nat) (g : Goroutine) (w : World) :
  Inv w → isLauncher g = true →
  runGoroutine os i g w = w ∨
  goroutines (runGoroutine os i g w) = delete i (goroutines w).
Proof.
  intros HI Hg. unfold runGoroutine.
  set (rest := set_goroutines (delete i (goroutines w)) w).
  destruct g as [|n|n|n| |]; try done.
  - destruct (locked _); [by left|]. right.
    destruct (gProcRuntimeData rest !! n) as [rd|] eqn:Hrd.
    + destruct (launchProcess_spec os n rest rd Hrd) as (? & ? & ? & -> & _). done.
    + unfold launchProcess. by rewrite Hrd.
  - destruct (locked _); [by left|]. right.
    destruct (gProcRuntimeData rest !! n) as [rd|] eqn:Hrd.
    + destruct (launchProcessAndWait_spec os n rest rd Hrd) as (? & ? & -> & _);
        [apply (inv_wf _ _ _ (proj1 HI n rd Hrd))|done].
    + unfold launchProcessAndWait. by rewrite Hrd.
  - destruct (locked _); [by left|]. right. unfold restartProcess.
    destruct (gProcRuntimeData rest !! n) as [rd|] eqn:Hrd; [|done].
    match goal with |- goroutines (launchProcess os n ?w0) = _ =>
      destruct (launchProcess_spec os n w0 _ (lookup_insert_eq _ n _))
        as (? & ? & ? & -> & _) end.
    done.
Qed.

Lemma shutdownVisit_down (os : OS) (k : string) (w : World) (todo : list string) :
  panicked w = false →
  (∀ n rd, gProcRuntimeData w !! n = Some rd →
           n ∈ k :: todo ∨ active (procStatus rd) = false) →
  panicked (shutdownVisit os k w) = false →
  ∀ n rd, gProcRuntimeData (shutdownVisit os k w) !! n = Some rd →
          n ∈ todo ∨ active (procStatus rd) = false.
Proof.
  intros Hp Hall Hp' n rd'.
  destruct (gProcRuntimeData w !! k) as [rd|] eqn:Hrd.
  - rewrite (shutdownVisit_spec os k w rd Hrd Hp) in Hp' |- *.
    assert (Hcore : ∀ ev, gProcRuntimeData (afterShutdownVisit k rd ev w) !! n = Some rd' →
                          n ∈ todo ∨ active (procStatus rd') = false).
    { intros ev. cbn. destruct (decide (n = k)) as [->|Hne].
      - rewrite lookup_insert_eq. intros [= <-]. by right.
      - rewrite lookup_insert_ne by done. intros Hn.
        destruct (Hall n rd' Hn) as [Hin|]; [|by right].
        apply elem_of_cons in Hin as [->|]; [done|by left]. }
    destruct (checkProcessRunning os _); [apply Hcore|].
    destruct (procCmd rd) as [c|]; [|done].
    destruct (Process c); [apply Hcore|done].
  - unfold shutdownVisit. rewrite Hrd. intros Hn.
    destruct (Hall n rd' Hn) as [Hin|]; [|by right].
    apply elem_of_cons in Hin as [->|]; [congruence|by left].
Qed.

(** As long as the supervisor is not told again to shut down, a call of
    [ShutdownAll] that is under way stays as [ShuttingDown] says until it
    returns, and no other call begins. *)
Lemma step_shuttingDown (os : OS) (st : Step) (w : World) :
  Inv w → st ≠ ShutdownRequest →
  (∃ todo, ShuttingDown todo w) ∨ locked (goroutines w) = false →
  (∃ todo, ShuttingDown todo (step os st w)) ∨
  locked (goroutines (step os st w)) = false.
Proof.
  intros HI Hst HC. unfold step. destruct (panicked w) eqn:Hp; [done|].
  destruct st as [i|]; [|done].
  destruct (goroutines w !! i) as [g|] eqn:Hi; [|done].
  pose proof (take_drop_middle _ _ _ Hi) as Hsplit.
  pose proof (delete_take_drop (goroutines w) i) as Hdel.
  set (l1 := take i (goroutines w)) in *.
  set (l2 := drop (S i) (goroutines w)) in *.
  destruct HC as [[todo (pre & post & Hpool & Hpre & Hpost & Hact)]|Hunl].
  - assert (Hlk : locked (goroutines w) = true).
    { rewrite Hpool, locked_app. cbn. apply orb_true_r. }
    assert (Hmon : ∀ pre' post',
              isMonitor g = true →
              delete i (goroutines w) = pre' ++ GoShutdown todo :: post' →
              Forall (λ g, isFireAndForget g = false ∧ isShutdown g = false) pre' →
              Forall (λ g, isShutdown g = false) post' →
              ∃ todo', ShuttingDown todo' (runGoroutine os i g w)).
    { intros pre' post' Hg Hd Hpre' Hpost'.
      destruct (runGoroutine_monitor os i g w Hg) as (ex & Hgs & Hex & Hp' & Hdown).
      exists todo, pre', (post' ++ ex). rewrite Hgs, Hd, <- app_assoc. cbn.
      split; [done|]. split; [done|]. split; [by apply Forall_app|].
      rewrite Hp'. intros _ n rd' Hn. destruct (Hdown n rd' Hn) as (rd & Hrd & Ha).
      destruct (Hact Hp n rd Hrd); auto. }
    rewrite <- Hsplit in Hpool. symmetry in Hpool.
    apply app_cons_cases in Hpool
      as [(m & Epre & El2)|[(Epre & EG & Epost)|(m & El1 & Epost)]].
    + (* a goroutine that came before the call *)
      assert (Hg : isFireAndForget g = false ∧ isShutdown g = false).
      { rewrite Epre in Hpre. apply Forall_app in Hpre as [_ Hpre].
        by inversion Hpre. }
      destruct g as [|n|n|n|t|t]; try (by destruct Hg).
      * left. apply (Hmon (l1 ++ m) post); [done|..|done].
        -- rewrite Hdel, El2. by rewrite app_assoc.
        -- rewrite Epre in Hpre. apply Forall_app in Hpre as [H1 H2].
           apply Forall_app. split; [done|by inversion H2].
      * left. exists todo. unfold runGoroutine. rewrite Hlk.
        exists pre, post. rewrite <- Hsplit, Epre, El2, <- app_assoc. cbn.
        split; [done|]. split; [by rewrite <- Epre|]. split; [done|]. done.
      * left. apply (Hmon (l1 ++ m) post); [done|..|done].
        -- rewrite Hdel, El2. by rewrite app_assoc.
        -- rewrite Epre in Hpre. apply Forall_app in Hpre as [H1 H2].
           apply Forall_app. split; [done|by inversion H2].
    + (* the call itself *)
      subst g pre post. destruct todo as [|k todo]; unfold runGoroutine.
      * right. cbn [goroutines set_goroutines]. rewrite Hdel, locked_app.
        rewrite (locked_none l2) by done.
        rewrite (locked_none l1); [done|].
        eapply Forall_impl; [exact Hpre|]. by intros ? [_ ?].
      * left. exists todo, l1, l2. cbn [goroutines set_goroutines panicked].
        rewrite shutdownVisit_goroutines.
        rewrite insert_take_drop by (by eapply lookup_lt_Some).
        split; [done|]. split; [done|]. split; [done|].
        intros Hp'. apply (shutdownVisit_down os k w todo Hp); [|done].
        by apply Hact.
    + (* a goroutine that came after the call took the lock *)
      assert (Hg : isShutdown g = false).
      { rewrite Epost in Hpost. apply Forall_app in Hpost as [_ Hpost].
        by inversion Hpost. }
      assert (Hl1 : locked l1 = true).
      { rewrite El1, locked_app. cbn. apply orb_true_r. }
      assert (Hsame : ∃ todo', ShuttingDown todo' w).
      { exists todo, pre, (m ++ g :: l2). rewrite <- Hsplit, El1, <- app_assoc. cbn.
        split; [done|]. split; [done|]. split; [by rewrite <- Epost|done]. }
      destruct g as [|n|n|n|t|t]; try done.
      * left. apply (Hmon pre (m ++ l2)); [done|..].
        -- rewrite Hdel, El1, <- app_assoc. done.
        -- done.
        -- rewrite Epost in Hpost. apply Forall_app in Hpost as [H1 H2].
           apply Forall_app. split; [done|by inversion H2].
      * left. unfold runGoroutine. fold l1. by rewrite Hl1.
      * left. unfold runGoroutine. by rewrite Hlk.
      * left. unfold runGoroutine. fold l1. by rewrite Hl1.
      * left. apply (Hmon pre (m ++ l2)); [done|..].
        -- rewrite Hdel, El1, <- app_assoc. done.
        -- done.
        -- rewrite Epost in Hpost. apply Forall_app in Hpost as [H1 H2].
           apply Forall_app. split; [done|by inversion H2].
  - right. pose proof (locked_none_inv _ Hunl) as Hall.
    assert (Hg : isShutdown g = false).
    { rewrite <- Hsplit in Hall. apply Forall_app in Hall as [_ Hall].
      by inversion Hall. }
    assert (Hrest : locked (delete i (goroutines w)) = false).
    { rewrite Hdel. rewrite <- Hsplit in Hall. apply Forall_app in Hall as [H1 H2].
      apply locked_none, Forall_app. split; [done|by inversion H2]. }
    destruct (isLauncher g) eqn:HL.
    + destruct (runGoroutine_launcher os i g w HI HL) as [->| ->]; done.
    + assert (Hm : isMonitor g = true) by (by destruct g).
      destruct (runGoroutine_monitor os i g w Hm) as (ex & -> & Hex & _).
      rewrite locked_app, Hrest. by apply locked_none.
Qed.

Lemma run_shuttingDown (sched : list (OS * Step)) (w : World) :
  Inv w → Forall (λ s, s.2 ≠ ShutdownRequest) sched →
  (∃ todo, ShuttingDown todo w) ∨ locked (goroutines w) = false →
  (∃ todo, ShuttingDown todo (run sched w)) ∨
  locked (goroutines (run sched w)) = false.
Proof.
  revert w. induction sched as [|a sched IH]; intros w HI Hs HC; [done|].
  inversion Hs; subst.
  change (run (a :: sched) w) with (run sched (step a.1 a.2 w)).
  apply IH; [by apply step_inv|done|by apply step_shuttingDown].
Qed.

(** The call begins: no launcher that does not wait is in the pool, and
    every entry is still to be visited. *)
Lemma ShutdownRequest_begins (os : OS) (w : World) :
  panicked w = false → locked (goroutines w) = false →
  Forall (λ g, isFireAndForget g = false) (goroutines w) →
  ShuttingDown (rangeKeys w) (step os ShutdownRequest w).
Proof.
  intros Hp Hl Hff. unfold step. rewrite Hp. cbn [goroutines set_gStopMon].
  rewrite Hl. exists (goroutines w), []. split; [done|]. split.
  - pose proof (locked_none_inv _ Hl) as Hn.
    apply Forall_forall. intros g Hg. split.
    + by apply (proj1 (Forall_forall _ _) Hff).
    + by apply (proj1 (Forall_forall _ _) Hn).
  - split; [constructor|]. intros _ n rd Hrd. left.
    unfold rangeKeys. apply list_elem_of_fmap. exists (n, rd).
    split; [done|]. by apply elem_of_map_to_list.
Qed.

(** The call is about to return: every record is inactive. *)
Lemma ShuttingDown_returns (todo : list string) (w : World) (j : nat) :
  ShuttingDown todo w → goroutines w !! j = Some (GoShutdown []) →
  panicked w = false →
  ∀ n rd, gProcRuntimeData w !! n = Some rd → active (procStatus rd) = false.
Proof.
  intros (pre & post & Hpool & Hpre & Hpost & Hact) Hj Hp n rd Hrd.
  pose proof (take_drop_middle _ _ _ Hj) as Hsplit.
  rewrite <- Hsplit in Hpool. symmetry in Hpool.
  apply app_cons_cases in Hpool
    as [(m & Epre & _)|[(_ & EG & _)|(m & _ & Epost)]].
  - rewrite Epre in Hpre. apply Forall_app in Hpre as [_ Hpre].
    inversion Hpre as [|? ? [_ Hs] _]. done.
  - inversion EG; subst todo. destruct (Hact Hp n rd Hrd) as [Hin|]; [|done].
    by apply elem_of_nil in Hin.
  - rewrite Epost in Hpost. apply Forall_app in Hpost as [_ Hpost].
    by inversion Hpost.
Qed.
(** ** A scan and a shutdown that nothing else interrupts *)

Lemma set_goroutines_id (w : World) : set_goroutines (goroutines w) w = w.
Proof. by destruct w. Qed.

Lemma shutdownVisit_pool (os : OS) (k : string) (gs : list Goroutine) (w : World) :
  shutdownVisit os k (set_goroutines gs w) = set_goroutines gs (shutdownVisit os k w).
Proof.
  unfold shutdownVisit. cbn [gProcRuntimeData set_goroutines].
  destruct (gProcRuntimeData w !! k) as [rd|]; [|done].
  unfold killProcess, Process_Release.
  destruct (checkProcessRunning os _); cbn.
  - destruct (panicked w); [done|]. rewrite !closeLog_spec. done.
  - destruct (procCmd rd) as [c|]; [|done]. destruct (Process c) as [p|]; [|done].
    destruct (Cmd_Run os _) as [kc err]. cbn.
    destruct (panicked w); [done|]. rewrite !closeLog_spec. done.
Qed.

Lemma shutdown_loop_pool (os : OS) (ks : list string) (gs : list Goroutine) (w : World) :
  foldl (λ w procName, if panicked w then w else shutdownVisit os procName w)
    (set_goroutines gs w) ks
  = set_goroutines gs
      (foldl (λ w procName, if panicked w then w else shutdownVisit os procName w) w ks).
Proof.
  revert w. induction ks as [|k ks IH]; intros w; [done|]. cbn [foldl].
  change (panicked (set_goroutines gs w)) with (panicked w).
  destruct (panicked w); [apply IH|]. rewrite shutdownVisit_pool. apply IH.
Qed.

Lemma shutdown_loop_goroutines (os : OS) (ks : list string) (w : World) :
  goroutines
    (foldl (λ w procName, if panicked w then w else shutdownVisit os procName w) w ks)
  = goroutines w.
Proof.
  revert w. induction ks as [|k ks IH]; intros w; [done|]. cbn [foldl].
  destruct (panicked w); [apply IH|]. rewrite IH. apply shutdownVisit_goroutines.
Qed.

Lemma shutdown_steps (os : OS) (todo : list string) (j : nat) (gs : list Goroutine)
    (w : World) :
  goroutines w !! j = Some (GoShutdown todo) →
  set_goroutines gs (run (replicate (S (length todo)) (os, Resume j)) w)
  = set_goroutines gs
      (foldl (λ w procName, if panicked w then w else shutdownVisit os procName w)
         w todo).
Proof.
  revert w. induction todo as [|k todo IH]; intros w Hj.
  - cbn. unfold step. destruct (panicked w); [done|]. by rewrite Hj.
  - change (run (replicate (S (length (k :: todo))) (os, Resume j)) w)
      with (run (replicate (S (length todo)) (os, Resume j)) (step os (Resume j) w)).
    cbn [foldl]. unfold step. destruct (panicked w) eqn:Hp.
    + by rewrite (run_panicked _ _ Hp), (shutdown_loop_panicked _ _ _ Hp).
    + rewrite Hj. unfold runGoroutine. rewrite IH.
      * by rewrite shutdown_loop_pool.
      * cbn [goroutines set_goroutines]. rewrite shutdownVisit_goroutines.
        apply list_lookup_insert_eq. by eapply lookup_lt_Some.
Qed.

(** [ShutdownAll] is what the steps of a call do when no other goroutine
    runs between them: the request, the visits, and the return. *)
Lemma ShutdownAll_as_steps (os : OS) (w : World) :
  panicked w = false → locked (goroutines w) = false →
  set_goroutines (goroutines w)
    (run (replicate (S (length (rangeKeys w))) (os, Resume (length (goroutines w))))
       (step os ShutdownRequest w))
  = ShutdownAll os w.
Proof.
  intros Hp Hl. unfold step. rewrite Hp. cbn [goroutines set_gStopMon]. rewrite Hl.
  change (rangeKeys (set_gStopMon true w)) with (rangeKeys w).
  rewrite shutdown_steps.
  - unfold spawn. rewrite shutdown_loop_pool. cbn [set_goroutines].
    unfold ShutdownAll. change (rangeKeys (set_gStopMon true w)) with (rangeKeys w).
    rewrite <- (set_goroutines_id (foldl _ (set_gStopMon true w) (rangeKeys w))) at 2.
    by rewrite shutdown_loop_goroutines.
  - unfold spawn. cbn [goroutines set_goroutines set_gStopMon].
    rewrite lookup_app_r by done. by rewrite Nat.sub_diag.
Qed.

Lemma scan_steps (os : OS) (todo : list string) (gs : list Goroutine) (w : World) :
  panicked w = false →
  goroutines w = gs ++ [GoMonitorScan todo] →
  ∃ sched,
    Forall (λ s, s.1 = os ∧ s.2 ≠ ShutdownRequest) sched ∧
    run sched w
    = spawn GoMonitor
        (foldl (λ w procName, monitorVisit os procName w) (set_goroutines gs w) todo).
Proof.
  revert gs w. induction todo as [|k todo IH]; intros gs w Hp Hg.
  - exists [(os, Resume (length gs))]. split; [by repeat constructor|].
    cbn. unfold step. rewrite Hp, Hg, lookup_app_r by done.
    rewrite Nat.sub_diag. cbn [lookup list_lookup]. unfold runGoroutine.
    rewrite Hg, delete_take_drop, take_app_length, drop_ge by (rewrite length_app; cbn; lia).
    by rewrite app_nil_r.
  - set (w1 := monitorVisit os k (set_goroutines gs w)).
    destruct (IH (goroutines w1) (spawn (GoMonitorScan todo) w1))
      as (sched & Hs & Hrun).
    + cbn. unfold w1. by rewrite (proj2 (monitorVisit_flags os k _)).
    + done.
    + exists ((os, Resume (length gs)) :: sched). split; [by constructor|].
      change (run ((os, Resume (length gs)) :: sched) w)
        with (run sched (step os (Resume (length gs)) w)).
      assert (Hst : step os (Resume (length gs)) w = spawn (GoMonitorScan todo) w1).
      { unfold step. rewrite Hp, Hg, lookup_app_r by done.
        rewrite Nat.sub_diag. cbn [lookup list_lookup]. unfold runGoroutine.
        rewrite Hg, delete_take_drop, take_app_length,
          drop_ge by (rewrite length_app; cbn; lia).
        by rewrite app_nil_r. }
      rewrite Hst, Hrun. unfold spawn at 2.
      change (set_goroutines (goroutines w1) (set_goroutines _ w1))
        with (set_goroutines (goroutines w1) w1).
      by rewrite set_goroutines_id.
Qed.

(** [monitorProcesses] is what the steps of the monitor do in one turn of
    its outer loop when no other goroutine runs between them. *)
Lemma monitorProcesses_as_steps (os : OS) (w : World) (i : nat) :
  panicked w = false → goroutines w !! i = Some GoMonitor →
  ∃ sched,
    Forall (λ s, s.1 = os ∧ s.2 ≠ ShutdownRequest) sched ∧
    run sched w = monitorProcesses os (set_goroutines (delete i (goroutines w)) w).
Proof.
  intros Hp Hi. unfold monitorProcesses. cbn [gStopMon set_goroutines].
  assert (Hst : step os (Resume i) w
                = if gStopMon w then set_goroutines (delete i (goroutines w)) w
                  else spawn (GoMonitorScan (rangeKeys w))
                         (set_goroutines (delete i (goroutines w)) w)).
  { unfold step. by rewrite Hp, Hi. }
  destruct (gStopMon w).
  - exists [(os, Resume i)]. split; [by repeat constructor|]. cbn. by rewrite Hst.
  - destruct (scan_steps os (rangeKeys w) (delete i (goroutines w))
                (spawn (GoMonitorScan (rangeKeys w))
                   (set_goroutines (delete i (goroutines w)) w)) Hp eq_refl)
      as (sched & Hs & Hrun).
    exists ((os, Resume i) :: sched). split; [by constructor|].
    change (run ((os, Resume i) :: sched) w) with (run sched (step os (Resume i) w)).
    by rewrite Hst, Hrun.
Qed.


(** ** The restart budget *)

(** C7. Throughout a run the restart count of a record stays between 0 and
    the configured [MaxRestarts], and whatever the supervisor does next,
    by any schedule, the record is still there with a count that is not
    smaller. *)
Theorem restartCount_monotone_bounded (configData : ConfigData)
    (sched sched' : list (OS * Step)) (n : string) (rd : GPCProcRuntimeData) :
  wf_configData configData →
  gProcRuntimeData (run sched (StartProcessesFromConfig configData)) !! n = Some rd →
  0 ≤ restartCount (procStatus rd) ≤ MaxRestarts (procConfig rd) ∧
  ∃ rd', gProcRuntimeData (run (sched ++ sched') (StartProcessesFromConfig configData)) !! n
           = Some rd' ∧
         procConfig rd' = procConfig rd ∧
         restartCount (procStatus rd) ≤ restartCount (procStatus rd') ∧
         restartCount (procStatus rd') ≤ MaxRestarts (procConfig rd).
Proof.
  intros Hwf Hrd.
  pose proof (run_inv sched _ (StartProcessesFromConfig_inv _ Hwf)) as HI.
  split; [apply (inv_rc _ _ _ (proj1 HI n rd Hrd))|].
  rewrite run_app.
  destruct (run_extends sched' _ HI) as [_ HE].
  destruct (HE n rd Hrd) as (rd' & Hrd' & Hc & Hr).
  exists rd'. repeat split; try done.
  pose proof (run_inv sched' _ HI) as HI'.
  rewrite <- Hc. apply (inv_rc _ _ _ (proj1 HI' n rd' Hrd')).
Qed.

Lemma restartCount_monotone_bounded_witness :
  ∃ rd, gProcRuntimeData
          (run schedA_first_exit (StartProcessesFromConfig (confOf [taskA; taskB])))
          !! "A" = Some rd ∧
        0 ≤ restartCount (procStatus rd) ≤ MaxRestarts (procConfig rd) ∧
        ∃ rd', gProcRuntimeData
                 (run (schedA_first_exit ++ [(starts 101, Resume 0%nat)])
                    (StartProcessesFromConfig (confOf [taskA; taskB])))
                 !! "A" = Some rd' ∧
               procConfig rd' = procConfig rd ∧
               restartCount (procStatus rd) ≤ restartCount (procStatus rd') ∧
               restartCount (procStatus rd') ≤ MaxRestarts (procConfig rd).
Proof.
  eexists. split; [vm_compute; reflexivity|].
  apply (restartCount_monotone_bounded (confOf [taskA; taskB]) schedA_first_exit
           [(starts 101, Resume 0%nat)] "A").
  - wf_by_computation.
  - vm_compute. reflexivity.
Defined.

(** C1. A process without wait timeout, configured with [MaxRestarts = N > 0],
    whose exit the monitor has detected [N + 1] times, has been launched
    exactly [N + 1] times (the first launch and [N] restarts), has
    [restartCount = N] and its error flag set, and however the run goes on,
    it is never launched again. *)
Theorem restart_budget (configData : ConfigData) (sched sched' : list (OS * Step))
    (n : string) (rd : GPCProcRuntimeData) (N : Z) :
  wf_configData configData →
  let w := run sched (StartProcessesFromConfig configData) in
  gProcRuntimeData w !! n = Some rd →
  WaitForExitTimeoutS (procConfig rd) = 0 →
  MaxRestarts (procConfig rd) = N →
  0 < N →
  Z.of_nat (exits n w) = N + 1 →
  restartCount (procStatus rd) = N ∧
  error (procStatus rd) = true ∧
  Z.of_nat (launches n w) = N + 1 ∧
  launches n (run sched' w) = launches n w.
Proof.
  intros Hwf w Hrd Hwait HN Hpos Hex.
  pose proof (run_inv sched _ (StartProcessesFromConfig_inv _ Hwf)) as HI.
  fold w in HI.
  destruct (proj1 HI n rd Hrd) as [I1 I2 I3 I4 I5 I6 I7 I8 I9 I10 I11 I12 I13 I14].
  assert (Hw : WaitForExitTimeoutS (procConfig rd) < 1) by lia.
  specialize (I10 Hw). specialize (I11 Hw). specialize (I12 Hw).
  assert (Hl : Z.of_nat (launches n w) = N + 1) by lia.
  repeat split; [lia|apply I12; lia|done|].
  pose proof (run_inv sched' _ HI) as HI'.
  destruct (run_extends sched' _ HI) as [[ev Hev] HE].
  destruct (HE n rd Hrd) as (rd' & Hrd' & Hc & Hr).
  destruct (proj1 HI' n rd' Hrd') as [J1 J2 J3 J4 J5 J6 J7 J8 J9 J10 J11 J12 J13 J14].
  rewrite Hc in *. specialize (J10 Hw). specialize (J11 Hw).
  assert (exits n w ≤ exits n (run sched' w))%nat
    by (unfold exits; rewrite Hev; apply countEv_le_app).
  lia.
Qed.

Lemma restart_budget_witness :
  ∃ rd, gProcRuntimeData
          (run schedA_exhausted (StartProcessesFromConfig (confOf [taskA; taskB])))
          !! "A" = Some rd ∧
        restartCount (procStatus rd) = 2 ∧
        error (procStatus rd) = true ∧
        Z.of_nat (launches "A"
                    (run schedA_exhausted
                       (StartProcessesFromConfig (confOf [taskA; taskB])))) = 2 + 1 ∧
        launches "A"
          (run [(starts 103, Resume 0%nat); (gone, Resume 0%nat);
                (gone, ShutdownRequest)]
             (run schedA_exhausted (StartProcessesFromConfig (confOf [taskA; taskB]))))
        = launches "A"
            (run schedA_exhausted (StartProcessesFromConfig (confOf [taskA; taskB]))).
Proof.
  eexists. split; [vm_compute; reflexivity|].
  apply (restart_budget (confOf [taskA; taskB]) schedA_exhausted
           [(starts 103, Resume 0%nat); (gone, Resume 0%nat);
            (gone, ShutdownRequest)] "A" _ 2).
  - wf_by_computation.
  - vm_compute. reflexivity.
  - reflexivity.
  - reflexivity.
  - lia.
  - vm_compute. reflexivity.
Defined.

(** ** Pids of active records *)

(** C6 (as the engine has it). Throughout a run, a record of a process
    without wait timeout that is active holds the pid of the process that
    its command started; a record of a process with a wait timeout never
    gets a pid at all, active or not. *)
Theorem active_nowait_has_pid (configData : ConfigData) (sched : list (OS * Step))
    (n : string) (rd : GPCProcRuntimeData) :
  wf_configData configData →
  gProcRuntimeData (run sched (StartProcessesFromConfig configData)) !! n = Some rd →
  (WaitForExitTimeoutS (procConfig rd) = 0 →
   active (procStatus rd) = true →
   ∃ cmd p, procCmd rd = Some cmd ∧ Process cmd = Some p ∧
            pid (procStatus rd) = Pid p) ∧
  (0 < WaitForExitTimeoutS (procConfig rd) → pid (procStatus rd) = 0).
Proof.
  intros Hwf Hrd.
  pose proof (run_inv sched _ (StartProcessesFromConfig_inv _ Hwf)) as HI.
  pose proof (proj1 HI n rd Hrd) as I. split.
  - intros Hw Ha. apply (inv_pid _ _ _ I); [lia|done].
  - intros Hw. apply (inv_waitmode _ _ _ I). lia.
Qed.

Lemma active_nowait_has_pid_witness :
  ∃ rd, gProcRuntimeData
          (run [(starts 100, Resume 1%nat)]
             (StartProcessesFromConfig (confOf [taskA; taskB]))) !! "A" = Some rd ∧
        (WaitForExitTimeoutS (procConfig rd) = 0 →
         active (procStatus rd) = true →
         ∃ cmd p, procCmd rd = Some cmd ∧ Process cmd = Some p ∧
                  pid (procStatus rd) = Pid p) ∧
        (0 < WaitForExitTimeoutS (procConfig rd) → pid (procStatus rd) = 0).
Proof.
  eexists. split; [vm_compute; reflexivity|].
  apply (active_nowait_has_pid (confOf [taskA; taskB]) [(starts 100, Resume 1%nat)] "A").
  - wf_by_computation.
  - vm_compute. reflexivity.
Defined.

(** C6, the wording of the design document fails: after process B has been
    run with its wait timeout, its record is active while its pid is still
    0; the process that was started had pid 7. *)
Lemma active_has_pid_as_worded_fails : ¬ active_has_pid_as_worded.
Proof.
  intros H.
  edestruct (H (confOf [taskA; taskB]) schedA_first_exit "B")
    as (cmd & p & Hcmd & Hproc & Hpid).
  - wf_by_computation.
  - vm_compute. reflexivity.
  - reflexivity.
  - cbn in Hcmd, Hpid. inversion Hcmd; subst cmd. cbn in Hproc.
    inversion Hproc; subst p. discriminate.
Qed.

(** ** Log sinks *)

Lemma filter_none {A : Type} (P : A → Prop) `{∀ x, Decision (P x)} (l : list A) :
  (∀ x, x ∈ l → ¬ P x) → filter P l = [].
Proof.
  induction l as [|a l IH]; intros Hn; [done|].
  rewrite filter_cons_False by (apply Hn, list_elem_of_here).
  apply IH. intros x Hx. by apply Hn, list_elem_of_further.
Qed.

Lemma filter_at_most_one {A : Type} (P : A → Prop) `{∀ x, Decision (P x)} (l : list A) :
  (∀ i j x y, l !! i = Some x → l !! j = Some y → P x → P y → i = j) →
  (length (filter P l) ≤ 1)%nat.
Proof.
  induction l as [|a l IH]; intros Hu; [cbn; lia|].
  rewrite filter_cons. case_decide as Ha.
  - assert (Hnil : filter P l = []).
    { apply filter_none. intros x Hx Px.
      apply list_elem_of_lookup in Hx as [j Hj].
      specialize (Hu 0%nat (S j) a x eq_refl Hj Ha Px). discriminate. }
    rewrite Hnil. cbn. lia.
  - apply IH. intros i j x y Hi Hj Px Py.
    specialize (Hu (S i) (S j) x y Hi Hj Px Py). lia.
Qed.

Lemma openSinks_at_most_one (n : string) (w : World) :
  Inv w → (length (openSinks n w) ≤ 1)%nat.
Proof.
  intros [_ HF]. unfold openSinks. apply filter_at_most_one.
  intros i j x y Hi Hj [Hx Ox] [Hy Oy].
  destruct (HF i x Hi Ox) as (rd1 & H1 & L1).
  destruct (HF j y Hj Oy) as (rd2 & H2 & L2).
  rewrite Hx in H1. rewrite Hy in H2. congruence.
Qed.

Lemma openSinks_none (n : string) (w : World) :
  Inv w → settled n w → openSinks n w = [].
Proof.
  intros [_ HF] Hs. unfold openSinks. apply filter_none.
  intros f Hf [Hn Ho]. apply list_elem_of_lookup in Hf as [h Hh].
  destruct (HF h f Hh Ho) as (rd & Hrd & Hl). rewrite Hn in Hrd.
  destruct (Hs rd Hrd) as [_ Hc]. destruct (Hc h Hl) as (f' & Hf' & Hcl).
  congruence.
Qed.

Lemma monitorVisit_settles (os : OS) (k n : string) (w : World) :
  Inv w →
  settled n w ∨ exits n (monitorVisit os k w) ≠ exits n w →
  settled n (monitorVisit os k w).
Proof.
  intros HI Hn. destruct (gProcRuntimeData w !! k) as [rd|] eqn:Hrd;
    [|unfold monitorVisit in *; rewrite Hrd in *; by destruct Hn].
  destruct (monitorVisit_spec os k w rd Hrd) as [E|(_ & _ & _ & _ & Heq)];
    [rewrite E in *; by destruct Hn|].
  destruct (afterExit_fields rd) as (_ & Fl & _ & Fa & _).
  destruct (closeFiles_closed k rd (afterExit rd) w (monitorVisit os k w) Fl)
    as [Hc _]; [by rewrite Heq|apply (inv_log _ _ _ (proj1 HI k rd Hrd))|].
  destruct (decide (n = k)) as [->|Hne].
  - intros rd'. rewrite Heq at 1. cbn. rewrite lookup_insert_eq. intros [= <-]. done.
  - assert (He : exits n (monitorVisit os k w) = exits n w).
    { rewrite Heq. unfold exits. cbn. rewrite countEv_app.
      rewrite (proj2 (closeEvents_no_launch _ n)). cbn.
      rewrite bool_decide_eq_false_2; [done|congruence]. }
    destruct Hn as [Hn|Hn]; [|done].
    intros rd'. rewrite Heq at 1. cbn. rewrite lookup_insert_ne by done. intros Hrd'.
    destruct (Hn rd' Hrd') as [Ha Hs]. split; [done|].
    intros h Hh. destruct (Hs h Hh) as (f & Hf & Hcl).
    destruct (FilesMono_close w (monitorVisit os k w) (procLog rd)) with (h := h) (f := f)
      as (f' & ? & ? & ?); [by rewrite Heq|done|]. eauto.
Qed.

Lemma settled_same (n : string) (w w' : World) :
  gProcRuntimeData w' = gProcRuntimeData w → files w' = files w →
  settled n w → settled n w'.
Proof.
  intros Er Ef Hs rd. rewrite Er. intros Hrd. destruct (Hs rd Hrd) as [Ha Hc].
  split; [done|]. intros h Hh. rewrite Ef. by apply Hc.
Qed.

(** C3 (as the engine has it). Throughout a run every process has at most
    one open log sink. When the monitor visits a record and reports the
    process gone, no sink of that process is open after the visit. When
    [ShutdownAll] visits the record of a process of which no launch is
    pending, and does not panic, no sink of that process is open after the
    visit. *)
Theorem log_sinks (configData : ConfigData) (sched : list (OS * Step))
    (os : OS) (n k : string) (todo todo' : list string) (i j : nat) :
  wf_configData configData →
  let w := run sched (StartProcessesFromConfig configData) in
  (length (openSinks n w) ≤ 1)%nat ∧
  (goroutines w !! i = Some (GoMonitorScan (k :: todo)) →
   exits n (step os (Resume i) w) ≠ exits n w →
   openSinks n (step os (Resume i) w) = []) ∧
  (goroutines w !! j = Some (GoShutdown (n :: todo')) →
   pendingFor n (goroutines w) = 0%nat →
   panicked (step os (Resume j) w) = false →
   openSinks n (step os (Resume j) w) = []).
Proof.
  intros Hwf w.
  pose proof (run_inv sched _ (StartProcessesFromConfig_inv _ Hwf)) as HI.
  fold w in HI. split; [by apply openSinks_at_most_one|]. split.
  - intros Hi Hex. apply openSinks_none; [by apply step_inv|].
    revert Hex. unfold step. destruct (panicked w); [done|]. rewrite Hi.
    unfold runGoroutine.
    set (w1 := set_goroutines (delete i (goroutines w)) w).
    assert (HI1 : Inv w1).
    { apply (Silent_inv w); [done|]. by apply (Silent_leaves w i (GoMonitorScan (k :: todo))). }
    intros Hex.
    apply (settled_same n (monitorVisit os k w1)); [done|done|].
    apply monitorVisit_settles; [done|]. by right.
  - intros Hj _ Hp'.
    assert (Hp : panicked w = false).
    { destruct (panicked w) eqn:E; [|done]. unfold step in Hp'. rewrite E in Hp'.
      change (panicked w = false) in Hp'. congruence. }
    assert (Hst : step os (Resume j) w
                  = set_goroutines (<[j := GoShutdown todo']> (goroutines (shutdownVisit os n w)))
                      (shutdownVisit os n w))
      by (unfold step; by rewrite Hp, Hj).
    apply openSinks_none; [by apply step_inv|].
    rewrite Hst in Hp' |- *.
    apply (settled_same n (shutdownVisit os n w)); [done|done|].
    exact (proj1 (shutdownVisit_settles os n w HI Hp Hp')).
Qed.

Lemma log_sinks_witness :
  let w := run schedPaint_scan_and_shutdown (StartProcessesFromConfig tDefaultConf) in
  openSinks "Paint" w ≠ [] ∧
  (length (openSinks "Paint" w) ≤ 1)%nat ∧
  openSinks "Paint" (step gone (Resume 1%nat) w) = [] ∧
  openSinks "Paint" (step gone (Resume 2%nat) w) = [].
Proof.
  intros w. split; [by vm_compute|].
  destruct (log_sinks tDefaultConf schedPaint_scan_and_shutdown
              gone "Paint" "Paint" [] [] 1%nat 2%nat) as (H1 & H2 & H3).
  - wf_by_computation.
  - split; [exact H1|].
    split; [apply H2; [vm_compute; reflexivity|vm_compute; discriminate]|].
    apply H3; vm_compute; reflexivity.
Defined.

(** C3, the wording of the design document fails: the sink of Paint is
    closed when the monitor finds the process gone, and closed a second time
    when [ShutdownAll] visits the record. *)
Lemma sinks_closed_once_as_worded_fails : ¬ sinks_closed_once_as_worded.
Proof.
  intros H.
  destruct (H tDefaultConf schedPaint_exit_shutdown "Paint" 0%nat
              {| fowner := "Paint"; isOpen := false; closeCalls := 2 |}) as [_ Hc].
  - wf_by_computation.
  - apply (Nat.nle_succ_diag_l 1), Hc. vm_compute. reflexivity.
Qed.

(** A launcher between two visits of [ShutdownAll]: the launcher of Notepad
    was pending when the call took the lock and runs after the visit of its
    record; when the call has visited every entry, Notepad is active and
    its sink is open. *)
Lemma launcher_between_visits :
  let w := run schedNotepad_launched_in_shutdown (StartProcessesFromConfig tDefaultConf) in
  goroutines w !! 2%nat = Some (GoShutdown []) ∧
  panicked w = false ∧
  (∃ rd, gProcRuntimeData w !! "Notepad" = Some rd ∧ active (procStatus rd) = true) ∧
  openSinks "Notepad" w = [{| fowner := "Notepad"; isOpen := true; closeCalls := 0 |}].
Proof.
  repeat split. eexists. split; [vm_compute; reflexivity|]. done.
Qed.

(** ** Shutting down twice *)

(** C4 (as the engine has it). When [ShutdownAll] takes the lock while no
    launcher that does not wait for its process is pending, every record
    is inactive when the call has visited all entries and is about to
    return, whatever the other goroutines do in between (the supervisor is
    not told again to shut down meanwhile, so that the call about to return
    is this one). Whenever [ShutdownAll], in this call or a later one,
    visits a record whose pid does not answer the liveness probe, it makes
    no kill request and does not panic, and it leaves the registry as it is
    if the record is inactive. *)
Theorem ShutdownAll_twice (configData : ConfigData)
    (sched sched1 sched2 : list (OS * Step)) (os1 os2 : OS) (j1 j2 : nat)
    (n : string) (todo : list string) (rd : GPCProcRuntimeData) :
  wf_configData configData →
  let w := run sched (StartProcessesFromConfig configData) in
  let w1 := run sched1 (step os1 ShutdownRequest w) in
  let w2 := run sched2 w1 in
  (locked (goroutines w) = false →
   Forall (λ g, isFireAndForget g = false) (goroutines w) →
   Forall (λ s, s.2 ≠ ShutdownRequest) sched1 →
   goroutines w1 !! j1 = Some (GoShutdown []) →
   panicked w1 = false →
   ∀ m rdm, gProcRuntimeData w1 !! m = Some rdm → active (procStatus rdm) = false) ∧
  (goroutines w2 !! j2 = Some (GoShutdown (n :: todo)) →
   gProcRuntimeData w2 !! n = Some rd →
   checkProcessRunning os2 (pid (procStatus rd)) ≠ None →
   panicked w2 = false →
   panicked (step os2 (Resume j2) w2) = false ∧
   countEv isKillRequest (trace (step os2 (Resume j2) w2))
   = countEv isKillRequest (trace w2) ∧
   (active (procStatus rd) = false →
    gProcRuntimeData (step os2 (Resume j2) w2) = gProcRuntimeData w2)).
Proof.
  intros Hwf w w1 w2.
  pose proof (run_inv sched _ (StartProcessesFromConfig_inv _ Hwf)) as HI.
  fold w in HI. split.
  - intros Hl Hff Hs Hj Hp1.
    assert (Hp : panicked w = false).
    { destruct (panicked w) eqn:E; [|done]. unfold w1 in Hp1.
      rewrite (step_panicked _ _ _ E), (run_panicked _ _ E) in Hp1. congruence. }
    destruct (run_shuttingDown sched1 (step os1 ShutdownRequest w))
      as [[todo1 HS]|Hun]; [by apply step_inv|done| |..].
    + left. eexists. by apply ShutdownRequest_begins.
    + by apply (ShuttingDown_returns todo1 _ j1).
    + fold w1 in Hun. by rewrite (locked_lookup _ _ _ Hj) in Hun.
  - intros Hj Hrd Hdead Hp. unfold step. rewrite Hp, Hj. unfold runGoroutine.
    cbn [panicked trace gProcRuntimeData set_goroutines].
    rewrite (shutdownVisit_spec os2 n w2 rd Hrd Hp).
    destruct (checkProcessRunning os2 (pid (procStatus rd))); [|done]. cbn.
    split; [done|]. split.
    + rewrite countEv_app, closeEvents_no_kill. done.
    + intros Ha. by rewrite (inactive_record rd Ha), insert_id.
Qed.

Lemma ShutdownAll_twice_witness :
  let w := run schedBoth_started (StartProcessesFromConfig tDefaultConf) in
  let w1 := run schedBoth_visited (step stubborn ShutdownRequest w) in
  let w2 := run schedBoth_again w1 in
  (∃ rd, gProcRuntimeData w !! "Paint" = Some rd ∧ active (procStatus rd) = true) ∧
  (∀ m rdm, gProcRuntimeData w1 !! m = Some rdm → active (procStatus rdm) = false) ∧
  panicked (step gone (Resume 1%nat) w2) = false ∧
  countEv isKillRequest (trace (step gone (Resume 1%nat) w2))
  = countEv isKillRequest (trace w2) ∧
  gProcRuntimeData (step gone (Resume 1%nat) w2) = gProcRuntimeData w2.
Proof.
  intros w w1 w2.
  split; [eexists; split; [vm_compute; reflexivity|reflexivity]|].
  destruct (ShutdownAll_twice tDefaultConf schedBoth_started schedBoth_visited
              schedBoth_again stubborn gone 1%nat 1%nat "Notepad" ["Paint"]
              notepad_visited)
    as (H1 & H2).
  - wf_by_computation.
  - split.
    + apply H1; [vm_compute; reflexivity| |..].
      * vm_compute. repeat constructor.
      * vm_compute. repeat constructor; discriminate.
      * vm_compute. reflexivity.
      * vm_compute. reflexivity.
    + destruct H2 as (Ha & Hb & Hc).
      * vm_compute. reflexivity.
      * vm_compute. reflexivity.
      * vm_compute. discriminate.
      * vm_compute. reflexivity.
      * split; [exact Ha|]. split; [exact Hb|]. apply Hc. reflexivity.
Defined.

(** C4, the wording of the design document fails: Paint is running and the
    kill requests are refused; the first [ShutdownAll] marks the record
    inactive, and the second one, finding the process still alive, makes the
    kill requests again. *)
Lemma shutdown_twice_as_worded_fails : ¬ shutdown_twice_as_worded.
Proof.
  intros H.
  destruct (H tDefaultConf [(starts 200, Resume 2%nat)] stubborn stubborn)
    as (_ & Hk & _).
  - wf_by_computation.
  - vm_compute. reflexivity.
  - vm_compute. reflexivity.
  - vm_compute in Hk. discriminate.
Qed.

(** ** Where the engine departs from its own comments *)

Lemma launchProcessAndWait_flags (os : OS) (n : string) (w : World)
    (rd : GPCProcRuntimeData) (newpid : Z) :
  gProcRuntimeData w !! n = Some rd →
  uint32 (WaitForExitTimeoutS (procConfig rd)) →
  startOf os (StartPath (procConfig rd)) = Some newpid →
  ∃ rd', gProcRuntimeData (launchProcessAndWait os n w) !! n = Some rd' ∧
         done (procStatus rd') = true ∧
         timeout (procStatus rd') =
           match os_ending os newpid with
           | ExitsByItself code => if code =? 0 then timeout (procStatus rd) else true
           | KilledAtDeadline => true
           end.
Proof.
  intros Hrd Hu Hs.
  destruct (launchProcessAndWait_spec os n w rd Hrd Hu) as (rd' & fs' & Heq & _ & _ & Hst).
  exists rd'. rewrite Heq. cbn. split; [apply lookup_insert_eq|].
  rewrite Hst. unfold statusAfterRun. rewrite Hs.
  destruct (os_ending os newpid) as [code|]; [|done]. by destruct (code =? 0).
Qed.

(** C2. The engine sets the timeout flag whenever [Run] returns an
    [*exec.ExitError]: process B, run with a wait timeout of 2 s, ends by
    itself with exit status 1 before the deadline, and its record has
    [done] and [timeout] both set. *)
Lemma own_exit_flagged_as_timeout :
  let os := osWith (Some 7) true (ExitsByItself 1) in
  let w := step os (Resume 2%nat) (StartProcessesFromConfig (confOf [taskA; taskB])) in
  goroutines (StartProcessesFromConfig (confOf [taskA; taskB])) !! 2%nat
    = Some (GoLaunchAndWait "B") ∧
  os_ending os 7 = ExitsByItself 1 ∧
  ∃ rd, gProcRuntimeData w !! "B" = Some rd ∧
        done (procStatus rd) = true ∧ timeout (procStatus rd) = true.
Proof.
  repeat split. eexists. split; [vm_compute; reflexivity|]. done.
Qed.

Lemma launchProcess_argv (os : OS) (n : string) (w : World) (rd : GPCProcRuntimeData) :
  gProcRuntimeData w !! n = Some rd →
  let path := StartPath (procConfig rd) in
  EvLaunch n (pathOf os path) [path] (startOf os path) ∈ trace (launchProcess os n w).
Proof.
  intros Hrd path.
  destruct (launchProcess_spec os n w rd Hrd) as (rd' & fs' & ev & Heq & _).
  rewrite Heq. cbn. apply elem_of_app. right. apply list_elem_of_here.
Qed.

Lemma launchProcessAndWait_argv (os : OS) (n : string) (w : World)
    (rd : GPCProcRuntimeData) :
  gProcRuntimeData w !! n = Some rd →
  uint32 (WaitForExitTimeoutS (procConfig rd)) →
  let path := StartPath (procConfig rd) in
  EvLaunch n (pathOf os path) [path] (startOf os path)
    ∈ trace (launchProcessAndWait os n w).
Proof.
  intros Hrd Hu path.
  destruct (launchProcessAndWait_spec os n w rd Hrd Hu) as (rd' & fs' & Heq & _).
  rewrite Heq. cbn. apply list_elem_of_here.
Qed.

(** C8. Both launchers build the command from the path alone: Notepad is
    configured with the arguments notepad.exe and myfile.txt, process B with
    b.exe and --once, and the argv of either launch holds the path and
    nothing else. *)
Lemma launch_request_omits_StartArgs :
  StartArgs p1 = ["notepad.exe"; "myfile.txt"] ∧
  trace (step (starts 300) (Resume 1%nat) (StartProcessesFromConfig tDefaultConf))
  = [EvRelease 300 None;
     EvLaunch "Notepad" "notepad.exe" ["notepad.exe"] (Some 300);
     EvCreate "Notepad" (Some 0%nat)] ∧
  StartArgs taskB = ["b.exe"; "--once"] ∧
  trace (step (starts 7) (Resume 2%nat)
           (StartProcessesFromConfig (confOf [taskA; taskB])))
  = [EvLaunch "B" "b.exe" ["b.exe"] (Some 7); EvCreate "B" (Some 0%nat)].
Proof. repeat split. Qed.

Lemma launchProcess_failed_start (os : OS) (n : string) (w : World)
    (rd : GPCProcRuntimeData) :
  gProcRuntimeData w !! n = Some rd →
  startOf os (StartPath (procConfig rd)) = None →
  panicked (launchProcess os n w) = true.
Proof.
  intros Hrd Hs.
  destruct (launchProcess_spec os n w rd Hrd) as (rd' & fs' & ev & Heq & _).
  rewrite Heq. cbn. by rewrite Hs.
Qed.

(** C10. When the start fails, [launchProcess] sets the error flag and then
    calls [Release] on the [Process] field of the command, which is nil:
    the program panics. *)
Lemma failed_start_panics :
  let w := step gone (Resume 1%nat) (StartProcessesFromConfig tDefaultConf) in
  goroutines (StartProcessesFromConfig tDefaultConf) !! 1%nat = Some (GoLaunch "Notepad") ∧
  panicked w = true ∧
  ∃ rd cmd, gProcRuntimeData w !! "Notepad" = Some rd ∧
            error (procStatus rd) = true ∧
            procCmd rd = Some cmd ∧ Process cmd = None.
Proof.
  repeat split. eexists _, _. split; [vm_compute; reflexivity|]. done.
Qed.

(** C5. A start that fails does not end the launch: [launchProcess] sets
    the error flag, leaves [active] and [pid] as they were, and panics in
    its call of [Release].  Process A has exited once, with pid 100, and
    the start of its restart fails. *)
Lemma failed_start_outcome :
  let w := run schedA_first_exit (StartProcessesFromConfig (confOf [taskA; taskB])) in
  let w' := step gone (Resume 0%nat) w in
  goroutines w !! 0%nat = Some (GoRestart "A") ∧
  startOf gone "a.exe" = None ∧
  panicked w = false ∧
  panicked w' = true ∧
  ∃ rd, gProcRuntimeData w' !! "A" = Some rd ∧
        error (procStatus rd) = true ∧ active (procStatus rd) = false ∧
        pid (procStatus rd) = 100.
Proof.
  repeat split. eexists. split; [vm_compute; reflexivity|]. done.
Qed.
(** ** The terminator *)

(** C9. On a command whose process was started, [killProcess] releases the
    handle, then asks for termination (SIGTERM), then for a kill (SIGKILL),
    then runs the tree-wide forced taskkill on the pid, in this order; it
    returns what that last run returns, whatever the system answered to the
    earlier requests, and it does not panic.  (The run of taskkill is made
    with the path that the lookup of the name gives.) *)
Theorem killProcess_escalates (os : OS) (c : Cmd) (p : osProcess) (w : World) :
  Process c = Some p →
  let kill := exec_Command os "taskkill" ["/T"; "/F"; "/PID"; Itoa (Pid p)] in
  let res := killProcess os (Some c) w in
  res.1 = (Cmd_Run os kill).2 ∧
  trace res.2 =
    [EvRun (Path kill) ["taskkill"; "/T"; "/F"; "/PID"; Itoa (Pid p)] (Cmd_Run os kill).2;
     EvSignal (Pid p) SIGKILL (os_Signal os (Pid p) SIGKILL);
     EvSignal (Pid p) SIGTERM (os_Signal os (Pid p) SIGTERM);
     EvRelease (Pid p) (os_Release os (Pid p))] ++ trace w ∧
  panicked res.2 = panicked w.
Proof.
  intros Hp kill res. subst res. unfold killProcess. rewrite Hp. cbn [Process_Release].
  destruct (Cmd_Run_request os kill) as [HP HA].
  assert (HK : Args kill = ["taskkill"; "/T"; "/F"; "/PID"; Itoa (Pid p)]).
  { unfold kill. by destruct (exec_Command_is os "taskkill"
                                ["/T"; "/F"; "/PID"; Itoa (Pid p)]) as (? & ? & -> & _). }
  fold kill. destruct (Cmd_Run os kill) as [k err] eqn:E. cbn in *.
  rewrite HP, HA, HK. done.
Qed.

Lemma killProcess_escalates_witness :
  let os := osWith (Some 9) true (ExitsByItself 128) in
  let c := set_Process (Some {| Pid := 4711 |}) (exec_Command os "notepad.exe" []) in
  let res := killProcess os (Some c) (StartProcessesFromConfig tDefaultConf) in
  res.1 = Some (ExitError 128) ∧
  trace res.2 =
    [EvRun "taskkill" ["taskkill"; "/T"; "/F"; "/PID"; "4711"] (Some (ExitError 128));
     EvSignal 4711 SIGKILL (Some (OtherError "os: process already released"));
     EvSignal 4711 SIGTERM (Some (OtherError "os: process already released"));
     EvRelease 4711 None] ∧
  panicked res.2 = false.
Proof.
  exact (killProcess_escalates
           (osWith (Some 9) true (ExitsByItself 128))
           (set_Process (Some {| Pid := 4711 |})
              (exec_Command (osWith (Some 9) true (ExitsByItself 128)) "notepad.exe" []))
           {| Pid := 4711 |} (StartProcessesFromConfig tDefaultConf) eq_refl).
Defined.
(** * Further properties *)

(** ** An induction principle for steps and runs *)

Section step_ind.
Context (P : World → World → Prop).
Hypothesis P_refl : ∀ w, P w w.
Hypothesis P_trans : ∀ a b c, P a b → P b c → P a c.
Hypothesis P_silent : ∀ w w', Inv w → Silent w w' → P w w'.
Hypothesis P_launch :
  ∀ os n w i g rd rd1,
    Inv w → panicked w = false →
    goroutines w !! i = Some g →
    gProcRuntimeData w !! n = Some rd →
    (g = GoLaunch n ∧ rd1 = rd) ∨
    (g = GoRestart n ∧
     rd1 = with_status (λ s, set_restartCount (wrap32 (restartCount s + 1)) s) rd) →
    P w (launchProcess os n (store n rd1 (set_goroutines (delete i (goroutines w)) w))).
Hypothesis P_launchWait :
  ∀ os n w i rd,
    Inv w → panicked w = false →
    goroutines w !! i = Some (GoLaunchAndWait n) →
    gProcRuntimeData w !! n = Some rd →
    P w (launchProcessAndWait os n (set_goroutines (delete i (goroutines w)) w)).
Hypothesis P_monitorVisit :
  ∀ os n w, Inv w → panicked w = false → P w (monitorVisit os n w).
Hypothesis P_shutdownVisit :
  ∀ os n w, Inv w → panicked w = false → locked (goroutines w) = true →
            P w (shutdownVisit os n w).

Lemma move_ind (os : OS) (w w' : World) : Inv w → Move os w w' → P w w'.
Proof.
  intros HI HM.
  destruct HM as [w0 w1 Hs|w0 i g n rd rd1 Hp Hi Hrd Hg|w0 i n rd Hp Hi Hrd|w0 n Hp
                 |w0 n Hp Hl].
  - by apply P_silent.
  - by apply (P_launch os n w0 i g rd rd1).
  - by apply (P_launchWait os n w0 i rd).
  - by apply P_monitorVisit.
  - by apply P_shutdownVisit.
Qed.

Lemma moves_ind (os : OS) (w w' : World) : Inv w → Moves os w w' → P w w'.
Proof.
  intros HI HM. induction HM as [|a b c Hab Hbc IH]; [done|].
  eapply P_trans; [by apply (move_ind os)|]. apply IH. by apply (move_inv os a).
Qed.

Lemma step_ind (os : OS) (st : Step) (w : World) : Inv w → P w (step os st w).
Proof. intros HI. apply (moves_ind os); [done|apply step_moves]. Qed.

Lemma run_ind (sched : list (OS * Step)) (w : World) : Inv w → P w (run sched w).
Proof.
  revert w. induction sched as [|a sched IH]; intros w HI; [done|].
  change (run (a :: sched) w) with (run sched (step a.1 a.2 w)).
  eapply P_trans; [by apply step_ind|]. apply IH. by apply step_inv.
Qed.

End step_ind.

(** ** What each part of a step does to the counts and the flags *)

Lemma launch_core_facts (os : OS) (n : string) (w : World) (i : nat)
    (g : Goroutine) (rd rd1 : GPCProcRuntimeData) :
  gProcRuntimeData w !! n = Some rd →
  (g = GoLaunch n ∧ rd1 = rd) ∨
  (g = GoRestart n ∧
   rd1 = with_status (λ s, set_restartCount (wrap32 (restartCount s + 1)) s) rd) →
  let w' := launchProcess os n (store n rd1 (set_goroutines (delete i (goroutines w)) w)) in
  ∃ rd', gProcRuntimeData w' = <[n := rd']> (gProcRuntimeData w) ∧
         procConfig rd' = procConfig rd ∧
         gStopMon w' = gStopMon w ∧
         goroutines w' = delete i (goroutines w) ∧
         (∀ m, launches m w' = (launches m w + if decide (m = n) then 1 else 0)%nat) ∧
         (∀ m, exits m w' = exits m w) ∧
         (error (procStatus rd) = true → error (procStatus rd') = true) ∧
         done (procStatus rd') = done (procStatus rd) ∧
         timeout (procStatus rd') = timeout (procStatus rd).
Proof.
  intros Hrd Hg w'.
  set (w1 := store n rd1 (set_goroutines (delete i (goroutines w)) w)) in *.
  assert (Hrd1 : gProcRuntimeData w1 !! n = Some rd1) by apply lookup_insert_eq.
  destruct (launchProcess_spec os n w1 rd1 Hrd1)
    as (rd' & fs' & ev & Heq & Hc' & HL & Hev & Hst).
  assert (H1 : procConfig rd1 = procConfig rd ∧
               error (procStatus rd1) = error (procStatus rd) ∧
               done (procStatus rd1) = done (procStatus rd) ∧
               timeout (procStatus rd1) = timeout (procStatus rd))
    by (destruct Hg as [[_ ->]|[_ ->]]; done).
  destruct H1 as (Hc1 & He1 & Hd1 & Ht1).
  exists rd'. subst w'. rewrite Heq. cbn.
  split; [apply insert_insert_eq|]. split; [congruence|]. split; [done|].
  split; [done|]. split; [|split].
  - intros m. unfold launches. cbn. rewrite countEv_app. cbn.
    rewrite (proj1 (Hev m)). case_decide as Hd.
    + subst m. rewrite bool_decide_eq_true_2 by done. lia.
    + rewrite bool_decide_eq_false_2 by congruence. lia.
  - intros m. unfold exits. cbn. rewrite countEv_app. cbn.
    by rewrite (proj2 (Hev m)).
  - rewrite <- He1, <- Hd1, <- Ht1. revert Hst.
    destruct (startOf os _); intros [-> _]; done.
Qed.

Lemma statusAfterRun_sticky (os : OS) (path : string) (s : ProcStatus) :
  (error s = true → error (statusAfterRun os path s) = true) ∧
  (done s = true → done (statusAfterRun os path s) = true) ∧
  (timeout s = true → timeout (statusAfterRun os path s) = true).
Proof.
  unfold statusAfterRun. destruct (startOf os path) as [p|]; [|done].
  destruct (os_ending os p) as [code|]; [|done]. by destruct (code =? 0).
Qed.

Lemma launchWait_facts (os : OS) (n : string) (w : World) (i : nat)
    (rd : GPCProcRuntimeData) :
  gProcRuntimeData w !! n = Some rd →
  uint32 (WaitForExitTimeoutS (procConfig rd)) →
  let w' := launchProcessAndWait os n (set_goroutines (delete i (goroutines w)) w) in
  ∃ rd', gProcRuntimeData w' = <[n := rd']> (gProcRuntimeData w) ∧
         procConfig rd' = procConfig rd ∧
         gStopMon w' = gStopMon w ∧
         goroutines w' = delete i (goroutines w) ∧
         (∀ m, launches m w' = (launches m w + if decide (m = n) then 1 else 0)%nat) ∧
         (∀ m, exits m w' = exits m w) ∧
         procStatus rd' = statusAfterRun os (StartPath (procConfig rd)) (procStatus rd).
Proof.
  intros Hrd Hu w'.
  destruct (launchProcessAndWait_spec os n (set_goroutines (delete i (goroutines w)) w)
              rd Hrd Hu) as (rd' & fs' & Heq & Hc' & HL & Hst).
  exists rd'. subst w'. rewrite Heq. cbn. repeat split; try done.
  intros m. unfold launches. cbn. case_decide as Hd.
  - subst m. rewrite bool_decide_eq_true_2 by done. lia.
  - rewrite bool_decide_eq_false_2 by congruence. lia.
Qed.

Lemma monitorVisit_facts (os : OS) (n : string) (w : World) :
  monitorVisit os n w = w ∨
  ∃ rd, gProcRuntimeData w !! n = Some rd ∧
        WaitForExitTimeoutS (procConfig rd) < 1 ∧
        active (procStatus rd) = true ∧
        checkProcessRunning os (pid (procStatus rd)) ≠ None ∧
        let w' := monitorVisit os n w in
        gProcRuntimeData w' = <[n := afterExit rd]> (gProcRuntimeData w) ∧
        gStopMon w' = gStopMon w ∧
        goroutines w' = goroutines w ++ restartAfterExit n rd ∧
        (∀ m, launches m w' = launches m w) ∧
        (∀ m, exits m w' = (exits m w + if decide (m = n) then 1 else 0)%nat).
Proof.
  destruct (gProcRuntimeData w !! n) as [rd|] eqn:Hrd;
    [|left; by unfold monitorVisit; rewrite Hrd].
  destruct (monitorVisit_spec os n w rd Hrd) as [->|(Hw & _ & Ha & Hc & Heq)];
    [by left|right].
  exists rd. repeat split; try done; rewrite Heq; cbn; try done.
  - intros m. unfold launches. cbn. rewrite countEv_app.
    by rewrite (proj1 (closeEvents_no_launch _ m)).
  - intros m. unfold exits. cbn. rewrite countEv_app.
    rewrite (proj2 (closeEvents_no_launch _ m)). cbn. case_decide as Hd.
    + subst m. rewrite bool_decide_eq_true_2 by done. lia.
    + rewrite bool_decide_eq_false_2 by congruence. lia.
Qed.

Lemma shutdownVisit_facts (os : OS) (n : string) (w : World) :
  panicked w = false →
  let w' := shutdownVisit os n w in
  goroutines w' = goroutines w ∧
  gStopMon w' = gStopMon w ∧
  (∀ m, launches m w' = launches m w ∧ exits m w' = exits m w) ∧
  (gProcRuntimeData w' = gProcRuntimeData w ∨
   ∃ rd, gProcRuntimeData w !! n = Some rd ∧
         gProcRuntimeData w' = <[n := with_status (set_active false) rd]> (gProcRuntimeData w)).
Proof.
  intros Hp w'. subst w'.
  destruct (gProcRuntimeData w !! n) as [rd|] eqn:Hrd;
    [|unfold shutdownVisit; rewrite Hrd; repeat split; auto].
  rewrite (shutdownVisit_spec os n w rd Hrd Hp).
  assert (Hcore : ∀ ev, (∀ m, countEv (isLaunchOf m) ev = 0%nat ∧
                              countEv (isExitOf m) ev = 0%nat) →
    let w' := afterShutdownVisit n rd ev w in
    goroutines w' = goroutines w ∧ gStopMon w' = gStopMon w ∧
    (∀ m, launches m w' = launches m w ∧ exits m w' = exits m w) ∧
    (gProcRuntimeData w' = gProcRuntimeData w ∨
     ∃ rd0, Some rd = Some rd0 ∧
            gProcRuntimeData w' = <[n := with_status (set_active false) rd0]>
                                    (gProcRuntimeData w))).
  { intros ev Hev. cbn. repeat split; try done.
    - unfold launches. cbn. rewrite !countEv_app.
      by rewrite (proj1 (closeEvents_no_launch _ m)), (proj1 (Hev m)).
    - unfold exits. cbn. rewrite !countEv_app.
      by rewrite (proj2 (closeEvents_no_launch _ m)), (proj2 (Hev m)).
    - right. by exists rd. }
  destruct (checkProcessRunning os _); [by apply Hcore|].
  destruct (procCmd rd) as [c|]; [|repeat split; auto].
  destruct (Process c); [|repeat split; auto].
  apply Hcore. intros m. apply killEvents_no_launch.
Qed.

Lemma Silent_facts (w w' : World) :
  Silent w w' →
  gProcRuntimeData w' = gProcRuntimeData w ∧ files w' = files w ∧
  trace w' = trace w ∧ (gStopMon w = true → gStopMon w' = true).
Proof. intros []; done. Qed.

(** ** What a run keeps *)

Lemma Keeps_refl (w : World) : Keeps w w.
Proof. split; [done|]. split; [done|]. intros n rd H. by exists rd. Qed.

Lemma Keeps_trans (a b c : World) : Keeps a b → Keeps b c → Keeps a c.
Proof.
  intros (D1 & S1 & H1) (D2 & S2 & H2). split; [congruence|]. split; [auto|].
  intros n rd Hn. destruct (H1 n rd Hn) as (rd2 & Hn2 & Hc2 & He2 & Hd2 & Ht2).
  destruct (H2 n rd2 Hn2) as (rd3 & Hn3 & Hc3 & He3 & Hd3 & Ht3).
  exists rd3. repeat split; [done|congruence|auto..].
Qed.

Lemma Keeps_same (w w' : World) :
  gProcRuntimeData w' = gProcRuntimeData w →
  (gStopMon w = true → gStopMon w' = true) → Keeps w w'.
Proof.
  intros Er Hs. split; [by rewrite Er|]. split; [done|].
  intros n rd H. exists rd. by rewrite Er.
Qed.

Lemma Keeps_update (n : string) (rd rd' : GPCProcRuntimeData) (w w' : World) :
  gProcRuntimeData w !! n = Some rd →
  gProcRuntimeData w' = <[n := rd']> (gProcRuntimeData w) →
  gStopMon w' = gStopMon w →
  procConfig rd' = procConfig rd →
  (error (procStatus rd) = true → error (procStatus rd') = true) →
  (done (procStatus rd) = true → done (procStatus rd') = true) →
  (timeout (procStatus rd) = true → timeout (procStatus rd') = true) →
  Keeps w w'.
Proof.
  intros Hrd Er Es Hc He Hd Ht. split; [|split].
  - rewrite Er. apply dom_insert_lookup_L. by exists rd.
  - congruence.
  - intros m rdm Hm. rewrite Er, lookup_insert. case_decide as Hdec.
    + subst m. rewrite Hrd in Hm. inversion Hm; subst rdm. by exists rd'.
    + by exists rdm.
Qed.

Lemma Keeps_silent (w w' : World) : Silent w w' → Keeps w w'.
Proof.
  intros Hs. destruct (Silent_facts _ _ Hs) as (Er & _ & _ & Hst).
  by apply Keeps_same.
Qed.

Lemma Keeps_launch (os : OS) (n : string) (w : World) (i : nat) (g : Goroutine)
    (rd rd1 : GPCProcRuntimeData) :
  gProcRuntimeData w !! n = Some rd →
  (g = GoLaunch n ∧ rd1 = rd) ∨
  (g = GoRestart n ∧
   rd1 = with_status (λ s, set_restartCount (wrap32 (restartCount s + 1)) s) rd) →
  Keeps w (launchProcess os n (store n rd1 (set_goroutines (delete i (goroutines w)) w))).
Proof.
  intros Hrd Hg.
  destruct (launch_core_facts os n w i g rd rd1 Hrd Hg)
    as (rd' & Er & Hc & Es & _ & _ & _ & He & Hd & Ht).
  apply (Keeps_update n rd rd'); auto; congruence.
Qed.

Lemma Keeps_launchWait (os : OS) (n : string) (w : World) (i : nat)
    (rd : GPCProcRuntimeData) :
  Inv w → gProcRuntimeData w !! n = Some rd →
  Keeps w (launchProcessAndWait os n (set_goroutines (delete i (goroutines w)) w)).
Proof.
  intros HI Hrd.
  destruct (launchWait_facts os n w i rd Hrd)
    as (rd' & Er & Hc & Es & _ & _ & _ & Hst);
    [apply (inv_wf _ _ _ (proj1 HI n rd Hrd))|].
  destruct (statusAfterRun_sticky os (StartPath (procConfig rd)) (procStatus rd))
    as (He & Hd & Ht).
  apply (Keeps_update n rd rd'); auto; rewrite Hst; auto.
Qed.

Lemma Keeps_monitorVisit (os : OS) (n : string) (w : World) :
  Keeps w (monitorVisit os n w).
Proof.
  destruct (monitorVisit_facts os n w) as [->|(rd & Hrd & _ & _ & _ & Er & Es & _)];
    [apply Keeps_refl|].
  destruct (afterExit_fields rd) as (Fc & _ & _ & _ & _ & _ & Fe & _).
  apply (Keeps_update n rd (afterExit rd)); auto.
  - unfold afterExit. by repeat destruct (_ <? _).
  - unfold afterExit. by repeat destruct (_ <? _).
Qed.

Lemma Keeps_shutdownVisit (os : OS) (n : string) (w : World) :
  panicked w = false → Keeps w (shutdownVisit os n w).
Proof.
  intros Hp.
  destruct (shutdownVisit_facts os n w Hp) as (_ & Es & _ & [Er|(rd & Hrd & Er)]).
  - apply Keeps_same; [done|congruence].
  - apply (Keeps_update n rd _ _ _ Hrd Er); auto.
Qed.

Lemma step_keeps (os : OS) (st : Step) (w : World) : Inv w → Keeps w (step os st w).
Proof.
  apply (step_ind Keeps Keeps_refl Keeps_trans).
  - intros w0 w' _ Hs. by apply Keeps_silent.
  - intros os0 n w0 i g rd rd1 _ _ _ Hrd Hg. by apply (Keeps_launch os0 n w0 i g rd).
  - intros os0 n w0 i rd HI _ _ Hrd. by apply (Keeps_launchWait os0 n w0 i rd).
  - intros os0 n w0 _ _. apply Keeps_monitorVisit.
  - intros os0 n w0 _ Hp _. by apply Keeps_shutdownVisit.
Qed.

Lemma run_keeps (sched : list (OS * Step)) (w : World) : Inv w → Keeps w (run sched w).
Proof.
  revert w. induction sched as [|a sched IH]; intros w HI; [apply Keeps_refl|].
  change (run (a :: sched) w) with (run sched (step a.1 a.2 w)).
  eapply Keeps_trans; [by apply step_keeps|]. apply IH. by apply step_inv.
Qed.

(** ** After the stop flag is up *)













(** ** Processes with a wait timeout *)

Lemma step_waitOnce (os : OS) (st : Step) (w : World) :
  Inv w → WaitOnce w → WaitOnce (step os st w).
Proof.
  apply (step_ind (λ w w', WaitOnce w → WaitOnce w')); [auto|auto|..].
  - intros w0 w' _ Hs HW. destruct (Silent_facts _ _ Hs) as (Er & _ & Et & _).
    intros n rd. rewrite Er. intros Hrd Hw. destruct (HW n rd Hrd Hw) as [Hl He].
    unfold launches, exits in *. rewrite Et. split; [|done]. rewrite <- Hl. f_equal.
    destruct Hs as [w0 i g Hi Hg|w0 g Hg|w0 i todo todo' Hi|w0|w0 todo Hf
                   |w0 i g k Hi Hg Hk]; unfold spawn; cbn [goroutines set_goroutines
                                                          set_gStopMon panic]; try done.
    + apply (cntGo_delete_ne _ g _ i Hi). by intros ->.
    + rewrite cntGo_snoc. rewrite decide_False; [lia|by intros ->].
    + by apply (cntGo_insert _ (GoShutdown todo)).
    + rewrite cntGo_snoc. rewrite decide_False; [lia|done].
    + apply (cntGo_delete_ne _ g _ i Hi). intros ->.
      destruct Hg as [?|[?|?]]; congruence.
  - intros os0 n w0 i g rd rd1 HI _ Hi Hrd Hg HW.
    destruct (launch_core_facts os0 n w0 i g rd rd1 Hrd Hg)
      as (rd' & Er & Hc & _ & Eg & Hl & He & _).
    assert (Hwn : WaitForExitTimeoutS (procConfig rd) < 1).
    { pose proof (proj1 HI n rd Hrd) as I.
      destruct Hg as [[-> _]|[-> _]];
        [apply (inv_init _ _ _ I)|apply (inv_restart _ _ _ I)];
        rewrite (cntGo_delete_eq _ _ i Hi); lia. }
    intros m rdm. rewrite Er, lookup_insert. case_decide as Hd.
    + intros [= <-]. rewrite Hc. lia.
    + intros Hm Hw. destruct (HW m rdm Hm Hw) as [H1 H2].
      rewrite Hl, He, Eg, decide_False by done.
      rewrite (cntGo_delete_ne _ g _ i Hi);
        [split; [lia|done]|destruct Hg as [[-> _]|[-> _]]; congruence].
  - intros os0 n w0 i rd HI _ Hi Hrd HW.
    destruct (launchWait_facts os0 n w0 i rd Hrd)
      as (rd' & Er & Hc & _ & Eg & Hl & He & _);
      [apply (inv_wf _ _ _ (proj1 HI n rd Hrd))|].
    intros m rdm. rewrite Er, lookup_insert, Hl, He, Eg. case_decide as Hd.
    + subst m. intros [= <-]. rewrite Hc. intros Hw.
      destruct (HW n rd Hrd Hw) as [H1 H2]. rewrite decide_True by done.
      rewrite (cntGo_delete_eq _ _ i Hi) in H1. split; [lia|done].
    + intros Hm Hw. destruct (HW m rdm Hm Hw) as [H1 H2].
      rewrite decide_False by done.
      rewrite (cntGo_delete_ne _ (GoLaunchAndWait n) _ i Hi) by congruence.
      split; [lia|done].
  - intros os0 n w0 _ _ HW.
    destruct (monitorVisit_facts os0 n w0)
      as [->|(rd & Hrd & Hwn & _ & _ & Er & _ & Eg & Hl & He)]; [done|].
    destruct (afterExit_fields rd) as (Fc & _).
    intros m rdm. rewrite Er, lookup_insert. case_decide as Hd.
    + intros [= <-]. rewrite Fc. lia.
    + intros Hm Hw. destruct (HW m rdm Hm Hw) as [H1 H2].
      rewrite Hl, He, Eg, decide_False, cntGo_app, restartAfterExit_count by done.
      rewrite decide_False by congruence. split; [lia|lia].
  - intros os0 n w0 _ Hp _ HW.
    destruct (shutdownVisit_facts os0 n w0 Hp) as (Eg & _ & Hc & Hr).
    intros m rdm Hm Hw. destruct (Hc m) as [-> ->]. rewrite Eg.
    destruct Hr as [Er|(rd & Hrd & Er)].
    + rewrite Er in Hm. by apply (HW m rdm).
    + rewrite Er, lookup_insert in Hm. case_decide as Hd.
      * subst m. inversion Hm; subst rdm. by apply (HW n rd).
      * by apply (HW m rdm).
Qed.

Lemma run_waitOnce (sched : list (OS * Step)) (w : World) :
  Inv w → WaitOnce w → WaitOnce (run sched w).
Proof.
  revert w. induction sched as [|a sched IH]; intros w HI HW; [done|].
  change (run (a :: sched) w) with (run sched (step a.1 a.2 w)).
  apply IH; [by apply step_inv|by apply step_waitOnce].
Qed.

(** ** Start-up *)

Lemma registry_lookup_built (tasks : list ProcessConfig)
    (m0 : gmap string GPCProcRuntimeData) (n : string) :
  foldl (λ m c, <[Name c := NewProcRuntimeData c]> m) m0 tasks !! n =
    match last (filter (λ c, Name c = n) tasks) with
    | Some c => Some (NewProcRuntimeData c)
    | None => m0 !! n
    end.
Proof.
  revert m0. induction tasks as [|c tasks IH]; intros m0; [done|].
  cbn [foldl]. rewrite IH, filter_cons. case_decide as Hd.
  - rewrite last_cons. destruct (last (filter _ tasks)); [done|].
    by rewrite Hd, lookup_insert_eq.
  - destruct (last (filter _ tasks)); [done|]. by rewrite lookup_insert_ne.
Qed.

Lemma registry_at_start (configData : ConfigData) (n : string) :
  gProcRuntimeData (StartProcessesFromConfig configData) !! n =
    match last (filter (λ c, Name c = n) (Tasks configData)) with
    | Some c => Some (NewProcRuntimeData c)
    | None => None
    end.
Proof.
  unfold StartProcessesFromConfig. cbn [gProcRuntimeData].
  by rewrite registry_lookup_built, lookup_empty.
Qed.

(** X1. After start-up the registry has one fresh record for every name
    among the tasks, made from the last task of that name, and nothing for
    any other name. *)
Theorem StartProcessesFromConfig_registry (configData : ConfigData) (n : string) :
  gProcRuntimeData (StartProcessesFromConfig configData) !! n =
    NewProcRuntimeData <$> last (filter (λ c, Name c = n) (Tasks configData)).
Proof.
  unfold StartProcessesFromConfig. cbn [gProcRuntimeData].
  rewrite registry_lookup_built, lookup_empty. by destruct (last _).
Qed.

Lemma launchers_no_monitor (l : list (string * GPCProcRuntimeData)) :
  cntGo GoMonitor (launcherOf <$> l) = 0%nat.
Proof.
  induction l as [|[k v] l IH]; [done|].
  rewrite fmap_cons. cbn [cntGo]. rewrite IH.
  destruct (launcherOf_cases k v) as [[-> _]|[-> _]]; by rewrite decide_False.
Qed.

(** X2. Start-up puts the monitor into the pool once, and for every name
    exactly one launcher if the name is in the registry and none otherwise:
    the waiting launcher when the wait timeout of the record is positive,
    the plain launcher when it is not; no restart is pending. *)
Theorem StartProcessesFromConfig_pool (configData : ConfigData) (n : string) :
  let w := StartProcessesFromConfig configData in
  cntGo GoMonitor (goroutines w) = 1%nat ∧
  cntGo (GoRestart n) (goroutines w) = 0%nat ∧
  match gProcRuntimeData w !! n with
  | Some rd =>
      if 0 <? WaitForExitTimeoutS (procConfig rd)
      then cntGo (GoLaunchAndWait n) (goroutines w) = 1%nat ∧
           cntGo (GoLaunch n) (goroutines w) = 0%nat
      else cntGo (GoLaunch n) (goroutines w) = 1%nat ∧
           cntGo (GoLaunchAndWait n) (goroutines w) = 0%nat
  | None => pendingFor n (goroutines w) = 0%nat
  end.
Proof.
  intros w. set (reg := gProcRuntimeData w).
  change (goroutines w) with (GoMonitor :: (launcherOf <$> map_to_list reg)).
  destruct (pool_counts (map_to_list reg) n (NoDup_fst_map_to_list reg))
    as (Hr & Hn & Hi).
  cbn [cntGo]. rewrite decide_True by done.
  rewrite launchers_no_monitor. split; [done|]. rewrite decide_False by done. split; [by rewrite Hr|].
  destruct (reg !! n) as [rd|] eqn:Hrd.
  - specialize (Hi rd). rewrite elem_of_map_to_list in Hi. specialize (Hi Hrd).
    rewrite !decide_False by done. cbn [Nat.add]. revert Hi.
    destruct (0 <? _); intros [-> ->]; done.
  - unfold pendingFor. cbn [cntGo]. rewrite !decide_False by done. cbn [Nat.add].
    destruct Hn as [-> ->]; [|by rewrite Hr].
    intros Hin. apply list_elem_of_fmap in Hin as ([k v] & -> & Hin).
    apply elem_of_map_to_list in Hin. cbn [fst] in Hrd. congruence.
Qed.

Lemma StartProcessesFromConfig_waitOnce (configData : ConfigData) :
  WaitOnce (StartProcessesFromConfig configData).
Proof.
  intros n rd Hrd Hw.
  set (w := StartProcessesFromConfig configData) in *.
  set (reg := gProcRuntimeData w) in *.
  change (goroutines w) with (GoMonitor :: (launcherOf <$> map_to_list reg)).
  destruct (pool_counts (map_to_list reg) n (NoDup_fst_map_to_list reg))
    as (_ & _ & Hi).
  specialize (Hi rd). rewrite elem_of_map_to_list in Hi. specialize (Hi Hrd).
  cbn [cntGo]. rewrite decide_False by done. cbn [Nat.add].
  destruct (Z.ltb_spec 0 (WaitForExitTimeoutS (procConfig rd))); [|lia].
  destruct Hi as [_ ->]. done.
Qed.

(** ** Runs *)

(** X3. Throughout a run the registry holds exactly the names it got at
    start-up, and the record of a name keeps the configuration of the last
    task of that name: no entry is added, removed or reconfigured. *)
Theorem registry_is_fixed (configData : ConfigData) (sched : list (OS * Step))
    (n : string) :
  wf_configData configData →
  procConfig <$> (gProcRuntimeData (run sched (StartProcessesFromConfig configData)) !! n)
  = last (filter (λ c, Name c = n) (Tasks configData)).
Proof.
  intros Hwf.
  pose proof (StartProcessesFromConfig_inv _ Hwf) as HI.
  destruct (run_keeps sched _ HI) as (Hd & _ & Hk).
  pose proof (registry_at_start configData n) as H0.
  destruct (last (filter _ (Tasks configData))) as [c|].
  - destruct (Hk n _ H0) as (rd' & -> & Hc & _). cbn. by rewrite Hc.
  - apply not_elem_of_dom in H0. rewrite <- Hd in H0.
    apply not_elem_of_dom in H0. by rewrite H0.
Qed.

Lemma registry_is_fixed_witness :
  procConfig <$>
    (gProcRuntimeData
       (run schedA_exit_then_shutdown
          (StartProcessesFromConfig (confOf [taskA; taskB; taskA2]))) !! "A")
  = last (filter (λ c, Name c = "A") (Tasks (confOf [taskA; taskB; taskA2]))).
Proof.
  apply (registry_is_fixed (confOf [taskA; taskB; taskA2]) schedA_exit_then_shutdown "A").
  wf_by_computation.
Defined.

(** X4. The flags [error], [done] and [timeout] of a record are never taken
    back: once one of them is set, it is set in every later world of the
    run. *)
Theorem flags_are_never_reset (configData : ConfigData) (sched sched' : list (OS * Step))
    (n : string) (rd : GPCProcRuntimeData) :
  wf_configData configData →
  gProcRuntimeData (run sched (StartProcessesFromConfig configData)) !! n = Some rd →
  ∃ rd', gProcRuntimeData (run (sched ++ sched') (StartProcessesFromConfig configData)) !! n
           = Some rd' ∧
         (error (procStatus rd) = true → error (procStatus rd') = true) ∧
         (done (procStatus rd) = true → done (procStatus rd') = true) ∧
         (timeout (procStatus rd) = true → timeout (procStatus rd') = true).
Proof.
  intros Hwf Hrd.
  pose proof (run_inv sched _ (StartProcessesFromConfig_inv _ Hwf)) as HI.
  rewrite run_app. destruct (run_keeps sched' _ HI) as (_ & _ & Hk).
  destruct (Hk n rd Hrd) as (rd' & Hrd' & _ & He & Hd & Ht). by exists rd'.
Qed.

Lemma flags_are_never_reset_witness :
  ∃ rd, gProcRuntimeData
          (run schedA_first_exit (StartProcessesFromConfig (confOf [taskA; taskB])))
          !! "B" = Some rd ∧
        done (procStatus rd) = true ∧ timeout (procStatus rd) = true ∧
        ∃ rd', gProcRuntimeData
                 (run (schedA_first_exit ++ [(gone, ShutdownRequest)])
                    (StartProcessesFromConfig (confOf [taskA; taskB])))
                 !! "B" = Some rd' ∧
               (error (procStatus rd) = true → error (procStatus rd') = true) ∧
               (done (procStatus rd) = true → done (procStatus rd') = true) ∧
               (timeout (procStatus rd) = true → timeout (procStatus rd') = true).
Proof.
  eexists. split; [vm_compute; reflexivity|]. split; [reflexivity|].
  split; [reflexivity|].
  apply (flags_are_never_reset (confOf [taskA; taskB]) schedA_first_exit
           [(gone, ShutdownRequest)] "B").
  - wf_by_computation.
  - vm_compute. reflexivity.
Defined.

(** X5. A process is launched at most once if it has a wait timeout, and at
    most [MaxRestarts + 1] times if it has none. *)
Theorem launches_are_bounded (configData : ConfigData) (sched : list (OS * Step))
    (n : string) (rd : GPCProcRuntimeData) :
  wf_configData configData →
  let w := run sched (StartProcessesFromConfig configData) in
  gProcRuntimeData w !! n = Some rd →
  Z.of_nat (launches n w)
  ≤ (if 0 <? WaitForExitTimeoutS (procConfig rd) then 0 else MaxRestarts (procConfig rd)) + 1.
Proof.
  intros Hwf w Hrd.
  pose proof (StartProcessesFromConfig_inv _ Hwf) as HI0.
  pose proof (run_inv sched _ HI0) as HI. fold w in HI.
  destruct (Z.ltb_spec 0 (WaitForExitTimeoutS (procConfig rd))) as [Hw|Hw].
  - destruct (run_waitOnce sched _ HI0 (StartProcessesFromConfig_waitOnce _) n rd Hrd)
      as [H1 _]; [lia|]. fold w in H1. lia.
  - pose proof (proj1 HI n rd Hrd) as I.
    pose proof (inv_launches _ _ _ I) as Hl. pose proof (inv_rc _ _ _ I). lia.
Qed.

Lemma launches_are_bounded_witness :
  ∃ rd, gProcRuntimeData
          (run schedA_exhausted (StartProcessesFromConfig (confOf [taskA; taskB])))
          !! "A" = Some rd ∧
        Z.of_nat (launches "A"
                    (run schedA_exhausted
                       (StartProcessesFromConfig (confOf [taskA; taskB]))))
        ≤ (if 0 <? WaitForExitTimeoutS (procConfig rd) then 0
           else MaxRestarts (procConfig rd)) + 1.
Proof.
  eexists. split; [vm_compute; reflexivity|].
  apply (launches_are_bounded (confOf [taskA; taskB]) schedA_exhausted "A").
  - wf_by_computation.
  - vm_compute. reflexivity.
Defined.

(** X6. A process with a wait timeout is outside monitoring and restarting:
    the monitor never reports it gone, no restart of it is ever pending, and
    its restart count stays 0. *)
Theorem wait_mode_is_not_monitored (configData : ConfigData) (sched : list (OS * Step))
    (n : string) (rd : GPCProcRuntimeData) :
  wf_configData configData →
  let w := run sched (StartProcessesFromConfig configData) in
  gProcRuntimeData w !! n = Some rd →
  0 < WaitForExitTimeoutS (procConfig rd) →
  exits n w = 0%nat ∧ cntGo (GoRestart n) (goroutines w) = 0%nat ∧
  restartCount (procStatus rd) = 0.
Proof.
  intros Hwf w Hrd Hw.
  pose proof (StartProcessesFromConfig_inv _ Hwf) as HI0.
  pose proof (run_inv sched _ HI0) as HI. fold w in HI.
  pose proof (proj1 HI n rd Hrd) as I.
  destruct (run_waitOnce sched _ HI0 (StartProcessesFromConfig_waitOnce _) n rd Hrd)
    as [_ He]; [lia|].
  split; [done|]. split; [|apply (inv_waitmode _ _ _ I); lia].
  destruct (cntGo (GoRestart n) (goroutines w)) eqn:E; [done|].
  destruct (inv_restart _ _ _ I); lia.
Qed.

Lemma wait_mode_is_not_monitored_witness :
  ∃ rd, gProcRuntimeData
          (run schedA_exhausted (StartProcessesFromConfig (confOf [taskA; taskB])))
          !! "B" = Some rd ∧
        exits "B" (run schedA_exhausted (StartProcessesFromConfig (confOf [taskA; taskB])))
        = 0%nat ∧
        cntGo (GoRestart "B")
          (goroutines (run schedA_exhausted
                         (StartProcessesFromConfig (confOf [taskA; taskB])))) = 0%nat ∧
        restartCount (procStatus rd) = 0.
Proof.
  eexists. split; [vm_compute; reflexivity|].
  apply (wait_mode_is_not_monitored (confOf [taskA; taskB]) schedA_exhausted "B").
  - wf_by_computation.
  - vm_compute. reflexivity.
  - reflexivity.
Defined.



(** ** More on shutting down and on scanning *)

Lemma OnlyActiveChanged_refl (w w' : World) :
  gProcRuntimeData w' = gProcRuntimeData w → OnlyActiveChanged w w'.
Proof.
  intros Er n rd Hrd. exists rd. rewrite Er. repeat split; try done.
  by destruct (procStatus rd).
Qed.

Lemma OnlyActiveChanged_trans (a b c : World) :
  OnlyActiveChanged a b → OnlyActiveChanged b c → OnlyActiveChanged a c.
Proof.
  intros H1 H2 n rd Hrd.
  destruct (H1 n rd Hrd) as (rd2 & Hrd2 & Hc2 & Hm2 & Hl2 & Hs2).
  destruct (H2 n rd2 Hrd2) as (rd3 & Hrd3 & Hc3 & Hm3 & Hl3 & Hs3).
  exists rd3. repeat split; try congruence.
  rewrite <- Hs2, <- Hs3. by destruct (procStatus rd3).
Qed.

Lemma shutdownVisit_only_active (os : OS) (n : string) (w : World) :
  panicked w = false → OnlyActiveChanged w (shutdownVisit os n w).
Proof.
  intros Hp.
  destruct (shutdownVisit_facts os n w Hp) as (_ & _ & _ & [Er|(rd & Hrd & Er)]).
  - by apply OnlyActiveChanged_refl.
  - intros m rdm Hm. rewrite Er, lookup_insert. case_decide as Hd.
    + subst m. rewrite Hrd in Hm. inversion Hm; subst rdm.
      eexists. split; [done|]. repeat split. cbn. by destruct (procStatus rd).
    + exists rdm. repeat split; try done. by destruct (procStatus rdm).
Qed.

(** X8. [ShutdownAll] raises the stop flag and, in the records, changes
    nothing but the [active] flag: it launches nothing, reports no exit,
    leaves restart counts, pids and handles alone, and cancels no pending
    launcher or restart, the pool being the same afterwards. *)
Theorem ShutdownAll_changes_only_active (os : OS) (w : World) :
  let w' := ShutdownAll os w in
  gStopMon w' = true ∧
  goroutines w' = goroutines w ∧
  (∀ n, launches n w' = launches n w ∧ exits n w' = exits n w) ∧
  OnlyActiveChanged w w'.
Proof.
  unfold ShutdownAll.
  set (w0 := set_gStopMon true w).
  assert (H0 : gStopMon w0 = true ∧ goroutines w0 = goroutines w ∧
               (∀ n, launches n w0 = launches n w ∧ exits n w0 = exits n w) ∧
               OnlyActiveChanged w w0).
  { repeat split. by apply OnlyActiveChanged_refl. }
  generalize (rangeKeys w0). revert H0. generalize w0. clear w0.
  intros w0 H0 ks. revert w0 H0.
  induction ks as [|k ks IH]; intros w0 H0; [done|]. cbn [foldl].
  apply IH. destruct (panicked w0) eqn:Hp; [done|].
  destruct H0 as (Hs & Hg & Hc & Ho).
  destruct (shutdownVisit_facts os k w0 Hp) as (Eg & Es & Ec & _).
  split; [congruence|]. split; [congruence|]. split.
  - intros n. destruct (Ec n) as [-> ->]. apply Hc.
  - eapply OnlyActiveChanged_trans; [exact Ho|by apply shutdownVisit_only_active].
Qed.

(** X9. A scan of the monitor in which every active record answers the
    liveness probe changes nothing: the monitor only goes back to the
    pool. *)
Theorem monitor_scan_of_living (os : OS) (w : World) :
  gStopMon w = false →
  (∀ n rd, gProcRuntimeData w !! n = Some rd → active (procStatus rd) = true →
           checkProcessRunning os (pid (procStatus rd)) = None) →
  monitorProcesses os w = spawn GoMonitor w.
Proof.
  intros Hs Hall. unfold monitorProcesses. rewrite Hs. f_equal.
  induction (rangeKeys w) as [|k ks IH]; [done|]. cbn [foldl].
  destruct (monitorVisit_facts os k w) as [->|(rd & Hrd & _ & Ha & Hc & _)]; [done|].
  by rewrite (Hall k rd Hrd Ha) in Hc.
Qed.

Lemma monitor_scan_of_living_witness :
  let w := run [(starts 100, Resume 1%nat)]
             (StartProcessesFromConfig (confOf [taskA; taskB])) in
  monitorProcesses (starts 0) w = spawn GoMonitor w.
Proof.
  apply monitor_scan_of_living; [reflexivity|].
  intros n rd Hrd Ha. reflexivity.
Defined.

Lemma hasProcess_inactive (rd : GPCProcRuntimeData) :
  hasProcess (with_status (set_active false) rd) = hasProcess rd ∧
  pid (procStatus (with_status (set_active false) rd)) = pid (procStatus rd).
Proof. done. Qed.

Lemma shutdown_loop_panics (os : OS) (ks : list string) (w : World) :
  panicked w = false →
  panicked (foldl (λ w procName, if panicked w then w else shutdownVisit os procName w)
              w ks) = true
  ↔ ∃ k rd, k ∈ ks ∧ gProcRuntimeData w !! k = Some rd ∧
            checkProcessRunning os (pid (procStatus rd)) = None ∧
            hasProcess rd = false.
Proof.
  revert w. induction ks as [|k ks IH]; intros w Hp.
  - cbn. rewrite Hp. split; [done|]. intros (k & rd & Hk & _). by apply elem_of_nil in Hk.
  - cbn [foldl]. rewrite Hp.
    assert (Hhead : ∀ rd, gProcRuntimeData w !! k = Some rd →
              checkProcessRunning os (pid (procStatus rd)) = None →
              hasProcess rd = false → shutdownVisit os k w = panic w).
    { intros rd Hrd Hc Hh. rewrite (shutdownVisit_spec os k w rd Hrd Hp), Hc.
      unfold hasProcess in Hh. destruct (procCmd rd) as [c|]; [|done].
      destruct (Process c); [|done]. by rewrite bool_decide_eq_true_2 in Hh. }
    destruct (gProcRuntimeData w !! k) as [rd|] eqn:Hrd.
    + destruct (checkProcessRunning os (pid (procStatus rd))) as [e|] eqn:Hc;
        [|destruct (hasProcess rd) eqn:Hh].
      * (* the process is gone: the visit does not panic *)
        assert (Hv : shutdownVisit os k w = afterShutdownVisit k rd [] w)
          by (by rewrite (shutdownVisit_spec os k w rd Hrd Hp), Hc).
        rewrite Hv, IH by done. split.
        -- intros (k' & rd' & Hk' & Hrd' & Hc' & Hh'). cbn in Hrd'.
           rewrite lookup_insert in Hrd'. case_decide as Hd.
           ++ inversion Hrd'; subst rd'. cbn in Hc'. congruence.
           ++ exists k', rd'. split; [by apply list_elem_of_further|done].
        -- intros (k' & rd' & Hk' & Hrd' & Hc' & Hh').
           apply elem_of_cons in Hk' as [->|Hk']; [congruence|].
           destruct (decide (k = k')) as [<-|Hne]; [congruence|].
           exists k', rd'. cbn. by rewrite lookup_insert_ne.
      * (* alive, with a started process: killed, no panic *)
        assert (Hv : ∃ ev, shutdownVisit os k w = afterShutdownVisit k rd ev w).
        { rewrite (shutdownVisit_spec os k w rd Hrd Hp), Hc.
          unfold hasProcess in Hh. destruct (procCmd rd) as [c|]; [|done].
          destruct (Process c); [by eexists|].
          by rewrite bool_decide_eq_false_2 in Hh by (intros H; by apply H). }
        destruct Hv as [ev Hv]. rewrite Hv, IH by done. split.
        -- intros (k' & rd' & Hk' & Hrd' & Hc' & Hh'). cbn in Hrd'.
           rewrite lookup_insert in Hrd'. case_decide as Hd.
           ++ inversion Hrd'; subst rd'.
              destruct (hasProcess_inactive rd) as [E _]. congruence.
           ++ exists k', rd'. split; [by apply list_elem_of_further|done].
        -- intros (k' & rd' & Hk' & Hrd' & Hc' & Hh').
           apply elem_of_cons in Hk' as [->|Hk']; [congruence|].
           destruct (decide (k = k')) as [<-|Hne]; [congruence|].
           exists k', rd'. cbn. by rewrite lookup_insert_ne.
      * (* alive, without a started process: panic *)
        rewrite (Hhead rd eq_refl Hc Hh), shutdown_loop_panicked by done.
        split; [|done]. intros _. exists k, rd. split; [apply list_elem_of_here|done].
    + assert (Hv : shutdownVisit os k w = w) by (by unfold shutdownVisit; rewrite Hrd).
      rewrite Hv, IH by done. split.
      * intros (k' & rd' & Hk' & H'). exists k', rd'.
        split; [by apply list_elem_of_further|done].
      * intros (k' & rd' & Hk' & Hrd' & H').
        apply elem_of_cons in Hk' as [->|Hk']; [congruence|]. by exists k', rd'.
Qed.

(** X10. [ShutdownAll] panics exactly when some record answers the liveness
    probe although its command has no started process (the command is nil,
    or its start failed): [killProcess] then dereferences nil. *)
Theorem ShutdownAll_panics_iff (os : OS) (w : World) :
  panicked w = false →
  panicked (ShutdownAll os w) = true
  ↔ ∃ n rd, gProcRuntimeData w !! n = Some rd ∧
            checkProcessRunning os (pid (procStatus rd)) = None ∧
            hasProcess rd = false.
Proof.
  intros Hp. unfold ShutdownAll.
  rewrite (shutdown_loop_panics os _ (set_gStopMon true w)) by done. cbn. split.
  - intros (k & rd & _ & H). by exists k, rd.
  - intros (k & rd & Hrd & H). exists k, rd. split; [|done].
    unfold rangeKeys. apply list_elem_of_fmap. exists (k, rd). split; [done|].
    by apply elem_of_map_to_list.
Qed.

Lemma ShutdownAll_panics_iff_witness :
  panicked (ShutdownAll (starts 1) (StartProcessesFromConfig tDefaultConf)) = true
  ↔ ∃ n rd, gProcRuntimeData (StartProcessesFromConfig tDefaultConf) !! n = Some rd ∧
            checkProcessRunning (starts 1) (pid (procStatus rd)) = None ∧
            hasProcess rd = false.
Proof.
  apply (ShutdownAll_panics_iff (starts 1) (StartProcessesFromConfig tDefaultConf)).
  reflexivity.
Defined.

(** ** The commands and the sinks of the records *)

Lemma launchProcess_cmd (os : OS) (n : string) (w : World) (rd : GPCProcRuntimeData) :
  gProcRuntimeData w !! n = Some rd →
  ∃ rd', gProcRuntimeData (launchProcess os n w) !! n = Some rd' ∧
         procConfig rd' = procConfig rd ∧ CmdShape rd'.
Proof.
  intros Hrd. unfold launchProcess, doProcessSettings,
    gpclogging.GetLogFileForProcess, CmdShape.
  rewrite Hrd. cbn.
  destruct (exec_Command_is os (StartPath (procConfig rd)) []) as (lp & le & -> & _).
  destruct (os_Create os (Name (procConfig rd))); cbn;
    destruct (HideWindow (procConfig rd)) eqn:Hh; cbn;
    unfold Cmd_Start; cbn; destruct le as [e|]; cbn;
    try (destruct (os_StartProcess os lp _) as [newpid|]; cbn).
  all: unfold store, emit, set_files, set_registry, panic, Process_Release; cbn.
  all: destruct (panicked w) eqn:Hp; cbn.
  all: unfold store, emit, set_files, set_registry, panic, Process_Release; cbn.
  all: rewrite ?Hp; cbn; rewrite lookup_insert_eq.
  all: eexists; split; [reflexivity|]; cbn; split; [reflexivity|].
  all: intros cmd [= <-]; cbn; rewrite ?Hh; auto 10.
Qed.

Lemma launchProcessAndWait_cmd (os : OS) (n : string) (w : World)
    (rd : GPCProcRuntimeData) :
  gProcRuntimeData w !! n = Some rd →
  uint32 (WaitForExitTimeoutS (procConfig rd)) →
  ∃ rd', gProcRuntimeData (launchProcessAndWait os n w) !! n = Some rd' ∧
         procConfig rd' = procConfig rd ∧ CmdShape rd'.
Proof.
  intros Hrd Hu. unfold launchProcessAndWait, doProcessSettings,
    gpclogging.GetLogFileForProcess, CmdShape.
  rewrite Hrd, (ParseDuration_seconds_uint32 _ Hu). cbn.
  destruct (exec_Command_is os (StartPath (procConfig rd)) []) as (lp & le & _ & ->).
  destruct (os_Create os (Name (procConfig rd))); cbn;
    destruct (HideWindow (procConfig rd)) eqn:Hh; cbn;
    unfold Cmd_Run, Cmd_Start, Cmd_Wait; cbn; destruct le as [e|]; cbn;
    try (destruct (os_StartProcess os lp _) as [newpid|]; cbn).
  all: try (destruct (os_ending os newpid) as [code|]; cbn;
            [destruct (code =? 0); cbn|]).
  all: unfold store, emit, set_files, set_registry; cbn.
  all: rewrite lookup_insert_eq.
  all: eexists; split; [reflexivity|]; cbn; split; [reflexivity|].
  all: intros cmd [= <-]; cbn; rewrite ?Hh; auto 10.
Qed.

Lemma CmdShape_status (f : ProcStatus → ProcStatus) (rd : GPCProcRuntimeData) :
  CmdShape rd → CmdShape (with_status f rd).
Proof. done. Qed.

Lemma afterExit_shape (rd : GPCProcRuntimeData) : CmdShape rd → CmdShape (afterExit rd).
Proof.
  unfold afterExit. intros H.
  destruct (0 <? _); [destruct (_ <? _)|]; by repeat apply CmdShape_status.
Qed.

(** X11. In every run from [StartProcessesFromConfig], the command held by
    a record of which no launch is pending is the one built from its
    configuration: the path of the task as its only argument, no standard
    input, output and errors going to one sink, which is the log of the
    record or none, the window setting of the task, and no deadline but the
    wait timeout. *)
Theorem commands_are_as_configured (cd : ConfigData) (sched : list (OS * Step))
    (n : string) (rd : GPCProcRuntimeData) :
  wf_configData cd →
  let w := run sched (StartProcessesFromConfig cd) in
  gProcRuntimeData w !! n = Some rd →
  pendingFor n (goroutines w) = 0%nat →
  CmdShape rd.
Proof.
  intros Hwf w Hrd _. revert Hrd. unfold w. clear w.
  assert (H : (∀ n rd, gProcRuntimeData (StartProcessesFromConfig cd) !! n = Some rd →
                       CmdShape rd) →
              ∀ n rd, gProcRuntimeData (run sched (StartProcessesFromConfig cd)) !! n
                      = Some rd → CmdShape rd).
  { apply (run_ind (λ w w', (∀ n rd, gProcRuntimeData w !! n = Some rd → CmdShape rd) →
                            ∀ n rd, gProcRuntimeData w' !! n = Some rd → CmdShape rd)).
    - auto.
    - intros a b c H1 H2 H0. by apply H2, H1.
    - intros w w' _ Hs. destruct (Silent_facts w w' Hs) as (-> & _). auto.
    - intros os m w i g rd0 rd1 HI Hp Hi Hrd Hg Hall k rdk.
      set (w1 := store m rd1 (set_goroutines (delete i (goroutines w)) w)).
      assert (Hrd1 : gProcRuntimeData w1 !! m = Some rd1) by apply lookup_insert_eq.
      destruct (launchProcess_cmd os m w1 rd1 Hrd1) as (rd' & Hl & _ & Hsh).
      destruct (launch_core_facts os m w i g rd0 rd1 Hrd Hg) as (rd2 & Er & _).
      fold w1 in Er. rewrite Er in Hl |- *. rewrite lookup_insert_eq in Hl.
      inversion Hl; subst rd2.
      rewrite lookup_insert. case_decide; [by intros [= <-]|apply Hall].
    - intros os m w i rd0 HI Hp Hi Hrd Hall k rdk.
      assert (Hu : uint32 (WaitForExitTimeoutS (procConfig rd0)))
        by (destruct (proj1 HI m rd0 Hrd) as [_ (_ & _ & Hu) _]; exact Hu).
      set (w1 := set_goroutines (delete i (goroutines w)) w).
      destruct (launchProcessAndWait_cmd os m w1 rd0 Hrd Hu) as (rd' & Hl & _ & Hsh).
      destruct (launchWait_facts os m w i rd0 Hrd Hu) as (rd2 & Er & _).
      fold w1 in Er. rewrite Er in Hl |- *. rewrite lookup_insert_eq in Hl.
      inversion Hl; subst rd2.
      rewrite lookup_insert. case_decide; [by intros [= <-]|apply Hall].
    - intros os m w HI Hp Hall k rdk.
      destruct (monitorVisit_facts os m w) as [->|(rd0 & Hrd & _ & _ & _ & Er & _)];
        [apply Hall|].
      rewrite Er, lookup_insert. case_decide; [|apply Hall].
      intros [= <-]. apply afterExit_shape. by apply (Hall m).
    - intros os m w HI Hp Hs Hall k rdk.
      destruct (shutdownVisit_facts os m w Hp) as (_ & _ & _ & [->|(rd0 & Hrd & ->)]);
        [apply Hall|].
      rewrite lookup_insert. case_decide; [|apply Hall].
      intros [= <-]. apply CmdShape_status. by apply (Hall m).
    - by apply StartProcessesFromConfig_inv. }
  apply H. intros k rdk Hk.
  rewrite registry_at_start in Hk.
  destruct (last _) as [c|]; [|done]. inversion Hk; subst rdk. by intros cmd.
Qed.

Lemma commands_are_as_configured_witness :
  ∃ rd, gProcRuntimeData (run schedB_waited (StartProcessesFromConfig (confOf [taskA; taskB])))
          !! "B" = Some rd ∧ procCmd rd ≠ None ∧ CmdShape rd.
Proof.
  eexists. split; [vm_compute; reflexivity|]. split; [done|].
  apply (commands_are_as_configured (confOf [taskA; taskB]) schedB_waited "B").
  - wf_by_computation.
  - vm_compute. reflexivity.
  - vm_compute. reflexivity.
Defined.

(** ** The log of a process that is waited for *)











(** * Properties of the logger *)

Section logging.
Import gpclogging.

(** ** Flags *)

Lemma testbit_ones32 (i : Z) : Z.testbit (2 ^ 32 - 1) i = (0 <=? i) && (i <? 32).
Proof.
  change (2 ^ 32 - 1) with (Z.ones 32).
  destruct (Z.leb_spec 0 i); [|by rewrite Z.testbit_neg_r by lia].
  destruct (Z.ltb_spec i 32).
  - by rewrite Z.ones_spec_low by lia.
  - by rewrite Z.ones_spec_high by lia.
Qed.

Lemma testbit_uint32_high (z i : Z) : uint32 z → 32 ≤ i → Z.testbit z i = false.
Proof.
  intros [H0 H1] Hi. destruct (Z.eq_dec z 0) as [->|Hz]; [apply Z.bits_0|].
  apply Z.bits_above_log2; [lia|].
  assert (Z.log2 z < 32); [|lia]. apply Z.log2_lt_pow2; lia.
Qed.

Lemma uint32_testbit (z : Z) :
  0 ≤ z → (∀ i, 32 ≤ i → Z.testbit z i = false) → uint32 z.
Proof.
  intros H0 Hb. split; [done|].
  destruct (Z.eq_dec z 0) as [->|Hz]; [done|].
  apply Z.log2_lt_pow2; [lia|].
  destruct (Z.lt_ge_cases (Z.log2 z) 32) as [|Hge]; [done|].
  specialize (Hb (Z.log2 z) Hge). rewrite Z.bit_log2 in Hb by lia. done.
Qed.

(** X13. [setFlags] sets every bit of the mask to [on] and leaves the other
    bits of the flags as they are; the flags stay a [uint32]. *)
Theorem setFlags_bits (flag : Z) (on : bool) (conf : config) :
  uint32 flag → uint32 (logflags conf) →
  uint32 (logflags (setFlags flag on conf)) ∧
  ∀ i, Z.testbit (logflags (setFlags flag on conf)) i
       = if Z.testbit flag i then on else Z.testbit (logflags conf) i.
Proof.
  intros Hf Hc.
  assert (Hbits : ∀ i, Z.testbit (logflags (setFlags flag on conf)) i
                       = if Z.testbit flag i then on else Z.testbit (logflags conf) i).
  { intros i. unfold setFlags, not32. destruct on; cbn [logflags set_logflags].
    - rewrite Z.lor_spec. destruct (Z.testbit flag i); [apply orb_true_r|apply orb_false_r].
    - rewrite Z.land_spec, Z.lxor_spec, testbit_ones32.
      destruct (Z.testbit flag i) eqn:Hb.
      + destruct (Z.leb_spec 0 i); [|by rewrite Z.testbit_neg_r in Hb by lia].
        destruct (Z.ltb_spec i 32); [cbn; apply andb_false_r|].
        by rewrite testbit_uint32_high in Hb.
      + cbn. destruct (Z.leb_spec 0 i); [|by rewrite Z.testbit_neg_r by lia].
        destruct (Z.ltb_spec i 32); [cbn; apply andb_true_r|].
        by rewrite (testbit_uint32_high (logflags conf)). }
  split; [|done]. apply uint32_testbit.
  - unfold setFlags, not32. destruct on; cbn [logflags set_logflags].
    + apply Z.lor_nonneg. split; [apply Hc|apply Hf].
    + apply Z.land_nonneg. left. apply Hc.
  - intros i Hi. rewrite Hbits, (testbit_uint32_high flag), (testbit_uint32_high (logflags conf));
      done.
Qed.

Lemma setFlags_bits_witness :
  uint32 (logflags (setFlags logFlagLogToConsole true gConf)) ∧
  ∀ i, Z.testbit (logflags (setFlags logFlagLogToConsole true gConf)) i
       = if Z.testbit logFlagLogToConsole i then true else Z.testbit (logflags gConf) i.
Proof.
  apply (setFlags_bits logFlagLogToConsole true gConf); vm_compute; split; congruence.
Defined.

Lemma flag_read (flag : Z) (x : config) (on : bool) (i : Z) :
  flag = 2 ^ i → 0 ≤ i < 32 →
  negb (Z.land (logflags (setFlags flag on x)) flag =? 0) = on.
Proof.
  intros -> Hi. unfold setFlags, not32. destruct on; cbn [logflags set_logflags].
  - rewrite Z.land_lor_distr_l, Z.land_diag.
    destruct (Z.eqb_spec (Z.lor (Z.land (logflags x) (2 ^ i)) (2 ^ i)) 0) as [E|]; [|done].
    apply Z.lor_eq_0_iff in E as [_ E]. lia.
  - rewrite <- Z.land_assoc.
    replace (Z.land (Z.lxor (2 ^ i) (2 ^ 32 - 1)) (2 ^ i)) with 0;
      [by rewrite Z.land_0_r|].
    symmetry. apply Z.bits_inj'. intros k Hk.
    rewrite Z.land_spec, Z.lxor_spec, testbit_ones32, Z.bits_0, Z.pow2_bits_eqb by lia.
    destruct (Z.eqb_spec i k) as [<-|]; [|apply andb_false_r].
    destruct (Z.leb_spec 0 i); [|lia]. destruct (Z.ltb_spec i 32); [done|lia].
Qed.

Lemma flag_other (flag g : Z) (x : config) (on : bool) (i j : Z) :
  flag = 2 ^ i → g = 2 ^ j → 0 ≤ i < 32 → 0 ≤ j < 32 → i ≠ j →
  Z.land (logflags (setFlags flag on x)) g = Z.land (logflags x) g.
Proof.
  intros -> -> Hi Hj Hne. unfold setFlags, not32. destruct on; cbn [logflags set_logflags].
  - rewrite Z.land_lor_distr_l.
    replace (Z.land (2 ^ i) (2 ^ j)) with 0; [apply Z.lor_0_r|].
    symmetry. apply Z.bits_inj'. intros k Hk.
    rewrite Z.land_spec, Z.bits_0, !Z.pow2_bits_eqb by lia.
    destruct (Z.eqb_spec i k), (Z.eqb_spec j k); try done. congruence.
  - rewrite <- Z.land_assoc. f_equal.
    apply Z.bits_inj'. intros k Hk.
    rewrite Z.land_spec, Z.lxor_spec, testbit_ones32, !Z.pow2_bits_eqb by lia.
    destruct (Z.eqb_spec j k) as [<-|]; [|apply andb_false_r].
    destruct (Z.eqb_spec i j); [done|].
    destruct (Z.leb_spec 0 j); [|lia]. destruct (Z.ltb_spec j 32); [done|lia].
Qed.

(** X14. Each of the four switches reads back what was last set for it, and
    setting one of them changes the answer of none of the other three. *)
Theorem switches_are_independent (on : bool) (conf : config) :
  let d := setFlags logFlagLogDebug on conf in
  let f := SetLogFunctionName on conf in
  let l := SetLogFilenameLineNum on conf in
  let c := SetLogToConsole on conf in
  (logDebug d = on ∧ logFuncName d = logFuncName conf ∧
   logFilenameLineNum d = logFilenameLineNum conf ∧ logToConsole d = logToConsole conf) ∧
  (logFuncName f = on ∧ logDebug f = logDebug conf ∧
   logFilenameLineNum f = logFilenameLineNum conf ∧ logToConsole f = logToConsole conf) ∧
  (logFilenameLineNum l = on ∧ logDebug l = logDebug conf ∧
   logFuncName l = logFuncName conf ∧ logToConsole l = logToConsole conf) ∧
  (logToConsole c = on ∧ logDebug c = logDebug conf ∧
   logFuncName c = logFuncName conf ∧ logFilenameLineNum c = logFilenameLineNum conf).
Proof.
  cbv zeta.
  unfold SetLogFunctionName, SetLogFilenameLineNum, SetLogToConsole,
    logDebug, logFuncName, logFilenameLineNum, logToConsole.
  repeat split.
  all: first
    [ by apply (flag_read _ conf on 0)
    | by apply (flag_read _ conf on 1)
    | by apply (flag_read _ conf on 2)
    | by apply (flag_read _ conf on 3)
    | idtac ].
  all: f_equal; f_equal.
  all: match goal with
       | |- Z.land (logflags (setFlags ?a _ _)) ?b = _ =>
           apply (flag_other a b conf on (Z.log2 a) (Z.log2 b));
             [reflexivity|reflexivity|vm_compute; split; congruence
             |vm_compute; split; congruence|vm_compute; congruence]
       end.
Qed.

(** ** The size limit *)

(** X15. [setMaxSize] of a [uint32] never overflows: the limit is positive
    and an [int64], it is the number of megabytes times 2^20 for a
    positive argument, it grows with the argument, and the limit for 0 is
    above the limit for every other argument. *)
Theorem setMaxSize_limits (m m' : Z) (conf : config) :
  uint32 m → uint32 m' →
  0 < maxsize (setMaxSize m conf) ≤ maxInt64 ∧
  (0 < m → maxsize (setMaxSize m conf) = m * 2 ^ 20) ∧
  (0 < m ≤ m' → maxsize (setMaxSize m conf) ≤ maxsize (setMaxSize m' conf)) ∧
  (0 < m → maxsize (setMaxSize m conf) < maxsize (setMaxSize 0 conf)).
Proof.
  intros [Hm0 Hm1] [Hn0 Hn1].
  assert (Hw : ∀ k, 0 < k < 2 ^ 32 →
                    maxsize (setMaxSize k conf) = k * 2 ^ 20).
  { intros k Hk. unfold setMaxSize. destruct (Z.ltb_spec 0 k); [|lia]. cbn.
    unfold wrap64. rewrite (Z.mod_small (k * 1024 + 2 ^ 63)) by lia.
    rewrite Z.mod_small by lia. lia. }
  assert (H0 : maxsize (setMaxSize 0 conf) = 2 ^ 63 - 1 - 2 ^ 50) by reflexivity.
  change maxInt64 with (2 ^ 63 - 1).
  destruct (Z.eq_dec m 0) as [->|Hm].
  - rewrite H0. repeat split; lia.
  - rewrite (Hw m) by lia. repeat split; try lia.
    intros Hle. rewrite (Hw m') by lia. lia.
Qed.

Lemma setMaxSize_limits_witness :
  0 < maxsize (setMaxSize 20 gConf) ≤ maxInt64 ∧
  (0 < 20 → maxsize (setMaxSize 20 gConf) = 20 * 2 ^ 20) ∧
  (0 < 20 ≤ 4294967295 →
   maxsize (setMaxSize 20 gConf) ≤ maxsize (setMaxSize 4294967295 gConf)) ∧
  (0 < 20 → maxsize (setMaxSize 20 gConf) < maxsize (setMaxSize 0 gConf)).
Proof.
  apply (setMaxSize_limits 20 4294967295 gConf); unfold uint32; lia.
Defined.

(** ** [Init] *)

Lemma append_empty_r (s : string) : s +:+ EmptyString = s.
Proof.
  induction s as [|c s IH]; [done|].
  change (String c (s +:+ EmptyString) = String c s). by rewrite IH.
Qed.

Lemma Replace_default (gProgname : string) :
  strings_Replace DefFilenamePrefix "%P" gProgname = gProgname.
Proof. cbn. apply append_empty_r. Qed.

Lemma setFilenamePrefix_default (gProgname : string) (conf : config) :
  setFilenamePrefix gProgname DefFilenamePrefix conf
  = set_pathPrefix (logPath conf +:+ gProgname +:+ ".") conf.
Proof.
  unfold setFilenamePrefix.
  change (0 <? String.length DefFilenamePrefix)%nat with true. cbv iota.
  by rewrite Replace_default.
Qed.

Lemma debug_switch (on : bool) (conf : config) :
  let d := setFlags logFlagLogDebug on conf in
  logDebug d = on ∧ logFuncName d = logFuncName conf ∧
  logFilenameLineNum d = logFilenameLineNum conf ∧ logToConsole d = logToConsole conf.
Proof.
  cbv zeta. unfold logDebug, logFuncName, logFilenameLineNum, logToConsole.
  split; [by apply (flag_read _ conf on 0)|].
  repeat split; f_equal; f_equal.
  - by apply (flag_other _ _ conf on 0 1).
  - by apply (flag_other _ _ conf on 0 2).
  - by apply (flag_other _ _ conf on 0 3).
Qed.

(** The arguments [Init] accepts. *)
Lemma Init_checks (maxfiles nfilesToDel : Z) :
  (((maxfiles <=? 0) || (100000 <? maxfiles)) = false ∧
   ((nfilesToDel <=? 0) || (maxfiles <? nfilesToDel)) = false)
  ↔ 1 ≤ maxfiles ≤ 100000 ∧ 1 ≤ nfilesToDel ≤ maxfiles.
Proof.
  destruct (Z.leb_spec maxfiles 0), (Z.ltb_spec 100000 maxfiles),
    (Z.leb_spec nfilesToDel 0), (Z.ltb_spec maxfiles nfilesToDel); cbn;
    split; intros [? ?]; try done; try lia.
Qed.

Lemma Init_without_error (env : Env) (gProgname logpath : string)
    (maxfiles nfilesToDel maxsize : Z) (logDebug : bool) (conf : config) :
  (Init env gProgname logpath maxfiles nfilesToDel maxsize logDebug conf).1 = None →
  env_MkdirAll env logpath = None ∧
  1 ≤ maxfiles ≤ 100000 ∧ 1 ≤ nfilesToDel ≤ maxfiles.
Proof.
  unfold Init. destruct (env_MkdirAll env logpath) as [e|]; [done|].
  pose proof (Init_checks maxfiles nfilesToDel) as Hc.
  destruct ((maxfiles <=? 0) || (100000 <? maxfiles)); [done|].
  destruct ((nfilesToDel <=? 0) || (maxfiles <? nfilesToDel)); [done|].
  destruct Hc as [[Hm Hn] _]; done.
Qed.

(** X16. [Init] returns no error exactly when the directory could be made,
    the two counts are in range ([1 ≤ maxfiles ≤ 100000] and
    [1 ≤ nfilesToDel ≤ maxfiles]), and the new directory could be listed. *)
Theorem Init_succeeds_iff (env : Env) (gProgname logpath : string)
    (maxfiles nfilesToDel maxsize : Z) (logDebug : bool) (conf : config) :
  (Init env gProgname logpath maxfiles nfilesToDel maxsize logDebug conf).1 = None
  ↔ env_MkdirAll env logpath = None ∧
    1 ≤ maxfiles ≤ 100000 ∧ 1 ≤ nfilesToDel ≤ maxfiles ∧
    (getLogfilenames env (logpath +:+ "/")).2 = None.
Proof.
  unfold Init. destruct (env_MkdirAll env logpath) as [e|]; [by split; [|intros [? _]]|].
  pose proof (Init_checks maxfiles nfilesToDel) as Hc.
  destruct ((maxfiles <=? 0) || (100000 <? maxfiles)) eqn:H1;
    [split; [done|]; intros (_ & ? & ? & _); by destruct Hc as [_ [? _]]|].
  destruct ((nfilesToDel <=? 0) || (maxfiles <? nfilesToDel)) eqn:H2;
    [split; [done|]; intros (_ & ? & ? & _); by destruct Hc as [_ [_ ?]]|].
  destruct Hc as [[Hm Hn] _]; [done|].
  unfold SetFilenamePrefix. rewrite setFilenamePrefix_default.
  replace (logPath (set_pathPrefix _ _)) with (logpath +:+ "/")
    by (unfold setMaxSize, setFlags; by destruct (0 <? maxsize), logDebug).
  destruct (getLogfilenames env (logpath +:+ "/")) as [files [e|]]; cbn; by intuition.
Qed.

(** X17. After an [Init] without error the configuration holds the
    arguments: the directory with a slash added, the prefix made of the
    directory and the program name, the two counts, which satisfy
    [1 ≤ nfilesToDel ≤ maxfiles ≤ 100000], the size limit of [setMaxSize], the
    number of names found in the directory, and the debug switch; the other
    three switches are as before. *)
Theorem Init_settings (env : Env) (gProgname logpath : string)
    (maxfiles nfilesToDel maxsize : Z) (logDebug : bool) (conf : config) :
  let r := Init env gProgname logpath maxfiles nfilesToDel maxsize logDebug conf in
  r.1 = None →
  logPath r.2 = logpath +:+ "/" ∧
  pathPrefix r.2 = logPath r.2 +:+ gProgname +:+ "." ∧
  gpclogging.maxfiles r.2 = maxfiles ∧ gpclogging.nfilesToDel r.2 = nfilesToDel ∧
  1 ≤ gpclogging.nfilesToDel r.2 ≤ gpclogging.maxfiles r.2 ≤ 100000 ∧
  gpclogging.maxsize r.2 = gpclogging.maxsize (setMaxSize maxsize conf) ∧
  curfiles r.2 = Z.of_nat (length (getLogfilenames env (logpath +:+ "/")).1) ∧
  gpclogging.logDebug r.2 = logDebug ∧
  logFuncName r.2 = logFuncName conf ∧
  logFilenameLineNum r.2 = logFilenameLineNum conf ∧
  logToConsole r.2 = logToConsole conf.
Proof.
  intros r Hr.
  destruct (Init_without_error _ _ _ _ _ _ _ _ Hr) as (Hmk & Hm & Hn).
  destruct (proj2 (Init_checks maxfiles nfilesToDel) (conj Hm Hn)) as [H1 H2].
  destruct (debug_switch logDebug (set_logPath (logpath +:+ "/") conf))
    as (Hd & Hf & Hfl & Hc).
  subst r. unfold Init in *. rewrite Hmk, H1, H2 in *.
  unfold SetFilenamePrefix in *. rewrite setFilenamePrefix_default in *.
  replace (logPath (set_pathPrefix _ _)) with (logpath +:+ "/") in *
    by (unfold setMaxSize, setFlags; by destruct (0 <? maxsize), logDebug).
  destruct (getLogfilenames env (logpath +:+ "/")) as [files [e|]]; [done|].
  cbn [fst snd] in *.
  assert (Hfr : ∀ c, logflags (setMaxSize maxsize c) = logflags c ∧
                     logPath (setMaxSize maxsize c) = logPath c ∧
                     gpclogging.maxfiles (setMaxSize maxsize c) = gpclogging.maxfiles c ∧
                     gpclogging.nfilesToDel (setMaxSize maxsize c)
                     = gpclogging.nfilesToDel c)
    by (intros c; unfold setMaxSize; by destruct (0 <? maxsize)).
  assert (Hp : logPath (setFlags logFlagLogDebug logDebug
                          (set_logPath (logpath +:+ "/") conf)) = logpath +:+ "/")
    by (by destruct logDebug).
  unfold gpclogging.logDebug, logFuncName, logFilenameLineNum, logToConsole in *.
  cbn [logPath pathPrefix gpclogging.maxfiles gpclogging.nfilesToDel gpclogging.maxsize
       curfiles logflags set_pathPrefix set_curfiles set_maxfiles set_nfilesToDel].
  destruct (Hfr (set_nfilesToDel nfilesToDel (set_maxfiles maxfiles
                   (setFlags logFlagLogDebug logDebug
                      (set_logPath (logpath +:+ "/") conf))))) as (-> & -> & -> & ->).
  cbn [logPath pathPrefix gpclogging.maxfiles gpclogging.nfilesToDel gpclogging.maxsize
       curfiles logflags set_pathPrefix set_curfiles set_maxfiles set_nfilesToDel].
  rewrite Hp. repeat split; try done; try lia.
  unfold setMaxSize. by destruct (0 <? maxsize).
Qed.

Lemma Init_settings_witness :
  let r := Init (calmEnv usedNames) "gpc" "./logs" 2 1 20 true (init "gpc") in
  logPath r.2 = "./logs" +:+ "/" ∧
  pathPrefix r.2 = logPath r.2 +:+ "gpc" +:+ "." ∧
  gpclogging.maxfiles r.2 = 2 ∧ gpclogging.nfilesToDel r.2 = 1 ∧
  1 ≤ gpclogging.nfilesToDel r.2 ≤ gpclogging.maxfiles r.2 ≤ 100000 ∧
  gpclogging.maxsize r.2 = gpclogging.maxsize (setMaxSize 20 (init "gpc")) ∧
  curfiles r.2 = Z.of_nat (length (getLogfilenames (calmEnv usedNames) ("./logs" +:+ "/")).1) ∧
  gpclogging.logDebug r.2 = true ∧
  logFuncName r.2 = logFuncName (init "gpc") ∧
  logFilenameLineNum r.2 = logFilenameLineNum (init "gpc") ∧
  logToConsole r.2 = logToConsole (init "gpc").
Proof.
  apply (Init_settings (calmEnv usedNames) "gpc" "./logs" 2 1 20 true (init "gpc")).
  reflexivity.
Defined.

(** X18. An [Init] that refuses its arguments, or cannot make the directory,
    returns an error and leaves the configuration as it was. *)
Theorem Init_refusal (env : Env) (gProgname logpath : string)
    (maxfiles nfilesToDel maxsize : Z) (logDebug : bool) (conf : config) :
  env_MkdirAll env logpath ≠ None ∨
  ¬ (1 ≤ maxfiles ≤ 100000) ∨ ¬ (1 ≤ nfilesToDel ≤ maxfiles) →
  let r := Init env gProgname logpath maxfiles nfilesToDel maxsize logDebug conf in
  r.1 ≠ None ∧ r.2 = conf.
Proof.
  intros H. unfold Init. destruct (env_MkdirAll env logpath) as [e|]; [done|].
  pose proof (Init_checks maxfiles nfilesToDel) as Hc.
  destruct ((maxfiles <=? 0) || (100000 <? maxfiles)); [done|].
  destruct ((nfilesToDel <=? 0) || (maxfiles <? nfilesToDel)); [done|].
  destruct Hc as [[Hm Hn] _]; [done|]. by destruct H as [?|[?|?]].
Qed.

Lemma Init_refusal_witness :
  let r := Init (calmEnv usedNames) "gpc" "./logs" 2 3 20 true (init "gpc") in
  r.1 ≠ None ∧ r.2 = init "gpc".
Proof.
  apply (Init_refusal (calmEnv usedNames) "gpc" "./logs" 2 3 20 true (init "gpc")).
  right. right. lia.
Defined.

(** ** The order of the purge *)

Lemma ascii_compare_trans (a b c : Ascii.ascii) :
  Ascii.compare a b = Lt → Ascii.compare b c = Lt → Ascii.compare a c = Lt.
Proof. unfold Ascii.compare. rewrite !N.compare_lt_iff. lia. Qed.

Lemma string_compare_trans (a b c : string) :
  String.compare a b = Lt → String.compare b c = Lt → String.compare a c = Lt.
Proof.
  revert b c. induction a as [|x a IH]; intros [|y b] [|z c]; simpl; try done.
  destruct (Ascii.compare x y) eqn:Hxy; try done.
  - apply Ascii.compare_eq_iff in Hxy as ->. destruct (Ascii.compare y z); try done.
    apply IH.
  - destruct (Ascii.compare y z) eqn:Hyz; try done.
    + apply Ascii.compare_eq_iff in Hyz as <-. by rewrite Hxy.
    + by rewrite (ascii_compare_trans x y z).
Qed.

Lemma string_ltb_asym (a b : string) : String.ltb a b = true → String.ltb b a = false.
Proof.
  unfold String.ltb. rewrite (String.compare_antisym b a).
  by destruct (String.compare a b).
Qed.

(** X19. [byCreatedTime.Less] is transitive on all names, short ones
    included. *)
Theorem Less_transitive (s1 s2 s3 : string) :
  byCreatedTime_Less s1 s2 = true → byCreatedTime_Less s2 s3 = true →
  byCreatedTime_Less s1 s3 = true.
Proof.
  unfold byCreatedTime_Less.
  destruct (String.length s1 <? logFilenameMinLen)%nat; [done|].
  destruct (String.length s2 <? logFilenameMinLen)%nat; [done|].
  destruct (String.length s3 <? logFilenameMinLen)%nat; [done|].
  unfold String.ltb.
  destruct (String.compare (substring _ _ s1) (substring _ _ s2)) eqn:H12; try done.
  destruct (String.compare (substring _ _ s2) (substring _ _ s3)) eqn:H23; try done.
  by rewrite (string_compare_trans _ _ _ H12 H23).
Qed.

Lemma Less_transitive_witness :
  byCreatedTime_Less "Notepad_20200101120001.log" "process-controller.20200102080000.log" = true ∧
  byCreatedTime_Less "process-controller.20200102080000.log"
    "process-controller.20200103120005.log" = true ∧
  byCreatedTime_Less "Notepad_20200101120001.log" "process-controller.20200103120005.log" = true.
Proof.
  split; [reflexivity|]. split; [reflexivity|].
  apply (Less_transitive _ "process-controller.20200102080000.log"); reflexivity.
Defined.

(** X20. Two names are each [Less] than the other exactly when both are
    shorter than [logFilenameMinLen]: a name is [Less] than itself exactly
    when it is that short, and [Less] is asymmetric as soon as one of the
    two names is longer. *)
Theorem Less_both_ways (s1 s2 : string) :
  byCreatedTime_Less s1 s2 = true ∧ byCreatedTime_Less s2 s1 = true
  ↔ (String.length s1 < logFilenameMinLen)%nat ∧
    (String.length s2 < logFilenameMinLen)%nat.
Proof.
  unfold byCreatedTime_Less.
  destruct (Nat.ltb_spec (String.length s1) logFilenameMinLen),
    (Nat.ltb_spec (String.length s2) logFilenameMinLen).
  - done.
  - split; [by intros [_ ?]|lia].
  - split; [by intros [? _]|lia].
  - split; [|lia]. intros [H12 H21]. by rewrite (string_ltb_asym _ _ H12) in H21.
Qed.

(** ** Rotation and purging *)

Lemma SameSettings_refl (conf : config) : SameSettings conf conf.
Proof. by destruct conf. Qed.

Lemma SameSettings_curfiles (conf conf' : config) (v : Z) :
  SameSettings conf conf' → SameSettings conf (set_curfiles v conf').
Proof. unfold SameSettings. destruct conf, conf'. intros H. exact H. Qed.

Lemma SameSettings_logPath (conf conf' : config) :
  SameSettings conf conf' → logPath conf' = logPath conf ∧ pathPrefix conf' = pathPrefix conf.
Proof. unfold SameSettings. destruct conf, conf'; cbn. by intros [= -> -> -> -> -> ->]. Qed.

Lemma SameSettings_trans (a b c : config) :
  SameSettings a b → SameSettings b c → SameSettings a c.
Proof.
  unfold SameSettings, set_curfiles. destruct a, b, c; cbn.
  intros H1 H2. inversion H1; inversion H2; subst. reflexivity.
Qed.

Lemma SameSettings_eq (conf conf' : config) (v : Z) :
  SameSettings conf conf' → set_curfiles v conf' = set_curfiles v conf.
Proof.
  unfold SameSettings, set_curfiles. destruct conf, conf'; cbn.
  intros H. inversion H; subst. reflexivity.
Qed.

(** The purge loop over the first [k] names. *)
Lemma removeLoop_spec (env : Env) (l : logger) (files : list string) (k : nat)
    (conf : config) (evs : list LogEvent) :
  (k ≤ length files)%nat →
  ∃ conf' evs',
    foldl (removeOldest env l files) (Some (conf, evs)) (seq 0 k)
    = Some (conf', evs ++ evs') ∧
    SameSettings conf conf' ∧
    Forall (λ e, carriesEntry e = false) evs' ∧
    ((∀ name, env_RemoveAll env name = None) →
     - 2 ^ 63 ≤ curfiles conf - Z.of_nat k → curfiles conf < 2 ^ 63 →
     curfiles conf' = curfiles conf - Z.of_nat k ∧
     evs' = removals conf (take k files)).
Proof.
  induction k as [|k IH]; intros Hk.
  - exists conf, []. rewrite app_nil_r. split; [done|].
    split; [apply SameSettings_refl|]. split; [done|]. intros _ _ _.
    split; [lia|by rewrite take_0].
  - destruct IH as (c1 & ev1 & Hf & Hs & Hn & Hall); [lia|].
    rewrite seq_S, foldl_app, Hf. cbn [foldl removeOldest Nat.add].
    destruct (lookup_lt_is_Some_2 files k) as [f Hfk]; [lia|]. rewrite Hfk.
    destruct (SameSettings_logPath _ _ Hs) as [Hp _].
    destruct (env_RemoveAll env (logPath c1 +:+ f)) as [err|] eqn:Hrm.
    + exists c1, (ev1 ++ [LvRemoveAll (logPath c1 +:+ f) (Some err); errlog l [] err]).
      rewrite app_assoc. split; [done|]. split; [done|]. split.
      * apply Forall_app. split; [done|]. by repeat constructor.
      * intros H. by rewrite H in Hrm.
    + exists (set_curfiles (wrap64 (curfiles c1 - 1)) c1),
             (ev1 ++ [LvRemoveAll (logPath c1 +:+ f) None]).
      rewrite app_assoc. split; [done|]. split; [by apply SameSettings_curfiles|]. split.
      * apply Forall_app. split; [done|]. by repeat constructor.
      * intros H H1 H2. destruct (Hall H) as [Hc ->]; [lia|done|]. split.
        -- cbn. rewrite Hc. unfold wrap64. rewrite Z.mod_small by lia. lia.
        -- unfold removals. by rewrite (take_S_r _ _ f Hfk), fmap_app, Hp.
Qed.

(** The purge, when [sort.Sort] leaves as many names as it was given. *)
Lemma purge_spec (env : Env) (l : logger) (data : list Byte.byte) (conf : config) :
  length (env_Sort env byCreatedTime_Less (getLogfilenames env (logPath conf)).1)
  = length (getLogfilenames env (logPath conf)).1 →
  (∃ e, purge env l data conf = Returns (conf, [errlog l data e])) ∨
  (∃ conf' evs, purge env l data conf = GoesOn (conf', evs) ∧
                SameSettings conf conf' ∧
                Forall (λ e, carriesEntry e = false) evs).
Proof.
  intros Hlen. unfold purge.
  destruct (maxfiles conf <=? curfiles conf);
    [|right; exists conf, []; auto using SameSettings_refl].
  destruct (getLogfilenames env (logPath conf)) as [files [e|]]; [left; by exists e|].
  cbn [fst] in Hlen. right.
  set (c1 := set_curfiles (Z.of_nat (length files)) conf).
  assert (Hs1 : SameSettings conf c1) by apply SameSettings_curfiles, SameSettings_refl.
  destruct (maxfiles c1 <=? curfiles c1); [|exists c1, []; auto].
  set (n0 := wrap64 (wrap64 (curfiles c1 - maxfiles c1) + nfilesToDel c1)).
  set (nfiles := if curfiles c1 <? n0 then curfiles c1 else n0).
  assert (Hn : (Z.to_nat nfiles ≤ length (env_Sort env byCreatedTime_Less files))%nat).
  { rewrite Hlen. subst nfiles. change (curfiles c1) with (Z.of_nat (length files)).
    destruct (Z.ltb_spec (Z.of_nat (length files)) n0); lia. }
  destruct (removeLoop_spec env l _ _ c1 [] Hn) as (c2 & ev2 & -> & Hs2 & Hne & _).
  exists c2, ev2. split; [done|]. split; [|done].
  by apply (SameSettings_trans conf c1 c2).
Qed.

(** X21. [logger.log] does not panic: the purge never reads past the names
    it has listed.  It returns with a configuration in which nothing but
    the number of files can have changed. *)
Theorem logger_log_returns (env : Env) (t : Time) (data : list Byte.byte)
    (conf : config) (l : logger) :
  length (env_Sort env byCreatedTime_Less (getLogfilenames env (logPath conf)).1)
  = length (getLogfilenames env (logPath conf)).1 →
  ∃ conf' l' evs,
    logger_log env t data conf l = Some (conf', l', evs) ∧ SameSettings conf conf'.
Proof.
  intros Hlen. unfold logger_log, writeEntry.
  destruct ((maxsize conf <=? size l) || negb (day l =? Day t) || isNil (file l));
    [|eauto 6 using SameSettings_refl].
  destruct (purge_spec env l data conf Hlen) as [[e ->]|(c1 & ev1 & -> & Hs & _)];
    [eauto 6 using SameSettings_refl|].
  destruct (env_OpenFile env (logFilename c1 t)); [eauto 6|].
  eauto 8 using SameSettings_curfiles.
Qed.

Lemma logger_log_returns_witness :
  ∃ conf' l' evs,
    logger_log (calmEnv usedNames) noon [] mainConf freshLogger = Some (conf', l', evs) ∧
    SameSettings mainConf conf'.
Proof.
  apply (logger_log_returns (calmEnv usedNames) noon [] mainConf freshLogger).
  reflexivity.
Defined.

(** X22. In every call that returns, the entry is handed over once, by the
    last request: it is written to the file the logger holds afterwards,
    which is not nil, or it goes through [errlog], and then the logger is
    as it was before the call. *)
Theorem log_entry_is_last (env : Env) (t : Time) (data : list Byte.byte)
    (conf conf' : config) (l l' : logger) (evs : list LogEvent) :
  length (env_Sort env byCreatedTime_Less (getLogfilenames env (logPath conf)).1)
  = length (getLogfilenames env (logPath conf)).1 →
  logger_log env t data conf l = Some (conf', l', evs) →
  ∃ pre, Forall (λ e, carriesEntry e = false) pre ∧
         ((evs = pre ++ [LvWrite (file l') data] ∧ file l' ≠ None) ∨
          (∃ e, evs = pre ++ [LvErrlog (file l) e data] ∧ l' = l)).
Proof.
  intros Hlen. unfold logger_log, writeEntry.
  destruct ((maxsize conf <=? size l) || negb (day l =? Day t) || isNil (file l)) eqn:Hrot.
  - destruct (purge_spec env l data conf Hlen) as [[e ->]|(c1 & ev1 & -> & Hs & Hne)].
    + intros [= <- <- <-]. exists []. split; [done|]. right. by exists e.
    + destruct (env_OpenFile env (logFilename c1 t)) as [err|].
      * intros [= <- <- <-]. exists (ev1 ++ [LvOpenFile (logFilename c1 t) (Some err)]).
        split; [apply Forall_app; split; [done|by repeat constructor]|].
        right. exists err. by rewrite <- app_assoc.
      * intros [= <- <- <-].
        exists (ev1 ++ [LvOpenFile (logFilename c1 t) None; LvClose (file l)]).
        split; [apply Forall_app; split; [done|by repeat constructor]|]. by left.
  - intros [= <- <- <-]. exists []. split; [done|]. left. split; [done|]. cbn.
    apply orb_false_iff in Hrot as [_ Hnil]. by destruct (file l).
Qed.

Lemma log_entry_is_last_witness :
  ∃ conf' l' evs pre,
    logger_log (calmEnv usedNames) noon [] mainConf freshLogger = Some (conf', l', evs) ∧
    Forall (λ e, carriesEntry e = false) pre ∧
    ((evs = pre ++ [LvWrite (file l') []] ∧ file l' ≠ None) ∨
     (∃ e, evs = pre ++ [LvErrlog (file freshLogger) e []] ∧ l' = freshLogger)).
Proof.
  eexists _, _, _.
  assert (H : logger_log (calmEnv usedNames) noon [] mainConf freshLogger = Some _)
    by (vm_compute; reflexivity).
  destruct (log_entry_is_last (calmEnv usedNames) noon [] mainConf _ freshLogger _ _
              eq_refl H) as (pre & Hpre).
  exists pre. split; [exact H|exact Hpre].
Defined.

(** X23. A rotation with a full directory, in which listing, removing and
    opening all work: under the bounds [Init] sets, the
    [n - maxfiles + nfilesToDel] names that [sort.Sort] puts first among
    the [n] listed are removed, the new file is opened, the old one closed,
    the entry written to the new file, and [maxfiles - nfilesToDel + 1]
    files are counted. *)
Theorem rotation_with_purge (env : Env) (t : Time) (data : list Byte.byte)
    (conf : config) (l : logger) (names : list string) :
  1 ≤ nfilesToDel conf ≤ maxfiles conf ∧ maxfiles conf ≤ 100000 →
  maxsize conf ≤ size l ∨ day l ≠ Day t ∨ file l = None →
  maxfiles conf ≤ curfiles conf →
  getLogfilenames env (logPath conf) = (names, None) →
  maxfiles conf ≤ Z.of_nat (length names) < 2 ^ 62 →
  length (env_Sort env byCreatedTime_Less names) = length names →
  (∀ name, env_RemoveAll env name = None) →
  env_OpenFile env (logFilename conf t) = None →
  let k := Z.to_nat (Z.of_nat (length names) - maxfiles conf + nfilesToDel conf) in
  let filename := logFilename conf t in
  logger_log env t data conf l
  = Some (set_curfiles (maxfiles conf - nfilesToDel conf + 1) conf,
          {| file := Some filename; level := level l; day := Day t;
             size := wrap64 (0 + env_Write env filename data) |},
          removals conf (take k (env_Sort env byCreatedTime_Less names))
          ++ [LvOpenFile filename None; LvClose (file l); LvWrite (Some filename) data]).
Proof.
  intros (Hd & Hm) Hrot Hfull Hlist Hlen Hsort Hrm Hopen k filename.
  unfold logger_log.
  assert (Hr : ((maxsize conf <=? size l) || negb (day l =? Day t) || isNil (file l)) = true).
  { destruct Hrot as [H|[H|H]].
    - apply Z.leb_le in H. by rewrite H.
    - apply Z.eqb_neq in H. rewrite H. apply orb_true_iff. left. apply orb_true_r.
    - rewrite H. apply orb_true_r. }
  rewrite Hr. unfold purge.
  apply Z.leb_le in Hfull. rewrite Hfull, Hlist.
  set (c1 := set_curfiles (Z.of_nat (length names)) conf).
  assert (Hfull1 : (maxfiles c1 <=? curfiles c1) = true)
    by (apply Z.leb_le; unfold c1; cbn; lia).
  rewrite Hfull1.
  set (n0 := wrap64 (wrap64 (curfiles c1 - maxfiles c1) + nfilesToDel c1)).
  assert (Hn0 : n0 = Z.of_nat (length names) - maxfiles conf + nfilesToDel conf).
  { subst n0. unfold c1. cbn [curfiles maxfiles nfilesToDel set_curfiles].
    unfold wrap64.
    rewrite (Z.mod_small (Z.of_nat (length names) - maxfiles conf + 2 ^ 63)) by lia.
    rewrite Z.mod_small by lia. lia. }
  assert (Hcap : (curfiles c1 <? n0) = false)
    by (apply Z.ltb_ge; unfold c1; cbn; lia).
  rewrite Hcap, Hn0. fold k.
  destruct (removeLoop_spec env l (env_Sort env byCreatedTime_Less names) k c1 [])
    as (c2 & ev2 & -> & Hs2 & _ & Hall); [lia|].
  destruct Hall as [Hc2 ->]; [done|unfold c1; cbn; lia|unfold c1; cbn; lia|].
  destruct (SameSettings_logPath _ _ Hs2) as [Hp2 Hpp2].
  subst filename.
  assert (Hfn : logFilename c2 t = logFilename conf t)
    by (unfold logFilename; by rewrite Hpp2).
  rewrite Hfn, Hopen. unfold writeEntry. cbn [file level day size app].
  f_equal. f_equal; [f_equal|].
  - assert (Hs : SameSettings conf c2).
    { apply (SameSettings_trans conf c1 c2); [|done].
      apply SameSettings_curfiles, SameSettings_refl. }
    rewrite (SameSettings_eq conf c2 _ Hs). f_equal. rewrite Hc2. unfold c1.
    cbn [curfiles set_curfiles]. unfold wrap64. rewrite Z.mod_small by lia. lia.
  - by rewrite <- app_assoc.
Qed.

Lemma rotation_with_purge_witness :
  logger_log (calmEnv usedNames) noon [] mainConf freshLogger
  = Some (set_curfiles (maxfiles mainConf - nfilesToDel mainConf + 1) mainConf,
          {| file := Some (logFilename mainConf noon); level := 0; day := 3;
             size := wrap64 (0 + 0) |},
          removals mainConf (take 2 usedNames)
          ++ [LvOpenFile (logFilename mainConf noon) None; LvClose None;
              LvWrite (Some (logFilename mainConf noon)) []]).
Proof.
  apply (rotation_with_purge (calmEnv usedNames) noon [] mainConf freshLogger usedNames).
  - vm_compute. repeat split; congruence.
  - right. right. reflexivity.
  - vm_compute. congruence.
  - reflexivity.
  - vm_compute. repeat split; congruence.
  - reflexivity.
  - reflexivity.
  - reflexivity.
Defined.

End logging.

